(** * Ubitrack utcore: epipolar distance, triangulation and point projection

    A shallow embedding of
    - [utCalibration/3DPointReconstruction.cpp] (namespace Ubitrack::Calibration),
    - [utAlgorithm/FundamentalMatrix.h] (EvaluateFundamentalMatrix),
    - [utAlgorithm/ToolTip/Ransac.h] (the functor [Ransac] and
      estimatePosition3D_6D),
    - [utMath/Geometry/PointProjection.h] (ProjectPoint and project_points),
    - [utMath/vector_traits.h] (the storage traits),
    - [tests/Calibration/ProjectionTest.cpp] (the correspondences of
      TestProjectionDLT),
    and the properties of these functions.

    The C++ is templated over the scalar type [T] (instantiated at [float] and
    [double]); the embedding is generic over a class [Scalar] of the operators
    the code applies to [T].  Three instances are given: IEEE binary32
    ([float], SpecFloat at precision 24), IEEE binary64 ([double], Rocq's
    primitive floats) and the exact rationals [Qc].

    Fixed-size vectors and matrices are records, [std::vector] is [list],
    [std::size_t] is [nat] (indices and sizes) or [N] (the [flag]), a thrown
    exception is the left summand of [Result].  LAPACK's [gesvd], the Munkres
    solver, the Levenberg-Marquardt optimiser, the RANSAC engine, the
    identity container, the tip calibration, [Math::Pose] and [norm_2] are
    not part of these sources: the functions that call them take them as
    parameters.

    The file has three parts: the embedding, the vocabulary of the
    statements with the concrete inputs, and the properties. *)

(** * The embedding *)

From Stdlib Require Import String.
From Stdlib Require Import List Bool Arith ZArith NArith QArith Qcanon.
From Stdlib Require Import Floats Lia Field.
From ExtLib Require Import Structures.Monad Structures.MonadExc.
From ExtLib Require Import Data.Monads.EitherMonad.
Import ListNotations.
Import MonadNotation.
Local Open Scope monad_scope.
Close Scope Qc_scope.
Close Scope Q_scope.

Set Implicit Arguments.

(** ** The scalar type [T] of the templates *)

(** The operators the code uses on [T]: the literals [0] and [1], [+], [-],
    [*], [/], unary minus and [<]. *)
Class Scalar (T : Type) : Type := {
  szero : T;
  sone : T;
  sadd : T -> T -> T;
  ssub : T -> T -> T;
  smul : T -> T -> T;
  sdiv : T -> T -> T;
  sneg : T -> T;
  sltb : T -> T -> bool
}.

Declare Scope scalar_scope.
Delimit Scope scalar_scope with S.
Notation "0" := szero : scalar_scope.
Notation "1" := sone : scalar_scope.
Infix "+" := sadd : scalar_scope.
Infix "-" := ssub : scalar_scope.
Infix "*" := smul : scalar_scope.
Infix "/" := sdiv : scalar_scope.
Notation "- x" := (sneg x) : scalar_scope.
Notation "x <? y" := (sltb x y) : scalar_scope.
(** C++ [a > b] on a built-in type is [b < a]. *)
Notation "x >? y" := (sltb y x) : scalar_scope.

(** [T = float]: IEEE 754 binary32, each C++ operator one correctly
    rounded operation: the values of [spec_float] that are valid at
    precision 24 and maximal exponent 128, with the operations of SpecFloat
    at that format.  [1.0f] has mantissa [2^23] and exponent [-23]. *)
Definition single_prec : Z := 24.
Definition single_emax : Z := 128.
Definition single_one : spec_float := S754_finite false 8388608 (-23).

#[global] Instance Scalar_single : Scalar spec_float := {|
  szero := S754_zero false;
  sone := single_one;
  sadd := SFadd single_prec single_emax;
  ssub := SFsub single_prec single_emax;
  smul := SFmul single_prec single_emax;
  sdiv := SFdiv single_prec single_emax;
  sneg := SFopp;
  sltb := SFltb
|}.

(** [T = double]: IEEE 754 binary64, each C++ operator one correctly
    rounded operation. *)
#[global] Instance Scalar_double : Scalar float := {|
  szero := 0%float;
  sone := 1%float;
  sadd := PrimFloat.add;
  ssub := PrimFloat.sub;
  smul := PrimFloat.mul;
  sdiv := PrimFloat.div;
  sneg := PrimFloat.opp;
  sltb := PrimFloat.ltb
|}.

(** Exact arithmetic: the field of rationals in canonical form (where
    [x / 0] is [0]). *)
#[global] Instance Scalar_Qc : Scalar Qc := {|
  szero := 0%Qc;
  sone := 1%Qc;
  sadd := Qcplus;
  ssub := Qcminus;
  smul := Qcmult;
  sdiv := Qcdiv;
  sneg := Qcopp;
  sltb := fun x y => match (x ?= y)%Qc with Lt => true | _ => false end
|}.

(** ** Math::Vector and Math::Matrix of fixed size *)

Record Vector2 (T : Type) : Type := mkVector2 { v2_0 : T; v2_1 : T }.
Record Vector3 (T : Type) : Type := mkVector3 { v3_0 : T; v3_1 : T; v3_2 : T }.
Record Vector4 (T : Type) : Type :=
  mkVector4 { v4_0 : T; v4_1 : T; v4_2 : T; v4_3 : T }.
Record Vector6 (T : Type) : Type :=
  mkVector6 { v6_0 : T; v6_1 : T; v6_2 : T; v6_3 : T; v6_4 : T; v6_5 : T }.

(** A matrix is the record of its rows: [m34_2 P] is [ublas::row( P, 2 )]
    and [v4_0 (m34_2 P)] is [P( 2, 0 )]. *)
Record Matrix33 (T : Type) : Type :=
  mkMatrix33 { m33_0 : Vector3 T; m33_1 : Vector3 T; m33_2 : Vector3 T }.
Record Matrix34 (T : Type) : Type :=
  mkMatrix34 { m34_0 : Vector4 T; m34_1 : Vector4 T; m34_2 : Vector4 T }.
Record Matrix44 (T : Type) : Type :=
  mkMatrix44 { m44_0 : Vector4 T; m44_1 : Vector4 T; m44_2 : Vector4 T;
               m44_3 : Vector4 T }.

(** ** Boost uBLAS operations used by the sources *)

Module ublas.
Section Ops.
Context {T : Type} {ST : Scalar T}.
Local Open Scope scalar_scope.

(** One element of [prod( m, v )]: uBLAS accumulates [t += m(i,j) * v(j)]
    over [j], starting from [t = T(0)]. *)
Definition row_prod3 (r v : Vector3 T) : T :=
  0 + v3_0 r * v3_0 v + v3_1 r * v3_1 v + v3_2 r * v3_2 v.

(** [ublas::prod( m, v )] for a 3x3 matrix and a 3-vector. *)
Definition prod33 (m : Matrix33 T) (v : Vector3 T) : Vector3 T :=
  mkVector3 (row_prod3 (m33_0 m) v) (row_prod3 (m33_1 m) v)
            (row_prod3 (m33_2 m) v).

(** Column [j] of a 3x4 matrix, as the three elements [P(0,j)], [P(1,j)],
    [P(2,j)]. *)
Definition col34_0 (P : Matrix34 T) : Vector3 T :=
  mkVector3 (v4_0 (m34_0 P)) (v4_0 (m34_1 P)) (v4_0 (m34_2 P)).
Definition col34_1 (P : Matrix34 T) : Vector3 T :=
  mkVector3 (v4_1 (m34_0 P)) (v4_1 (m34_1 P)) (v4_1 (m34_2 P)).
Definition col34_2 (P : Matrix34 T) : Vector3 T :=
  mkVector3 (v4_2 (m34_0 P)) (v4_2 (m34_1 P)) (v4_2 (m34_2 P)).
Definition col34_3 (P : Matrix34 T) : Vector3 T :=
  mkVector3 (v4_3 (m34_0 P)) (v4_3 (m34_1 P)) (v4_3 (m34_2 P)).

(** One row of [prod( m, P )] for a 3x3 [m] and a 3x4 [P]. *)
Definition row_prod34 (r : Vector3 T) (P : Matrix34 T) : Vector4 T :=
  mkVector4 (row_prod3 r (col34_0 P)) (row_prod3 r (col34_1 P))
            (row_prod3 r (col34_2 P)) (row_prod3 r (col34_3 P)).

(** [ublas::prod( m, P )] for a 3x3 matrix and a 3x4 matrix. *)
Definition prod33_34 (m : Matrix33 T) (P : Matrix34 T) : Matrix34 T :=
  mkMatrix34 (row_prod34 (m33_0 m) P) (row_prod34 (m33_1 m) P)
             (row_prod34 (m33_2 m) P).

(** [t * v], [v - w] and [-v] on 4-vectors (element by element). *)
Definition scale4 (t : T) (v : Vector4 T) : Vector4 T :=
  mkVector4 (t * v4_0 v) (t * v4_1 v) (t * v4_2 v) (t * v4_3 v).
Definition minus4 (v w : Vector4 T) : Vector4 T :=
  mkVector4 (v4_0 v - v4_0 w) (v4_1 v - v4_1 w) (v4_2 v - v4_2 w)
            (v4_3 v - v4_3 w).
Definition neg4 (v : Vector4 T) : Vector4 T :=
  mkVector4 (- v4_0 v) (- v4_1 v) (- v4_2 v) (- v4_3 v).

(** [vec /= vec( 3 )]: the divisor is passed by reference and aliases the
    last element; the elements are divided in increasing index order, so
    elements 0 to 2 are divided by the original [vec( 3 )] and the last one
    by itself. *)
Definition div_assign_last (v : Vector4 T) : Vector4 T :=
  let e0 := v4_0 v / v4_3 v in
  let e1 := v4_1 v / v4_3 v in
  let e2 := v4_2 v / v4_3 v in
  let e3 := v4_3 v / v4_3 v in
  mkVector4 e0 e1 e2 e3.

(** [ublas::subrange( vec, 0, 3 )]. *)
Definition subrange03 (v : Vector4 T) : Vector3 T :=
  mkVector3 (v4_0 v) (v4_1 v) (v4_2 v).
End Ops.
End ublas.

(** ** Exceptions *)

(** [UBITRACK_THROW( what )] throws a [Ubitrack::Util::Exception] carrying the
    message; [std::vector::at] throws [std::out_of_range]. *)
Inductive Exception : Type :=
| UbitrackException (what : string)
| out_of_range.

(** A computation that returns an [A] or throws. *)
Definition Result (A : Type) : Type := (Exception + A)%type.

#[global] Instance Monad_Result : Monad Result := Monad_either Exception.
#[global] Instance Exception_Result : MonadExc Exception Result :=
  Exception_either Exception.

Definition UBITRACK_THROW {A : Type} (what : string) : Result A :=
  raise (UbitrackException what).

(** [v.at( i )]. *)
Definition at_ {A : Type} (v : list A) (i : nat) : Result A :=
  match nth_error v i with
  | Some a => ret a
  | None => raise out_of_range
  end.

(** [for ( i = first; ...; ++i ) body] over the indices [idx], threading the
    state the body updates; an exception leaves the loop. *)
Fixpoint for_each {S : Type} (idx : list nat) (body : nat -> S -> Result S)
    (s : S) : Result S :=
  match idx with
  | [] => ret s
  | i :: rest => s' <- body i s ;; for_each rest body s'
  end.

(** ** The C++ standard library: output iterators and [std::transform] *)

Module std.

(** An output iterator over elements [V]: [*it++ = v] gives the advanced
    iterator.  Writing through an iterator that cannot be dereferenced has
    no defined behaviour: [None]. *)
Class OutputIterator (It V : Type) : Type :=
  assign_next : It -> V -> option It.

(** [std::back_inserter( c )]: the iterator holds the container, and each
    assignment is a [push_back]. *)
Record back_insert_iterator (V : Type) : Type :=
  back_inserter { container : list V }.

#[global] Instance OutputIterator_back_insert (V : Type)
  : OutputIterator (back_insert_iterator V) V :=
  fun it v => Some (back_inserter (container it ++ [v])).

(** An iterator into a [std::vector]: the elements of the vector and the
    position; it can be written through while it is before [end()]. *)
Record vector_iterator (V : Type) : Type :=
  mk_vector_iterator { storage : list V; position : nat }.

(** [c.begin()]. *)
Definition begin {V : Type} (c : list V) : vector_iterator V :=
  mk_vector_iterator c 0.

#[global] Instance OutputIterator_vector (V : Type)
  : OutputIterator (vector_iterator V) V :=
  fun it v =>
    if (position it <? length (storage it))%nat
    then Some (mk_vector_iterator
                 (firstn (position it) (storage it)
                  ++ v :: skipn (S (position it)) (storage it))
                 (S (position it)))
    else None.

(** [std::transform( first1, last1, first2, d_first, binary_op )]: for each
    element of [[first1, last1)], [*d_first++ = binary_op( *first1++,
    *first2++ )]; returns the advanced output iterator.  The second input is
    given by the value [first2 i] read after [i] increments. *)
Fixpoint transform {A B C It : Type} {out : OutputIterator It C}
    (range1 : list A) (first2 : nat -> B) (d_first : It)
    (binary_op : A -> B -> C) : option It :=
  match range1 with
  | [] => Some d_first
  | a :: rest =>
      match assign_next d_first (binary_op a (first2 0)) with
      | Some d_next => transform rest (fun i => first2 (S i)) d_next binary_op
      | None => None
      end
  end.
End std.

(** ** utAlgorithm/FundamentalMatrix.h: the RANSAC evaluator *)

Module Algorithm.
Section Evaluate.
Context {T : Type} {ST : Scalar T}.
Local Open Scope scalar_scope.

(** [from_( i ) = fM( i, 0 ) * from( 0 ) + fM( i, 1 ) * from( 1 ) + fM( i, 2 )]. *)
Definition from_row (r : Vector3 T) (from : Vector2 T) : T :=
  v3_0 r * v2_0 from + v3_1 r * v2_1 from + v3_2 r.

(** [EvaluateFundamentalMatrix::operator()] (lines 115-123). *)
Definition EvaluateFundamentalMatrix
    (fM : Matrix33 T) (from to : Vector2 T) : T :=
  let from_ := mkVector3 (from_row (m33_0 fM) from) (from_row (m33_1 fM) from)
                         (from_row (m33_2 fM) from) in
  let term := v3_0 from_ * v2_0 to + v3_1 from_ * v2_1 to + v3_2 from_ in
  (term * term) / (v3_0 from_ * v3_0 from_ + v3_1 from_ * v3_1 from_).
End Evaluate.
End Algorithm.

(** ** utMath/Geometry/PointProjection.h: ProjectPoint *)

Module Geometry.
Section Project.
Context {T : Type} {ST : Scalar T}.
Local Open Scope scalar_scope.

(** [ProjectPoint::operator()( Matrix 3x4, Vector2 )] (lines 87-98): the
    third column of the matrix is skipped. *)
Definition ProjectPoint2 (projMat : Matrix34 T) (vec : Vector2 T) : Vector2 T :=
  let e1 := v4_0 (m34_0 projMat) * v2_0 vec + v4_1 (m34_0 projMat) * v2_1 vec
            + v4_3 (m34_0 projMat) in
  let e2 := v4_0 (m34_1 projMat) * v2_0 vec + v4_1 (m34_1 projMat) * v2_1 vec
            + v4_3 (m34_1 projMat) in
  let e3 := v4_0 (m34_2 projMat) * v2_0 vec + v4_1 (m34_2 projMat) * v2_1 vec
            + v4_3 (m34_2 projMat) in
  mkVector2 (e1 / e3) (e2 / e3).

(** [ProjectPoint::operator()( Matrix 3x4, Vector3 )] (lines 101-108). *)
Definition ProjectPoint3 (projMat : Matrix34 T) (vec : Vector3 T) : Vector2 T :=
  let e1 := v4_0 (m34_0 projMat) * v3_0 vec + v4_1 (m34_0 projMat) * v3_1 vec
            + v4_2 (m34_0 projMat) * v3_2 vec + v4_3 (m34_0 projMat) in
  let e2 := v4_0 (m34_1 projMat) * v3_0 vec + v4_1 (m34_1 projMat) * v3_1 vec
            + v4_2 (m34_1 projMat) * v3_2 vec + v4_3 (m34_1 projMat) in
  let e3 := v4_0 (m34_2 projMat) * v3_0 vec + v4_1 (m34_2 projMat) * v3_1 vec
            + v4_2 (m34_2 projMat) * v3_2 vec + v4_3 (m34_2 projMat) in
  mkVector2 (e1 / e3) (e2 / e3).

(** [ProjectPoint::operator()( Matrix 3x3, Vector2 )] (lines 76-83): here
    the argument is a homogeneous 2D point. *)
Definition ProjectPoint2_33 (projMat : Matrix33 T) (vec : Vector2 T) : Vector2 T :=
  let e1 := v3_0 (m33_0 projMat) * v2_0 vec + v3_1 (m33_0 projMat) * v2_1 vec
            + v3_2 (m33_0 projMat) in
  let e2 := v3_0 (m33_1 projMat) * v2_0 vec + v3_1 (m33_1 projMat) * v2_1 vec
            + v3_2 (m33_1 projMat) in
  let e3 := v3_0 (m33_2 projMat) * v2_0 vec + v3_1 (m33_2 projMat) * v2_1 vec
            + v3_2 (m33_2 projMat) in
  mkVector2 (e1 / e3) (e2 / e3).

(** [ProjectPoint::operator()( Matrix 3x4, Vector4 )] (lines 111-118). *)
Definition ProjectPoint4 (projMat : Matrix34 T) (vec : Vector4 T) : Vector2 T :=
  let e1 := v4_0 (m34_0 projMat) * v4_0 vec + v4_1 (m34_0 projMat) * v4_1 vec
            + v4_2 (m34_0 projMat) * v4_2 vec
            + v4_3 (m34_0 projMat) * v4_3 vec in
  let e2 := v4_0 (m34_1 projMat) * v4_0 vec + v4_1 (m34_1 projMat) * v4_1 vec
            + v4_2 (m34_1 projMat) * v4_2 vec
            + v4_3 (m34_1 projMat) * v4_3 vec in
  let e3 := v4_0 (m34_2 projMat) * v4_0 vec + v4_1 (m34_2 projMat) * v4_1 vec
            + v4_2 (m34_2 projMat) * v4_2 vec
            + v4_3 (m34_2 projMat) * v4_3 vec in
  mkVector2 (e1 / e3) (e2 / e3).

(** The functor [ProjectPoint]: one [operator()] per supported pair of a
    matrix type and a vector type (every other pair is refused at compile
    time by the catch-all template of lines 67-72). *)
Class ProjectPoint_overload (M V : Type) : Type :=
  ProjectPoint : M -> V -> Vector2 T.

#[global] Instance ProjectPoint_33_2
  : ProjectPoint_overload (Matrix33 T) (Vector2 T) := ProjectPoint2_33.
#[global] Instance ProjectPoint_34_2
  : ProjectPoint_overload (Matrix34 T) (Vector2 T) := ProjectPoint2.
#[global] Instance ProjectPoint_34_3
  : ProjectPoint_overload (Matrix34 T) (Vector3 T) := ProjectPoint3.
#[global] Instance ProjectPoint_34_4
  : ProjectPoint_overload (Matrix34 T) (Vector4 T) := ProjectPoint4.

(** [ProjectPoint::operator()( vector, matrix )] (lines 122-126): the
    arguments in the inverse order. *)
Definition ProjectPoint_flipped {M V : Type}
    {overload : ProjectPoint_overload M V} (lhs : V) (rhs : M) : Vector2 T :=
  ProjectPoint rhs lhs.
End Project.

Section ProjectPoints.
Context {T : Type} {ST : Scalar T}.
Context {M V It : Type} {overload : ProjectPoint_overload (T := T) M V}.
Context {out : std.OutputIterator It (Vector2 T)}.

(** [Ubitrack::Util::identity< const Matrix > id_container( projection )]
    (utMath/Stochastic/identity_iterator.h is not among the sources):
    [identity_begin projection i] is the matrix read through
    [id_container.begin()] after [i] increments. *)
Variable identity_begin : M -> nat -> M.

(** [project_points( projection, iBegin, iEnd, iOut )] (lines 180-206): the
    result is the output iterator after the call. *)
Definition project_points (projection : M) (range : list V) (iOut : It)
    : option It :=
  std.transform range (identity_begin projection) iOut
    (fun vec mat => ProjectPoint_flipped vec mat).
End ProjectPoints.
End Geometry.

(** ** utCalibration/3DPointReconstruction.cpp (namespace Ubitrack::Calibration) *)

Module Calibration.
Import ublas.

(** *** The epipolar distance *)

Section Distance.
Context {T : Type} {ST : Scalar T}.
Local Open Scope scalar_scope.

(** [pointToPointDistImp] (lines 51-58). *)
Definition pointToPointDistImp
    (from to : Vector3 T) (fM : Matrix33 T) : T :=
  let from_ := ublas.prod33 fM from in
  let term := v3_0 from_ * v3_0 to + v3_1 from_ * v3_1 to + v3_2 from_ in
  (term * term) / (v3_0 from_ * v3_0 from_ + v3_1 from_ * v3_1 from_).

(** [pointToPointDist] on 2-vectors (lines 60-74): both points are lifted
    to homogeneous coordinates with a last element [1]. *)
Definition pointToPointDist
    (from to : Vector2 T) (fM : Matrix33 T) : T :=
  let from_ := mkVector3 (v2_0 from) (v2_1 from) 1 in
  let to_ := mkVector3 (v2_0 to) (v2_1 to) 1 in
  pointToPointDistImp from_ to_ fM.

(** [pointToPointDist] on 3-vectors (lines 76-84). *)
Definition pointToPointDist3
    (from to : Vector3 T) (fM : Matrix33 T) : T :=
  pointToPointDistImp from to fM.
End Distance.

(** *** Triangulation and the reconstruction pipeline *)

Definition msg_too_few : string :=
  "3d point estimation requires at least 2 matrices and 2 image points.".
Definition msg_svd_failed : string :=
  "SVD for point reconstruction failed.".
Definition msg_not_equal : string :=
  "no equal amount of camera projections and corresponding points.".

Section Triangulation.
Context {T : Type} {ST : Scalar T}.
Local Open Scope scalar_scope.

(** [lapack::gesvd( 'N', 'A', A, s, U, Vt )]: the rows of [A] go in, the
    LAPACK [info] code and the matrix [Vt] come out (external). *)
Variable gesvd : list (Vector4 T) -> Z * Matrix44 T.

(** [Math::levenbergMarquardt( func, parameters, measurement, ... )] with
    [func] built from the projection matrices: returns the residual and
    the optimised parameters (external). *)
Variable levenbergMarquardt :
  list (Matrix34 T) -> Vector3 T -> list T -> T * Vector3 T.

(** [Math::Graph::Munkres< T > m( matrix ); m.solve(); m.getRowMatchList()]
    (utMath/Graph/Munkres.h is not among the sources). *)
Variable munkres : list (list T) -> list nat.

(** The contents of storage that is allocated and not written. *)
Variable indeterminate : T.

(** The 4x4 system of the two-view [get3DPositionImpl] (lines 91-95). *)
Definition two_view_system (P1 P2 : Matrix34 T) (x x_ : Vector2 T)
    : list (Vector4 T) :=
  [ minus4 (scale4 (v2_0 x) (m34_2 P1)) (m34_0 P1);
    minus4 (scale4 (v2_1 x) (m34_2 P1)) (m34_1 P1);
    minus4 (scale4 (v2_0 x_) (m34_2 P2)) (m34_0 P2);
    minus4 (scale4 (v2_1 x_) (m34_2 P2)) (m34_1 P2) ].

(** Two-view [get3DPositionImpl] (lines 88-104): the result of [gesvd] is
    not inspected and no sign is checked. *)
Definition get3DPositionImpl (P1 P2 : Matrix34 T) (x x_ : Vector2 T)
    : Vector3 T :=
  let A := two_view_system P1 P2 x x_ in
  let Vt := snd (gesvd A) in
  mkVector3 (v4_0 (m44_3 Vt) / v4_3 (m44_3 Vt))
            (v4_1 (m44_3 Vt) / v4_3 (m44_3 Vt))
            (v4_2 (m44_3 Vt) / v4_3 (m44_3 Vt)).

(** [get3DPosition( P1, P2, x, x_ )] (lines 106-114). *)
Definition get3DPosition (P1 P2 : Matrix34 T) (x x_ : Vector2 T)
    : Vector3 T :=
  get3DPositionImpl P1 P2 x x_.

(** The matrix [skew] of lines 137-140. *)
Definition skew (pt : Vector2 T) : Matrix33 T :=
  mkMatrix33 (mkVector3 0 1 (- v2_1 pt))
             (mkVector3 (sneg 1) 0 (v2_0 pt))
             (mkVector3 (v2_1 pt) (- v2_0 pt) 0).

(** The loop of lines 132-142: block [i] of [A] (rows [3i] to [3i+2]) is
    [prod( skew, *it )].  [iPoints] is advanced without a bound of its own;
    the public functions call this with equally many matrices and points. *)
Fixpoint build_system (Ps : list (Matrix34 T)) (pts : list (Vector2 T))
    : list (Vector4 T) :=
  match Ps, pts with
  | P :: Ps', pt :: pts' =>
      let block := prod33_34 (skew pt) P in
      m34_0 block :: m34_1 block :: m34_2 block :: build_system Ps' pts'
  | _, _ => []
  end.

(** The value [s] of line 155. *)
Definition third_row_depth (P : Matrix34 T) (vec : Vector4 T) : T :=
  v4_0 (m34_2 P) * v4_0 vec + v4_1 (m34_2 P) * v4_1 vec
  + v4_2 (m34_2 P) * v4_2 vec + v4_3 (m34_2 P) * v4_3 vec.

(** The loop of lines 152-161, with its [break]. *)
Fixpoint sign_scan (Ps : list (Matrix34 T)) (vec : Vector4 T) : Vector4 T :=
  match Ps with
  | [] => vec
  | P :: rest =>
      let s := third_row_depth P vec in
      if 0 >? s then neg4 vec else sign_scan rest vec
  end.

(** Iterator-range [get3DPositionImpl] (lines 117-164). *)
Definition get3DPositionImpl_range (Ps : list (Matrix34 T))
    (pts : list (Vector2 T)) : Result (Vector3 T) :=
  let n := length Ps in
  if (n <? 2)%nat then UBITRACK_THROW msg_too_few
  else
    let A := build_system Ps pts in
    let '(info, Vt) := gesvd A in
    if negb (info =? 0)%Z then UBITRACK_THROW msg_svd_failed
    else
      let vec := m44_3 Vt in
      let vec := sign_scan Ps vec in
      let vec := div_assign_last vec in
      ret (subrange03 vec).

(** [optimize3DPositionImpl] (lines 167-193): returns the residual and the
    optimised point. *)
Definition optimize3DPositionImpl (Ps : list (Matrix34 T))
    (pts : list (Vector2 T)) (initialPoint : Vector3 T) : T * Vector3 T :=
  let n := length Ps in
  let measurement :=
    flat_map (fun p => [v2_0 p; v2_1 p]) (firstn n pts) in
  levenbergMarquardt Ps initialPoint measurement.

(** [get3DPosition( P, points, flag )] (lines 195-214). *)
Definition get3DPosition_vector (P : list (Matrix34 T))
    (points : list (Vector2 T)) (flag : N) : Result (Vector3 T) :=
  if negb (length P =? length points)%nat
  then UBITRACK_THROW msg_not_equal
  else
    result <- get3DPositionImpl_range P points ;;
    if (0 <? flag)%N
    then ret (snd (optimize3DPositionImpl P points result))
    else ret result.

(** [get3DPositionWithResidual( P, points, flag, pResidual )] (lines
    216-227).  [pResidual] says whether the pointer is non-null; the second
    component of the result is the value stored through it, if any. *)
Definition get3DPositionWithResidual (P : list (Matrix34 T))
    (points : list (Vector2 T)) (flag : N) (pResidual : bool)
    : Result (Vector3 T * option T) :=
  if negb (length P =? length points)%nat
  then UBITRACK_THROW msg_not_equal
  else
    result <- get3DPositionImpl_range P points ;;
    if (0 <? flag)%N
    then
      let '(residual, parameters) :=
        optimize3DPositionImpl P points result in
      ret (parameters, if pResidual then Some residual else None)
    else ret (result, None).

(** [Math::Matrix< 0, 0, T > matrix( rows, cols )]. *)
Definition new_matrix (rows cols : nat) : list (list T) :=
  repeat (repeat indeterminate cols) rows.

(** Replace element [i] of a list (no effect out of range). *)
Fixpoint set_nth {A : Type} (l : list A) (i : nat) (a : A) : list A :=
  match l, i with
  | [], _ => []
  | _ :: l', O => a :: l'
  | b :: l', S i' => b :: set_nth l' i' a
  end.

(** [matrix( row, col ) = v]. *)
Definition set_elem (matrix : list (list T)) (row col : nat) (v : T)
    : list (list T) :=
  match nth_error matrix row with
  | Some r => set_nth matrix row (set_nth r col v)
  | None => matrix
  end.

(** The loops of lines 242-248. *)
Definition cost_matrix (p1 p2 : list (Vector2 T)) (fM : Matrix33 T)
    : Result (list (list T)) :=
  let p1Size := length p1 in
  let p2Size := length p2 in
  for_each (seq 0 p1Size)
    (fun row matrix =>
       for_each (seq 0 p2Size)
         (fun col matrix =>
            a <- at_ p1 row ;;
            b <- at_ p2 col ;;
            ret (set_elem matrix row col (pointToPointDist a b fM)))
         matrix)
    (new_matrix p1Size p2Size).

(** [reconstruct3DPointsImpl] (lines 231-265). *)
Definition reconstruct3DPointsImpl (p1 p2 : list (Vector2 T))
    (P1 P2 : Matrix34 T) (fM : Matrix33 T) : Result (list (Vector3 T)) :=
  let p1Size := length p1 in
  let p2Size := length p2 in
  matrix <- cost_matrix p1 p2 fM ;;
  let matchList := munkres matrix in
  for_each (seq 0 p1Size)
    (fun i list =>
       j <- at_ matchList i ;;
       if (j <? p2Size)%nat
       then
         a <- at_ p1 i ;;
         b <- at_ p2 j ;;
         ret (list ++ [get3DPosition P1 P2 a b])
       else ret list)
    [].

(** [reconstruct3DPoints] (lines 267-277). *)
Definition reconstruct3DPoints (p1 p2 : list (Vector2 T))
    (P1 P2 : Matrix34 T) (fM : Matrix33 T) : Result (list (Vector3 T)) :=
  reconstruct3DPointsImpl p1 p2 P1 P2 fM.
End Triangulation.
End Calibration.

(** ** utAlgorithm/ToolTip/Ransac.h *)

Module ToolTip.
Section Estimate.
Context {T : Type}.

(** [Math::Pose] and [Math::Optimization::RansacParameter< double >]. *)
Variables Pose RansacParameter : Type.

(** [Math::Optimization::ransac( first, last, resultVector, functor, params )]
    (utMath/Optimization/Ransac.h is not among the sources): it receives
    [resultVector] by reference and returns the number of inliers; the
    second component is [resultVector] after the call. *)
Variable ransac :
  list Pose -> Vector6 T -> RansacParameter -> N * Vector6 T.

(** The contents of the local [resultVector] before it is written. *)
Variable indeterminate : Vector6 T.

(** [estimatePosition3D_6D( pw, poses, pm, params )] (lines 93-105): the
    result is the returned [bool] with the final [pw] and [pm]. *)
Definition estimatePosition3D_6D (poses : list Pose)
    (params : RansacParameter) : bool * Vector3 T * Vector3 T :=
  let resultVector := indeterminate in
  let '(inlier, resultVector) := ransac poses resultVector params in
  let pw := mkVector3 (v6_0 resultVector) (v6_1 resultVector)
                      (v6_2 resultVector) in
  let pm := mkVector3 (v6_3 resultVector) (v6_4 resultVector)
                      (v6_5 resultVector) in
  ((0 <? inlier)%N, pw, pm).
End Estimate.

(** The function object [Ransac< T >] (lines 45-91). *)
Section RansacFunctor.
Context {T : Type} {ST : Scalar T}.
Local Open Scope scalar_scope.
Variable Pose : Type.

(** [estimatePosition3D_6D( pw, poses, pm )] of TipCalibration.h (not among
    the sources): it receives [pw] and [pm] by reference and returns a
    [bool]; the other components are [pw] and [pm] after the call. *)
Variable estimatePosition3D_6D_tip :
  Vector3 T -> list Pose -> Vector3 T -> bool * Vector3 T * Vector3 T.

(** [Math::Pose::operator*( Vector3 )] and [Math::norm_2] (external). *)
Variable pose_times : Pose -> Vector3 T -> Vector3 T.
Variable norm_2 : Vector3 T -> T.

(** The contents of the locals [pw] and [pm] before they are written. *)
Variables indeterminate_pw indeterminate_pm : Vector3 T.

(** [offset - tip] on 3-vectors (element by element). *)
Definition minus3 (v w : Vector3 T) : Vector3 T :=
  mkVector3 (v3_0 v - v3_0 w) (v3_1 v - v3_1 w) (v3_2 v - v3_2 w).

(** [Ransac::Estimator::operator()] (lines 60-74): the returned [bool] and
    [resultVector] after the call. *)
Definition Estimator (resultVector : Vector6 T) (poses : list Pose)
    : bool * Vector6 T :=
  let '(ok, pw, pm) :=
    estimatePosition3D_6D_tip indeterminate_pw poses indeterminate_pm in
  if negb ok then (false, resultVector)
  else
    (true,
     mkVector6 (v3_0 pw) (v3_1 pw) (v3_2 pw) (v3_0 pm) (v3_1 pm) (v3_2 pm)).

(** [Ransac::Evaluator::operator()] (lines 83-89). *)
Definition Evaluator (toolTip : Vector6 T) (p : Pose) : T :=
  let tip :=
    pose_times p (mkVector3 (v6_3 toolTip) (v6_4 toolTip) (v6_5 toolTip)) in
  let offset := mkVector3 (v6_0 toolTip) (v6_1 toolTip) (v6_2 toolTip) in
  let diff := minus3 offset tip in
  norm_2 diff.
End RansacFunctor.
End ToolTip.

(** ** utMath/vector_traits.h *)

Module Math.

(** A type a trait is instantiated at: [Math::Vector< T, N >], or any other
    type. *)
Inductive type_argument : Type :=
| Vector (T : Type) (N : nat)
| other_type.

(** [has_fixed_storage< VType >::value] (lines 15-25): the partial
    specialisation for [Vector< T, 0 >] is the more specialised one. *)
Definition has_fixed_storage (VType : type_argument) : bool :=
  match VType with
  | Vector _ 0 => false
  | Vector _ (S _) => true
  | other_type => false
  end.

(** [has_dynamic_storage< VType >::value] (lines 27-38). *)
Definition has_dynamic_storage (VType : type_argument) : bool :=
  match VType with
  | Vector _ 0 => true
  | Vector _ (S _) => false
  | other_type => true
  end.

(** [vector_traits< VType >::size] (lines 41-71): a member of the
    specialisation for [Vector< T, N >] only. *)
Definition vector_traits_size (VType : type_argument) : option nat :=
  match VType with
  | Vector _ 0 => None
  | Vector _ (S n) => Some (S n)
  | other_type => None
  end.
End Math.

(** ** tests/Calibration/ProjectionTest.cpp *)

Module ProjectionTest.
Section Correspondences.
Context {T : Type} {ST : Scalar T}.
Local Open Scope scalar_scope.

(** One element of [prod( P, x )] for a 3x4 matrix and a 4-vector (sums
    start from [T(0)]). *)
Definition row_prod4 (r v : Vector4 T) : T :=
  0 + v4_0 r * v4_0 v + v4_1 r * v4_1 v + v4_2 r * v4_2 v + v4_3 r * v4_3 v.

Definition prod34 (P : Matrix34 T) (x : Vector4 T) : Vector3 T :=
  mkVector3 (row_prod4 (m34_0 P) x) (row_prod4 (m34_1 P) x)
            (row_prod4 (m34_2 P) x).

(** The body of the inner loop of [TestProjectionDLT] (lines 63-70) for the
    three random numbers drawn for [fromPoints[ i ]]: the pair
    [(fromPoints[ i ], toPoints[ i ])]. *)
Definition correspondence (Ptest : Matrix34 T) (r0 r1 r2 : T)
    : Vector3 T * Vector2 T :=
  let x := mkVector4 r0 r1 r2 1 in
  let fromPoint := mkVector3 r0 r1 r2 in
  let xp := prod34 Ptest x in
  let toPoint := mkVector2 (v3_0 xp / v3_2 xp) (v3_1 xp / v3_2 xp) in
  (fromPoint, toPoint).
End Correspondences.
End ProjectionTest.

(** * Vocabulary of the statements *)

Unset Implicit Arguments.

(** ** The epipolar line and the distance to it *)

(** The evaluator as the specification words it: the line [(a, b, c)] of the
    homogeneous point [(x, y, 1)] under [F], and the squared distance
    [(a x' + b y' + c)^2 / (a^2 + b^2)] of [(x', y')] to it. *)
Section EpipolarSpec.
Context {T : Type} {ST : Scalar T}.
Local Open Scope scalar_scope.

Definition epipolar_line (F : Matrix33 T) (p : Vector2 T) : Vector3 T :=
  let x := v2_0 p in
  let y := v2_1 p in
  mkVector3 (v3_0 (m33_0 F) * x + v3_1 (m33_0 F) * y + v3_2 (m33_0 F))
            (v3_0 (m33_1 F) * x + v3_1 (m33_1 F) * y + v3_2 (m33_1 F))
            (v3_0 (m33_2 F) * x + v3_1 (m33_2 F) * y + v3_2 (m33_2 F)).

Definition square (t : T) : T := t * t.

Definition squared_line_distance (l : Vector3 T) (p : Vector2 T) : T :=
  let a := v3_0 l in
  let b := v3_1 l in
  let c := v3_2 l in
  square (a * v2_0 p + b * v2_1 p + c) / (square a + square b).

End EpipolarSpec.

(** ** IEEE values *)

Module IEEE.
Local Open Scope Z_scope.

(** [1.0] in binary64: mantissa [2^52], exponent [-52]. *)
Definition one_sf : spec_float := S754_finite false 4503599627370496 (-52).

(** A [float]: a value of the binary32 format; a matrix of them. *)
Definition valid_single (a : spec_float) : Prop :=
  SpecFloat.valid_binary single_prec single_emax a = true.

Definition valid_single3 (v : Vector3 spec_float) : Prop :=
  valid_single (v3_0 v) /\ valid_single (v3_1 v) /\ valid_single (v3_2 v).

Definition valid_single33 (F : Matrix33 spec_float) : Prop :=
  valid_single3 (m33_0 F) /\ valid_single3 (m33_1 F)
  /\ valid_single3 (m33_2 F).

Definition is_zero_sf (a : spec_float) : Prop := exists s, a = S754_zero s.

(** Neither infinite nor NaN. *)
Definition finite_sf (a : spec_float) : Prop :=
  match a with
  | S754_zero _ | S754_finite _ _ _ => True
  | S754_infinity _ | S754_nan => False
  end.

(** Equal, or both a zero (of either sign): what C++ [==] cannot tell apart
    on numbers. *)
Definition same_or_zeros (a b : spec_float) : Prop :=
  a = b \/ (is_zero_sf a /\ is_zero_sf b).

Definition is_zero_f (x : float) : Prop := is_zero_sf (Prim2SF x).
Definition finite_f (x : float) : Prop := finite_sf (Prim2SF x).
Definition same_or_zeros_f (x y : float) : Prop :=
  same_or_zeros (Prim2SF x) (Prim2SF y).
End IEEE.

(** ** Triangulation *)

Section TriangulationSpec.
Context {T : Type} {ST : Scalar T}.
Local Open Scope scalar_scope.

(** The test [0 > s] of line 156 for the camera [P]. *)
Definition negative_depth (vec : Vector4 T) (P : Matrix34 T) : bool :=
  0 >? Calibration.third_row_depth P vec.

(** [(v0 / v3, v1 / v3, v2 / v3)]: the point of the homogeneous vector [v]. *)
Definition dehomogenise (v : Vector4 T) : Vector3 T :=
  mkVector3 (v4_0 v / v4_3 v) (v4_1 v / v4_3 v) (v4_2 v / v4_3 v).

(** The third component of [P (X; 1)]. *)
Definition projective_depth (P : Matrix34 T) (X : Vector3 T) : T :=
  v4_0 (m34_2 P) * v3_0 X + v4_1 (m34_2 P) * v3_1 X
  + v4_2 (m34_2 P) * v3_2 X + v4_3 (m34_2 P).

(** The last row of [Vt] for the two-view and for the N-view system. *)
Definition last_row_two_view (gesvd : list (Vector4 T) -> Z * Matrix44 T)
    (P1 P2 : Matrix34 T) (x x_ : Vector2 T) : Vector4 T :=
  m44_3 (snd (gesvd (Calibration.two_view_system P1 P2 x x_))).

Definition last_row_range (gesvd : list (Vector4 T) -> Z * Matrix44 T)
    (Ps : list (Matrix34 T)) (pts : list (Vector2 T)) : Vector4 T :=
  m44_3 (snd (gesvd (Calibration.build_system Ps pts))).

(** The denominator [e3] of the 2D overload of [ProjectPoint] on a 3x4
    matrix. *)
Definition ProjectPoint2_denominator (P : Matrix34 T) (v : Vector2 T) : T :=
  v4_0 (m34_2 P) * v2_0 v + v4_1 (m34_2 P) * v2_1 v + v4_3 (m34_2 P).
End TriangulationSpec.

(** ** The cost matrix and the matched rows *)

Section PipelineSpec.
Context {T : Type} {ST : Scalar T}.

(** The element [p[i]] of a point vector. *)
Definition point_at (indeterminate : T) (p : list (Vector2 T)) (i : nat)
    : Vector2 T :=
  nth i p (mkVector2 indeterminate indeterminate).

(** The cost matrix as the specification words it: entry [(row, col)] is
    [pointToPointDist( p1[row], p2[col], fM )]. *)
Definition cost_row (p2 : list (Vector2 T)) (fM : Matrix33 T)
    (a : Vector2 T) : list T :=
  map (fun b => Calibration.pointToPointDist a b fM) p2.

Definition cost_matrix_spec (p1 p2 : list (Vector2 T)) (fM : Matrix33 T)
    : list (list T) :=
  map (cost_row p2 fM) p1.

(** Row [row] of the matrix while the inner loop is at column [col]. *)
Definition partial_row (indeterminate : T) (p2 : list (Vector2 T))
    (fM : Matrix33 T) (a : Vector2 T) (col : nat) : list T :=
  map (fun b => Calibration.pointToPointDist a b fM) (firstn col p2)
  ++ repeat indeterminate (length p2 - col).

(** Row [i] has a match when its entry of the row match list is a column of
    the matrix; its output element is then the triangulation of [p1[i]] with
    the matched point of [p2]. *)
Definition matched_row (p2 : list (Vector2 T)) (matchList : list nat)
    (i : nat) : bool :=
  (nth i matchList 0 <? length p2)%nat.

Definition triangulate_row (gesvd : list (Vector4 T) -> Z * Matrix44 T)
    (indeterminate : T) (p1 p2 : list (Vector2 T)) (P1 P2 : Matrix34 T)
    (matchList : list nat) (i : nat) : Vector3 T :=
  Calibration.get3DPosition gesvd P1 P2 (point_at indeterminate p1 i)
    (point_at indeterminate p2 (nth i matchList 0)).
End PipelineSpec.

(** ** Homogeneous coordinates and linear systems *)

Section GeometrySpec.
Context {T : Type} {ST : Scalar T}.
Local Open Scope scalar_scope.

(** The homogeneous vector [(X; 1)] of a 3D point. *)
Definition homogeneous (X : Vector3 T) : Vector4 T :=
  mkVector4 (v3_0 X) (v3_1 X) (v3_2 X) 1.

(** The homogeneous vector [(x, y, 1)] of an image point. *)
Definition homogeneous2 (p : Vector2 T) : Vector3 T :=
  mkVector3 (v2_0 p) (v2_1 p) 1.

Definition zero4 : Vector4 T := mkVector4 0 0 0 0.

(** One element of [P (X; 1)], for the row [r] of [P]. *)
Definition projective_row (r : Vector4 T) (X : Vector3 T) : T :=
  v4_0 r * v3_0 X + v4_1 r * v3_1 X + v4_2 r * v3_2 X + v4_3 r.

(** [r . v], and the solutions [v] of [A v = 0] for the rows [A]. *)
Definition inner4 (r v : Vector4 T) : T :=
  v4_0 r * v4_0 v + v4_1 r * v4_1 v + v4_2 r * v4_2 v + v4_3 r * v4_3 v.

Definition null_vector (A : list (Vector4 T)) (v : Vector4 T) : Prop :=
  Forall (fun r => inner4 r v = 0) A.

(** The solutions of [A v = 0] lie on one line through the origin. *)
Definition null_space_is_a_line (A : list (Vector4 T)) : Prop :=
  forall u w, null_vector A u -> null_vector A w -> w <> zero4 ->
    exists s, u = ublas.scale4 s w.

(** [s * F] and [s * P]. *)
Definition scale3 (s : T) (v : Vector3 T) : Vector3 T :=
  mkVector3 (s * v3_0 v) (s * v3_1 v) (s * v3_2 v).

Definition scale33 (s : T) (F : Matrix33 T) : Matrix33 T :=
  mkMatrix33 (scale3 s (m33_0 F)) (scale3 s (m33_1 F)) (scale3 s (m33_2 F)).

Definition scale34 (s : T) (P : Matrix34 T) : Matrix34 T :=
  mkMatrix34 (ublas.scale4 s (m34_0 P)) (ublas.scale4 s (m34_1 P))
             (ublas.scale4 s (m34_2 P)).

(** A 3x4 matrix without its third column. *)
Definition drop_column2 (P : Matrix34 T) : Matrix33 T :=
  mkMatrix33
    (mkVector3 (v4_0 (m34_0 P)) (v4_1 (m34_0 P)) (v4_3 (m34_0 P)))
    (mkVector3 (v4_0 (m34_1 P)) (v4_1 (m34_1 P)) (v4_3 (m34_1 P)))
    (mkVector3 (v4_0 (m34_2 P)) (v4_1 (m34_2 P)) (v4_3 (m34_2 P))).

(** The value [term] of the two epipolar evaluators, and their
    denominator, for the line [l]. *)
Definition line_term (l : Vector3 T) (p : Vector2 T) : T :=
  v3_0 l * v2_0 p + v3_1 l * v2_1 p + v3_2 l.

Definition line_norm2 (l : Vector3 T) : T :=
  v3_0 l * v3_0 l + v3_1 l * v3_1 l.

(** The point of the result of [get3DPositionWithResidual]. *)
Definition returned_point (r : Result (Vector3 T * option T))
    : Result (Vector3 T) :=
  match r with
  | inl e => inl e
  | inr (X, _) => inr X
  end.
End GeometrySpec.

(** The sign bit of an IEEE number is clear, or the number is NaN. *)
Definition not_negative_sf (a : spec_float) : Prop :=
  match a with
  | S754_zero s | S754_infinity s | S754_finite s _ _ => s = false
  | S754_nan => True
  end.

(** The sign of [a] is [s], or [a] is NaN. *)
Definition has_sign_sf (s : bool) (a : spec_float) : Prop :=
  match a with
  | S754_zero s' | S754_infinity s' | S754_finite s' _ _ => s' = s
  | S754_nan => True
  end.

(** ** Concrete inputs *)

Module Samples.
Local Open Scope Qc_scope.

(** The rational [z / 1]. *)
Definition qz (z : Z) : Qc := Q2Qc (inject_Z z).

(** The matrix with rows [(1, 0, 0)], [(0, 1, 0)], [(0, 0, 0)], which maps
    [(x, y, 1)] to the line [(x, y, 0)] through the origin. *)
Definition F_q : Matrix33 Qc :=
  mkMatrix33 (mkVector3 1 0 0) (mkVector3 0 1 0) (mkVector3 0 0 0).
Definition from_q : Vector2 Qc := mkVector2 1 0.
Definition to_q : Vector2 Qc := mkVector2 (qz 2) 0.

(** A camera with rows [(2, 0, 1, 3)], [(0, 2, 1, 1)], [(0, 0, 1, 5)]. *)
Definition P_q : Matrix34 Qc :=
  mkMatrix34 (mkVector4 (qz 2) 0 1 (qz 3)) (mkVector4 0 (qz 2) 1 1)
             (mkVector4 0 0 1 (qz 5)).

Local Open Scope float_scope.

Definition F_d : Matrix33 float :=
  mkMatrix33 (mkVector3 1 0 0) (mkVector3 0 1 0) (mkVector3 0 0 0).
Definition from_d : Vector2 float := mkVector2 1 0.
Definition to_d : Vector2 float := mkVector2 2 0.

(** The same data as [float]s; [2.0f] is [2^23 * 2^-22]. *)
Definition two_s : spec_float := S754_finite false 8388608 (-22).
Definition F_s : Matrix33 spec_float :=
  mkMatrix33 (mkVector3 single_one (S754_zero false) (S754_zero false))
             (mkVector3 (S754_zero false) single_one (S754_zero false))
             (mkVector3 (S754_zero false) (S754_zero false) (S754_zero false)).
Definition from_s : Vector2 spec_float :=
  mkVector2 single_one (S754_zero false).
Definition to_s : Vector2 spec_float := mkVector2 two_s (S754_zero false).
End Samples.

(** A point behind two cameras, in exact arithmetic. *)
Module Behind.
Import Samples.
Local Open Scope Qc_scope.

(** Two cameras looking along the z axis, the second one moved by 3 along
    x: [Pa = [I | 0]] and [Pb = [I | (-3, 0, 0)]]. *)
Definition Pa : Matrix34 Qc :=
  mkMatrix34 (mkVector4 1 0 0 0) (mkVector4 0 1 0 0) (mkVector4 0 0 1 0).
Definition Pb : Matrix34 Qc :=
  mkMatrix34 (mkVector4 1 0 0 (- qz 3)) (mkVector4 0 1 0 0)
             (mkVector4 0 0 1 0).

(** The point [(0, 0, -3/4)], behind both cameras, and its two images. *)
Definition X : Vector3 Qc := mkVector3 0 0 (- (qz 3 / qz 4)).
Definition xa : Vector2 Qc := mkVector2 0 0.
Definition xb : Vector2 Qc := mkVector2 (qz 4) 0.

(** What the code uses of an SVD of [A]: [info = 0], and the last row of
    [Vt] is a unit vector of the null space of [A]. *)
Definition dot4 (r v : Vector4 Qc) : Qc :=
  v4_0 r * v4_0 v + v4_1 r * v4_1 v + v4_2 r * v4_2 v + v4_3 r * v4_3 v.

Definition unit_null_vector (A : list (Vector4 Qc)) (v : Vector4 Qc) : Prop :=
  Forall (fun r => dot4 r v = 0) A /\ dot4 v v = 1.

Definition svd_solves (gesvd : list (Vector4 Qc) -> Z * Matrix44 Qc)
    (A : list (Vector4 Qc)) : Prop :=
  fst (gesvd A) = 0%Z /\ unit_null_vector A (m44_3 (snd (gesvd A))).

(** The unit vector [(0, 0, 3/5, -4/5)] and an orthogonal [Vt] ending in it. *)
Definition v_unit : Vector4 Qc :=
  mkVector4 0 0 (qz 3 / qz 5) (- (qz 4 / qz 5)).

Definition gesvd_sample (A : list (Vector4 Qc)) : Z * Matrix44 Qc :=
  (0%Z,
   mkMatrix44 (mkVector4 1 0 0 0) (mkVector4 0 1 0 0)
              (mkVector4 0 0 (qz 4 / qz 5) (qz 3 / qz 5)) v_unit).



Definition levenbergMarquardt_sample (Ps : list (Matrix34 Qc))
    (initial : Vector3 Qc) (measurement : list Qc) : Qc * Vector3 Qc :=
  (0, initial).
End Behind.

(** The same two cameras and images on [double]. *)
Module BehindDouble.
Local Open Scope float_scope.

Definition Pa : Matrix34 float :=
  mkMatrix34 (mkVector4 1 0 0 0) (mkVector4 0 1 0 0) (mkVector4 0 0 1 0).
Definition Pb : Matrix34 float :=
  mkMatrix34 (mkVector4 1 0 0 (-3)) (mkVector4 0 1 0 0) (mkVector4 0 0 1 0).
Definition xa : Vector2 float := mkVector2 0 0.
Definition xb : Vector2 float := mkVector2 4 0.

(** An SVD result whose last row is [(0, 0, 0.6, -0.8)] rounded to
    [double], and the one with the opposite sign. *)
Definition c06 : float := 0x1.3333333333333p-1.
Definition c08 : float := 0x1.999999999999ap-1.
Definition gesvd_plus (A : list (Vector4 float)) : Z * Matrix44 float :=
  (0%Z,
   mkMatrix44 (mkVector4 1 0 0 0) (mkVector4 0 1 0 0)
              (mkVector4 0 0 c08 c06) (mkVector4 0 0 c06 (- c08))).
Definition gesvd_minus (A : list (Vector4 float)) : Z * Matrix44 float :=
  (0%Z,
   mkMatrix44 (mkVector4 1 0 0 0) (mkVector4 0 1 0 0)
              (mkVector4 0 0 c08 c06) (mkVector4 0 0 (- c06) c08)).
Definition levenbergMarquardt_sample (Ps : list (Matrix34 float))
    (initial : Vector3 float) (measurement : list float)
    : float * Vector3 float :=
  (0, initial).
End BehindDouble.

Module PipelineSample.
(** Two detections in the first image, one in the second; the solver
    matches row 1 with column 0 and leaves row 0 without a match (its
    entry, 1, is no column of the matrix). *)
Definition p1 : list (Vector2 Qc) := [mkVector2 1%Qc 1%Qc; Behind.xa].
Definition p2 : list (Vector2 Qc) := [Behind.xb].
Definition munkres_sample (matrix : list (list Qc)) : list nat := [1; 0].
End PipelineSample.

(** Further inputs. *)
Module MoreSamples.
Import Samples.
Local Open Scope Qc_scope.

(** An upper triangular 3x3 matrix with last row [(0, 0, 1)]. *)
Definition K_q : Matrix33 Qc :=
  mkMatrix33 (mkVector3 (qz 2) 0 1) (mkVector3 0 (qz 2) 1) (mkVector3 0 0 1).

(** A point of the line [x = 0], the epipolar line of [from_q] under [F_q]. *)
Definition on_line_q : Vector2 Qc := mkVector2 0 (qz 5).

(** An SVD that reports a failure. *)
Definition gesvd_failed (A : list (Vector4 Qc)) : Z * Matrix44 Qc :=
  (1%Z, snd (Behind.gesvd_sample A)).

(** A tip calibration that succeeds, with poses numbered by [nat]. *)
Definition pm_q : Vector3 Qc := mkVector3 1 0 0.
Definition tip_calibration_sample (pw : Vector3 Qc) (poses : list nat)
    (pm : Vector3 Qc) : bool * Vector3 Qc * Vector3 Qc :=
  (true, Behind.X, pm_q).

Local Open Scope float_scope.

(** The camera [P_q] and an image point on [double]. *)
Definition P_d : Matrix34 float :=
  mkMatrix34 (mkVector4 2 0 1 3) (mkVector4 0 2 1 1) (mkVector4 0 0 1 5).
Definition v_d : Vector2 float := mkVector2 1 2.

(** The same camera with an infinite element in the third column. *)
Definition P_inf : Matrix34 float :=
  mkMatrix34 (mkVector4 2 0 infinity 3) (mkVector4 0 2 1 1)
             (mkVector4 0 0 1 5).

(** A finite camera and a point on which the first sums are negative
    zeros. *)
Definition P_zero : Matrix34 float :=
  mkMatrix34 (mkVector4 1 1 1 (-0)) (mkVector4 0 2 1 1) (mkVector4 0 0 1 5).
Definition v_zero : Vector2 float := mkVector2 (-0) (-0).

(** A camera and an image point on [float]. *)
Definition P_s : Matrix34 spec_float :=
  let o := S754_zero false in
  mkMatrix34 (mkVector4 single_one o single_one o)
             (mkVector4 o single_one single_one o)
             (mkVector4 o o single_one single_one).
Definition v_s : Vector2 spec_float := mkVector2 single_one two_s.
End MoreSamples.

(** A closed equation between rationals, by computation. *)
Ltac qc_closed := apply Qc_is_canon; vm_compute; reflexivity.

(** Two closed rationals are different, by computation. *)
Ltac qc_apart :=
  let H := fresh "H" in
  intros H; apply (f_equal (fun q : Qc => Qnum (this q))) in H;
  vm_compute in H; discriminate H.

(** * Properties *)

(** ** The epipolar distance and the RANSAC evaluator *)

(** The two evaluators differ in how the line [F (x, y, 1)] is computed:
    [prod] starts its sums from [0] and multiplies the last column by the
    homogeneous [1].  They agree in every arithmetic in which these two
    steps change a number at most into a number [R]-related to it, for a
    relation [R] that sums and products preserve and squares do not see:
    equality in exact arithmetic, "equal or both zero" on IEEE numbers. *)
Section ZeroTolerant.
Context {T : Type} {ST : Scalar T}.
Local Open Scope scalar_scope.
Variable R : T -> T -> Prop.
Hypothesis R_refl : forall x, R x x.
Hypothesis R_add_zero_l : forall p, R p (0 + p).
Hypothesis R_add : forall u w u' w', R u w -> R u' w' -> R (u + u') (w + w').
Hypothesis R_mul : forall u w x, R u w -> R (u * x) (w * x).
Hypothesis R_square : forall u w, R u w -> u * u = w * w.

Lemma from_row_related (r : Vector3 T) (p : Vector2 T) :
  v3_2 r * 1 = v3_2 r ->
  R (Algorithm.from_row r p)
    (ublas.row_prod3 r (mkVector3 (v2_0 p) (v2_1 p) 1)).
Proof.
  intros H1. unfold Algorithm.from_row, ublas.row_prod3.
  cbn [v3_0 v3_1 v3_2]. rewrite H1.
  apply R_add; [| apply R_refl].
  apply R_add; [| apply R_refl].
  apply R_add_zero_l.
Qed.

Lemma pointToPointDist_Evaluate_tolerant (F : Matrix33 T)
    (from to : Vector2 T) :
  v3_2 (m33_0 F) * 1 = v3_2 (m33_0 F) ->
  v3_2 (m33_1 F) * 1 = v3_2 (m33_1 F) ->
  v3_2 (m33_2 F) * 1 = v3_2 (m33_2 F) ->
  Calibration.pointToPointDist from to F
  = Algorithm.EvaluateFundamentalMatrix F from to.
Proof.
  intros U0 U1 U2. symmetry.
  pose proof (from_row_related (m33_0 F) from U0) as H0.
  pose proof (from_row_related (m33_1 F) from U1) as H1.
  pose proof (from_row_related (m33_2 F) from U2) as H2.
  unfold Calibration.pointToPointDist, Calibration.pointToPointDistImp,
    Algorithm.EvaluateFundamentalMatrix, ublas.prod33.
  cbn [v3_0 v3_1 v3_2].
  set (a0 := Algorithm.from_row (m33_0 F) from) in *.
  set (a1 := Algorithm.from_row (m33_1 F) from) in *.
  set (a2 := Algorithm.from_row (m33_2 F) from) in *.
  set (b0 := ublas.row_prod3 (m33_0 F) _) in *.
  set (b1 := ublas.row_prod3 (m33_1 F) _) in *.
  set (b2 := ublas.row_prod3 (m33_2 F) _) in *.
  f_equal.
  - apply R_square. apply R_add; [| exact H2].
    apply R_add; apply R_mul; assumption.
  - f_equal; apply R_square; assumption.
Qed.
End ZeroTolerant.

Lemma Evaluate_is_line_distance {T : Type} {ST : Scalar T} (F : Matrix33 T)
    (from to : Vector2 T) :
  Algorithm.EvaluateFundamentalMatrix F from to
  = squared_line_distance (epipolar_line F from) to.
Proof. reflexivity. Qed.

(** ** IEEE numbers: what the signed zeros do *)

Create HintDb ieee.

Section SignedZeros.
Import IEEE.
Variables prec emax : Z.

Lemma is_zero_sf_zero (s : bool) : is_zero_sf (S754_zero s).
Proof. exists s. reflexivity. Qed.

Lemma same_or_zeros_refl (a : spec_float) : same_or_zeros a a.
Proof. left. reflexivity. Qed.

Lemma same_or_zeros_zeros (s t : bool) :
  same_or_zeros (S754_zero s) (S754_zero t).
Proof. right. split; apply is_zero_sf_zero. Qed.

#[local] Hint Resolve same_or_zeros_refl same_or_zeros_zeros
  is_zero_sf_zero : ieee.

Lemma SFadd_zero_l (p : spec_float) :
  same_or_zeros p (SFadd prec emax (S754_zero false) p).
Proof. destruct p as [[|] | [|] | | s m e]; simpl; auto with ieee. Qed.

Lemma SFadd_zero_r (a z : spec_float) :
  is_zero_sf z -> same_or_zeros a (SFadd prec emax a z).
Proof.
  intros [t ->].
  destruct a as [[|] | [|] | | s m e]; destruct t; simpl; auto with ieee.
Qed.

Lemma SFadd_same_or_zeros (a b a' b' : spec_float) :
  same_or_zeros a b -> same_or_zeros a' b' ->
  same_or_zeros (SFadd prec emax a a') (SFadd prec emax b b').
Proof.
  intros [-> | [[s ->] [t ->]]] [-> | [[s' ->] [t' ->]]].
  - auto with ieee.
  - destruct b as [[|] | [|] | | sb mb eb]; destruct s', t'; simpl;
      auto with ieee.
  - destruct b' as [[|] | [|] | | sb mb eb]; destruct s, t; simpl;
      auto with ieee.
  - destruct s, t, s', t'; simpl; auto with ieee.
Qed.

Lemma SFmul_same_or_zeros (a b x : spec_float) :
  same_or_zeros a b ->
  same_or_zeros (SFmul prec emax a x) (SFmul prec emax b x).
Proof.
  intros [-> | [[s ->] [t ->]]]; [auto with ieee |].
  destruct x as [sx | sx | | sx mx ex]; simpl; auto with ieee.
Qed.

Lemma SFmul_self (a b : spec_float) :
  same_or_zeros a b -> SFmul prec emax a a = SFmul prec emax b b.
Proof.
  intros [-> | [[s ->] [t ->]]]; [reflexivity |].
  destruct s, t; reflexivity.
Qed.

Lemma SFmul_finite_zero (a : spec_float) :
  finite_sf a -> is_zero_sf (SFmul prec emax a (S754_zero false)).
Proof.
  destruct a as [s | s | | s m e]; simpl; intros H;
    solve [contradiction | auto with ieee].
Qed.

Lemma SFdiv_same_or_zeros (a b d : spec_float) :
  same_or_zeros a b ->
  same_or_zeros (SFdiv prec emax a d) (SFdiv prec emax b d).
Proof.
  intros [-> | [[s ->] [t ->]]]; [auto with ieee |].
  destruct d as [sd | sd | | sd md ed]; simpl; auto with ieee.
Qed.

(** Division does not see a common change of sign. *)
Lemma SFdiv_opp_opp (a b : spec_float) :
  SFdiv prec emax (SFopp a) (SFopp b) = SFdiv prec emax a b.
Proof.
  destruct a as [sa | sa | | sa ma ea]; destruct b as [sb | sb | | sb mb eb];
    try reflexivity; destruct sa, sb; reflexivity.
Qed.
End SignedZeros.

(** ** IEEE numbers: multiplying by one *)

(** In a format whose [1] has mantissa [pow = 2^k] and exponent [-k],
    rounding [m 2^k] at exponent [e - k] gives back [m] at [e]. *)
Section TimesOne.
Local Open Scope Z_scope.
Variables prec emax : Z.
Variables k pow : positive.
Hypothesis shift_out : forall m : positive,
  iter_pos shr_1 k
    {| shr_m := Zpos (pow * m); shr_r := false; shr_s := false |}
  = {| shr_m := Zpos m; shr_r := false; shr_s := false |}.
Hypothesis digits_shift : forall m : positive,
  Zpos (digits2_pos (pow * m)) = Zpos (digits2_pos m) + Zpos k.

Lemma binary_round_aux_one (s : bool) (m : positive) (e : Z) :
  bounded prec emax m e = true ->
  binary_round_aux prec emax s (Zpos (m * pow)) (e + Zneg k) loc_Exact
  = S754_finite s m e.
Proof.
  intros Hb. unfold bounded, canonical_mantissa in Hb.
  apply andb_true_iff in Hb. destruct Hb as [Hc He].
  apply Z.eqb_eq in Hc.
  rewrite Pos.mul_comm.
  unfold binary_round_aux, shr_fexp.
  unfold Zdigits2 at 1. rewrite digits_shift.
  replace (Z.pos (digits2_pos m) + Z.pos k + (e + Z.neg k))
    with (Z.pos (digits2_pos m) + e) by lia.
  rewrite Hc.
  replace (e - (e + Z.neg k)) with (Z.pos k) by lia.
  unfold shr at 1.
  change (shr_record_of_loc (Z.pos (pow * m)) loc_Exact)
    with {| shr_m := Z.pos (pow * m); shr_r := false; shr_s := false |}.
  rewrite shift_out.
  cbn [shr_m loc_of_shr_record round_nearest_even].
  replace (e + Z.neg k + Z.pos k) with e by lia.
  cbn [Zdigits2]. rewrite Hc. rewrite Z.sub_diag.
  cbn [shr shr_record_of_loc shr_m].
  rewrite He. reflexivity.
Qed.

Lemma SFmul_one (a : spec_float) :
  SpecFloat.valid_binary prec emax a = true ->
  SFmul prec emax a (S754_finite false pow (Zneg k)) = a.
Proof.
  intros Hv. destruct a as [s | s | | s m e];
    try reflexivity; try (destruct s; reflexivity).
  change (SFmul prec emax (S754_finite s m e)
            (S754_finite false pow (Zneg k)))
    with (binary_round_aux prec emax (xorb s false) (Zpos (m * pow))
            (e + Zneg k) loc_Exact).
  rewrite xorb_false_r.
  apply binary_round_aux_one. exact Hv.
Qed.
End TimesOne.

Lemma SFmul_one_double (a : spec_float) :
  valid_binary a = true -> SF64mul a IEEE.one_sf = a.
Proof.
  apply (SFmul_one prec emax 52 4503599627370496).
  - intros m. reflexivity.
  - intros m. cbn [Pos.mul digits2_pos]. lia.
Qed.

Lemma SFmul_one_single (a : spec_float) :
  IEEE.valid_single a -> smul a sone = a.
Proof.
  apply (SFmul_one single_prec single_emax 23 8388608).
  - intros m. reflexivity.
  - intros m. cbn [Pos.mul digits2_pos]. lia.
Qed.

(** ** The same facts on [double] *)

Section DoubleFacts.
Import IEEE.

Lemma Prim2SF_one : Prim2SF 1%float = one_sf.
Proof. vm_compute. reflexivity. Qed.

Lemma Prim2SF_zero : Prim2SF 0%float = S754_zero false.
Proof. vm_compute. reflexivity. Qed.

Lemma double_mul_one (x : float) : (x * 1)%float = x.
Proof.
  apply Prim2SF_inj. rewrite mul_spec, Prim2SF_one.
  apply SFmul_one_double, Prim2SF_valid.
Qed.

(** Division does not see a common change of sign. *)
Lemma double_div_opp_opp (a b : float) : (- a / - b)%float = (a / b)%float.
Proof.
  apply Prim2SF_inj. rewrite !div_spec, !opp_spec. apply SFdiv_opp_opp.
Qed.

Lemma same_or_zeros_f_refl (x : float) : same_or_zeros_f x x.
Proof. left. reflexivity. Qed.

Lemma same_or_zeros_f_eq (x y : float) :
  same_or_zeros_f x y -> ~ is_zero_f x -> x = y.
Proof.
  intros [H | [Hx _]] Hnz.
  - apply Prim2SF_inj, H.
  - contradiction.
Qed.

Lemma double_add_zero_l (p : float) : same_or_zeros_f p (0 + p)%float.
Proof.
  unfold same_or_zeros_f. rewrite add_spec, Prim2SF_zero.
  apply SFadd_zero_l.
Qed.

Lemma double_add_finite_zero (a x : float) :
  finite_f x -> same_or_zeros_f a (a + x * 0)%float.
Proof.
  intros Hx. unfold same_or_zeros_f.
  rewrite add_spec, mul_spec, Prim2SF_zero.
  apply SFadd_zero_r, SFmul_finite_zero, Hx.
Qed.

Lemma double_add_same_or_zeros (u w u' w' : float) :
  same_or_zeros_f u w -> same_or_zeros_f u' w' ->
  same_or_zeros_f (u + u')%float (w + w')%float.
Proof.
  unfold same_or_zeros_f. rewrite !add_spec. apply SFadd_same_or_zeros.
Qed.

Lemma double_mul_same_or_zeros (u w x : float) :
  same_or_zeros_f u w -> same_or_zeros_f (u * x)%float (w * x)%float.
Proof.
  unfold same_or_zeros_f. rewrite !mul_spec. apply SFmul_same_or_zeros.
Qed.

Lemma double_mul_self (u w : float) :
  same_or_zeros_f u w -> (u * u)%float = (w * w)%float.
Proof.
  intros H. apply Prim2SF_inj. rewrite !mul_spec. apply SFmul_self, H.
Qed.

Lemma double_div_same_or_zeros (u w d : float) :
  same_or_zeros_f u w -> same_or_zeros_f (u / d)%float (w / d)%float.
Proof.
  unfold same_or_zeros_f. rewrite !div_spec. apply SFdiv_same_or_zeros.
Qed.

(** Two [double]s on which [<] answers differently are different. *)
Lemma float_neq_of_ltb (x y z : float) :
  PrimFloat.ltb x z = true -> PrimFloat.ltb y z = false -> x <> y.
Proof. intros Hx Hy E. rewrite E in Hx. congruence. Qed.
End DoubleFacts.

(** ** The two evaluators agree *)

(** On [double], for all inputs: the signs of zeros the two may disagree on
    inside cancel in the squares. *)
Lemma pointToPointDist_Evaluate_double (F : Matrix33 float)
    (from to : Vector2 float) :
  Calibration.pointToPointDist from to F
  = Algorithm.EvaluateFundamentalMatrix F from to.
Proof.
  apply (pointToPointDist_Evaluate_tolerant IEEE.same_or_zeros_f).
  - exact same_or_zeros_f_refl.
  - exact double_add_zero_l.
  - exact double_add_same_or_zeros.
  - exact double_mul_same_or_zeros.
  - exact double_mul_self.
  - apply double_mul_one.
  - apply double_mul_one.
  - apply double_mul_one.
Qed.

(** On [float], for every matrix of binary32 numbers. *)
Lemma pointToPointDist_Evaluate_single (F : Matrix33 spec_float)
    (from to : Vector2 spec_float) :
  IEEE.valid_single33 F ->
  Calibration.pointToPointDist from to F
  = Algorithm.EvaluateFundamentalMatrix F from to.
Proof.
  intros ((_ & _ & V0) & (_ & _ & V1) & (_ & _ & V2)).
  apply (pointToPointDist_Evaluate_tolerant IEEE.same_or_zeros).
  - exact same_or_zeros_refl.
  - exact (SFadd_zero_l single_prec single_emax).
  - exact (SFadd_same_or_zeros single_prec single_emax).
  - exact (SFmul_same_or_zeros single_prec single_emax).
  - exact (SFmul_self single_prec single_emax).
  - apply SFmul_one_single, V0.
  - apply SFmul_one_single, V1.
  - apply SFmul_one_single, V2.
Qed.

(** ** Exact arithmetic *)

(** The laws of exact arithmetic the statements below rest on.  They hold in
    every ring; on IEEE numbers [0 + x = x] and [x + 0 = x] fail at the
    negative zero, and [x * 0 = 0] at negative, infinite and NaN [x]. *)
Section ExactArithmetic.
Context {T : Type} {ST : Scalar T}.
Local Open Scope scalar_scope.

Hypothesis sadd_0_l : forall x : T, 0 + x = x.
Hypothesis sadd_0_r : forall x : T, x + 0 = x.
Hypothesis smul_1_r : forall x : T, x * 1 = x.
Hypothesis smul_0_r : forall x : T, x * 0 = 0.

Lemma pointToPointDist_Evaluate_exact
    (F : Matrix33 T) (from to : Vector2 T) :
  Calibration.pointToPointDist from to F
  = Algorithm.EvaluateFundamentalMatrix F from to.
Proof.
  apply (pointToPointDist_Evaluate_tolerant (@eq T)); auto; try congruence.
Qed.

(** In exact arithmetic the 2D overload of [ProjectPoint] on a 3x4 matrix
    returns what the 3D overload returns on [(v0, v1, 0)], for every [P]
    and [v]. *)
Lemma ProjectPoint2_as_ProjectPoint3_exact (P : Matrix34 T)
    (v : Vector2 T) :
  Geometry.ProjectPoint2 P v
  = Geometry.ProjectPoint3 P (mkVector3 (v2_0 v) (v2_1 v) 0).
Proof.
  unfold Geometry.ProjectPoint2, Geometry.ProjectPoint3. simpl.
  rewrite !smul_0_r, !sadd_0_r. reflexivity.
Qed.
End ExactArithmetic.

(** C3: [pointToPointDist( from, to, F )] is
    [(a x' + b y' + c)^2 / (a^2 + b^2)] for the epipolar line
    [(a, b, c) = F (x, y, 1)] of [from = (x, y)] and [to = (x', y')]: in
    every scalar type whose arithmetic is exact, on [double] and on [float],
    where the formula is evaluated from left to right. *)
Theorem pointToPointDist_formula :
  (forall (T : Type) (ST : Scalar T),
     (forall x : T, sadd szero x = x) ->
     (forall x : T, smul x sone = x) ->
     forall (from to : Vector2 T) (F : Matrix33 T),
       Calibration.pointToPointDist from to F
       = squared_line_distance (epipolar_line F from) to)
  /\ (forall (from to : Vector2 float) (F : Matrix33 float),
        Calibration.pointToPointDist from to F
        = squared_line_distance (epipolar_line F from) to)
  /\ (forall (from to : Vector2 spec_float) (F : Matrix33 spec_float),
        IEEE.valid_single33 F ->
        Calibration.pointToPointDist from to F
        = squared_line_distance (epipolar_line F from) to).
Proof.
  split; [| split].
  - intros T ST H0 H1 from to F.
    rewrite (pointToPointDist_Evaluate_exact H0 H1 F from to).
    apply Evaluate_is_line_distance.
  - intros from to F. rewrite pointToPointDist_Evaluate_double.
    apply Evaluate_is_line_distance.
  - intros from to F HF. rewrite (pointToPointDist_Evaluate_single F from to HF).
    apply Evaluate_is_line_distance.
Qed.

(** C4: the consistency metric of the reconstruction pipeline and the
    RANSAC evaluator of the fundamental matrix are the same function: for
    every matrix [F] and all points [from], [to] they return equal values,
    in every scalar type whose arithmetic is exact, on [double] and on
    [float]. *)
Theorem pointToPointDist_eq_EvaluateFundamentalMatrix :
  (forall (T : Type) (ST : Scalar T),
     (forall x : T, sadd szero x = x) ->
     (forall x : T, smul x sone = x) ->
     forall (F : Matrix33 T) (from to : Vector2 T),
       Calibration.pointToPointDist from to F
       = Algorithm.EvaluateFundamentalMatrix F from to)
  /\ (forall (F : Matrix33 float) (from to : Vector2 float),
        Calibration.pointToPointDist from to F
        = Algorithm.EvaluateFundamentalMatrix F from to)
  /\ (forall (F : Matrix33 spec_float) (from to : Vector2 spec_float),
        IEEE.valid_single33 F ->
        Calibration.pointToPointDist from to F
        = Algorithm.EvaluateFundamentalMatrix F from to).
Proof.
  split; [| split].
  - intros T ST H0 H1 F from to.
    exact (pointToPointDist_Evaluate_exact H0 H1 F from to).
  - exact pointToPointDist_Evaluate_double.
  - exact pointToPointDist_Evaluate_single.
Qed.

(** The exact laws at [Qc]. *)
Lemma Qc_sadd_0_l : forall x : Qc, sadd szero x = x.
Proof. exact Qcplus_0_l. Qed.

Lemma Qc_sadd_0_r : forall x : Qc, sadd x szero = x.
Proof. exact Qcplus_0_r. Qed.

Lemma Qc_smul_1_r : forall x : Qc, smul x sone = x.
Proof. exact Qcmult_1_r. Qed.

Lemma Qc_smul_0_r : forall x : Qc, smul x szero = szero.
Proof. exact Qcmult_0_r. Qed.

Lemma F_s_valid : IEEE.valid_single33 Samples.F_s.
Proof. repeat split. Qed.

Lemma pointToPointDist_formula_witness :
  (forall x : Qc, sadd szero x = x)
  /\ (forall x : Qc, smul x sone = x)
  /\ Calibration.pointToPointDist Samples.from_q Samples.to_q Samples.F_q
     = squared_line_distance (epipolar_line Samples.F_q Samples.from_q)
         Samples.to_q
  /\ IEEE.valid_single33 Samples.F_s
  /\ Calibration.pointToPointDist Samples.from_s Samples.to_s Samples.F_s
     = squared_line_distance (epipolar_line Samples.F_s Samples.from_s)
         Samples.to_s.
Proof.
  split; [exact Qc_sadd_0_l |]. split; [exact Qc_smul_1_r |].
  split.
  - exact (proj1 pointToPointDist_formula Qc Scalar_Qc Qc_sadd_0_l
             Qc_smul_1_r Samples.from_q Samples.to_q Samples.F_q).
  - split; [exact F_s_valid |].
    exact (proj2 (proj2 pointToPointDist_formula) Samples.from_s
             Samples.to_s Samples.F_s F_s_valid).
Defined.

Lemma pointToPointDist_eq_EvaluateFundamentalMatrix_witness :
  (forall x : Qc, sadd szero x = x)
  /\ (forall x : Qc, smul x sone = x)
  /\ Calibration.pointToPointDist Samples.from_q Samples.to_q Samples.F_q
     = Algorithm.EvaluateFundamentalMatrix Samples.F_q Samples.from_q
         Samples.to_q
  /\ IEEE.valid_single33 Samples.F_s
  /\ Calibration.pointToPointDist Samples.from_s Samples.to_s Samples.F_s
     = Algorithm.EvaluateFundamentalMatrix Samples.F_s Samples.from_s
         Samples.to_s.
Proof.
  split; [exact Qc_sadd_0_l |]. split; [exact Qc_smul_1_r |].
  split.
  - exact (proj1 pointToPointDist_eq_EvaluateFundamentalMatrix Qc Scalar_Qc
             Qc_sadd_0_l Qc_smul_1_r Samples.F_q Samples.from_q Samples.to_q).
  - split; [exact F_s_valid |].
    exact (proj2 (proj2 pointToPointDist_eq_EvaluateFundamentalMatrix)
             Samples.F_s Samples.from_s Samples.to_s F_s_valid).
Defined.

(** The sample on [float]: the line is [(1, 0, 0)], the distance [4]. *)
Example evaluators_on_single :
  Calibration.pointToPointDist Samples.from_s Samples.to_s Samples.F_s
  = S754_finite false 8388608 (-21).
Proof. vm_compute. reflexivity. Qed.

(** The two evaluators on [double] at the sample input: both return [4]. *)
Example evaluators_on_double :
  Calibration.pointToPointDist Samples.from_d Samples.to_d Samples.F_d
  = 4%float
  /\ Algorithm.EvaluateFundamentalMatrix Samples.F_d Samples.from_d
       Samples.to_d = 4%float.
Proof. split; vm_compute; reflexivity. Qed.

(** C7: the epipolar evaluator is one-directional: exchanging [from] and [to]
    changes the value.  With [F] mapping [(x, y, 1)] to the line [(x, y, 0)],
    [from = (1, 0)] and [to = (2, 0)] the [double] overload returns [4] one
    way and [1] the other. *)
Theorem pointToPointDist_not_symmetric :
  exists (from to : Vector2 float) (F : Matrix33 float),
    Calibration.pointToPointDist from to F
    <> Calibration.pointToPointDist to from F.
Proof.
  exists Samples.from_d, Samples.to_d, Samples.F_d.
  apply not_eq_sym, (float_neq_of_ltb _ _ 2%float); vm_compute; reflexivity.
Qed.

(** The same asymmetry in exact arithmetic. *)
Lemma pointToPointDist_not_symmetric_exact :
  Calibration.pointToPointDist Samples.from_q Samples.to_q Samples.F_q
  <> Calibration.pointToPointDist Samples.to_q Samples.from_q Samples.F_q.
Proof.
  intros E. apply (f_equal (fun q : Qc => Qnum (this q))) in E.
  vm_compute in E. discriminate E.
Qed.

(** On [double], for a matrix whose third column is finite, the two
    overloads of [ProjectPoint] agree up to the sign of a zero wherever the
    denominator of the 2D overload is not zero. *)
Lemma ProjectPoint2_as_ProjectPoint3_double (P : Matrix34 float)
    (v : Vector2 float) :
  IEEE.finite_f (v4_2 (m34_0 P)) -> IEEE.finite_f (v4_2 (m34_1 P)) ->
  IEEE.finite_f (v4_2 (m34_2 P)) ->
  ~ IEEE.is_zero_f (ProjectPoint2_denominator P v) ->
  let r2 := Geometry.ProjectPoint2 P v in
  let r3 := Geometry.ProjectPoint3 P (mkVector3 (v2_0 v) (v2_1 v) 0%float) in
  IEEE.same_or_zeros_f (v2_0 r2) (v2_0 r3)
  /\ IEEE.same_or_zeros_f (v2_1 r2) (v2_1 r3).
Proof.
  intros F0 F1 F2 Hden r2 r3. subst r2 r3.
  unfold Geometry.ProjectPoint2, Geometry.ProjectPoint3,
    ProjectPoint2_denominator in *.
  cbn [v2_0 v2_1 v3_0 v3_1 v3_2 sadd smul sdiv szero Scalar_double] in *.
  set (n0 := (v4_0 (m34_0 P) * v2_0 v + v4_1 (m34_0 P) * v2_1 v)%float).
  set (n1 := (v4_0 (m34_1 P) * v2_0 v + v4_1 (m34_1 P) * v2_1 v)%float).
  set (n2 := (v4_0 (m34_2 P) * v2_0 v + v4_1 (m34_2 P) * v2_1 v)%float)
    in *.
  assert (E0 : IEEE.same_or_zeros_f (n0 + v4_3 (m34_0 P))%float
                 (n0 + v4_2 (m34_0 P) * 0 + v4_3 (m34_0 P))%float).
  { apply double_add_same_or_zeros; [| apply same_or_zeros_f_refl].
    apply double_add_finite_zero, F0. }
  assert (E1 : IEEE.same_or_zeros_f (n1 + v4_3 (m34_1 P))%float
                 (n1 + v4_2 (m34_1 P) * 0 + v4_3 (m34_1 P))%float).
  { apply double_add_same_or_zeros; [| apply same_or_zeros_f_refl].
    apply double_add_finite_zero, F1. }
  assert (E2 : IEEE.same_or_zeros_f (n2 + v4_3 (m34_2 P))%float
                 (n2 + v4_2 (m34_2 P) * 0 + v4_3 (m34_2 P))%float).
  { apply double_add_same_or_zeros; [| apply same_or_zeros_f_refl].
    apply double_add_finite_zero, F2. }
  rewrite <- (same_or_zeros_f_eq _ _ E2 Hden).
  split; apply double_div_same_or_zeros; assumption.
Qed.

(** The same on [float]. *)
Lemma same_or_zeros_eq (a b : spec_float) :
  IEEE.same_or_zeros a b -> ~ IEEE.is_zero_sf a -> a = b.
Proof. intros [H | [Ha _]] Hnz; [exact H | contradiction]. Qed.

Lemma ProjectPoint2_as_ProjectPoint3_single (P : Matrix34 spec_float)
    (v : Vector2 spec_float) :
  IEEE.finite_sf (v4_2 (m34_0 P)) -> IEEE.finite_sf (v4_2 (m34_1 P)) ->
  IEEE.finite_sf (v4_2 (m34_2 P)) ->
  ~ IEEE.is_zero_sf (ProjectPoint2_denominator P v) ->
  let r2 := Geometry.ProjectPoint2 P v in
  let r3 := Geometry.ProjectPoint3 P (mkVector3 (v2_0 v) (v2_1 v) szero) in
  IEEE.same_or_zeros (v2_0 r2) (v2_0 r3)
  /\ IEEE.same_or_zeros (v2_1 r2) (v2_1 r3).
Proof.
  intros F0 F1 F2 Hden r2 r3. subst r2 r3.
  unfold Geometry.ProjectPoint2, Geometry.ProjectPoint3,
    ProjectPoint2_denominator in *.
  cbn [v2_0 v2_1 v3_0 v3_1 v3_2 sadd smul sdiv szero Scalar_single] in *.
  set (add := SFadd single_prec single_emax) in *.
  set (mul := SFmul single_prec single_emax) in *.
  set (n0 := add (mul (v4_0 (m34_0 P)) (v2_0 v))
               (mul (v4_1 (m34_0 P)) (v2_1 v))).
  set (n1 := add (mul (v4_0 (m34_1 P)) (v2_0 v))
               (mul (v4_1 (m34_1 P)) (v2_1 v))).
  set (n2 := add (mul (v4_0 (m34_2 P)) (v2_0 v))
               (mul (v4_1 (m34_2 P)) (v2_1 v))) in *.
  assert (E : forall n p2 p3, IEEE.finite_sf p2 ->
            IEEE.same_or_zeros (add n p3)
              (add (add n (mul p2 (S754_zero false))) p3)).
  { intros n p2 p3 Hp. apply SFadd_same_or_zeros; [| apply same_or_zeros_refl].
    apply SFadd_zero_r, SFmul_finite_zero, Hp. }
  rewrite <- (same_or_zeros_eq _ _ (E n2 _ (v4_3 (m34_2 P)) F2) Hden).
  split; apply SFdiv_same_or_zeros; apply E; assumption.
Qed.

(** C10, as amended: on a 3x4 matrix the 2D overload of [ProjectPoint]
    skips the third column of the matrix, as if its argument were the 3D
    point [(v0, v1, 0)].  In exact arithmetic it returns what the 3D
    overload returns on that point, for every [P] and [v].  On [double] and
    on [float] the two results are, in each coordinate, the same value or
    two zeros that differ in sign, when the third column of [P] is finite
    and the denominator of the 2D overload is not zero. *)
Theorem ProjectPoint2_as_ProjectPoint3 :
  (forall (T : Type) (ST : Scalar T),
     (forall x : T, sadd x szero = x) ->
     (forall x : T, smul x szero = szero) ->
     forall (P : Matrix34 T) (v : Vector2 T),
       Geometry.ProjectPoint2 P v
       = Geometry.ProjectPoint3 P (mkVector3 (v2_0 v) (v2_1 v) szero))
  /\ (forall (P : Matrix34 float) (v : Vector2 float),
        IEEE.finite_f (v4_2 (m34_0 P)) -> IEEE.finite_f (v4_2 (m34_1 P)) ->
        IEEE.finite_f (v4_2 (m34_2 P)) ->
        ~ IEEE.is_zero_f (ProjectPoint2_denominator P v) ->
        let r2 := Geometry.ProjectPoint2 P v in
        let r3 :=
          Geometry.ProjectPoint3 P (mkVector3 (v2_0 v) (v2_1 v) szero) in
        IEEE.same_or_zeros_f (v2_0 r2) (v2_0 r3)
        /\ IEEE.same_or_zeros_f (v2_1 r2) (v2_1 r3))
  /\ (forall (P : Matrix34 spec_float) (v : Vector2 spec_float),
        IEEE.finite_sf (v4_2 (m34_0 P)) ->
        IEEE.finite_sf (v4_2 (m34_1 P)) ->
        IEEE.finite_sf (v4_2 (m34_2 P)) ->
        ~ IEEE.is_zero_sf (ProjectPoint2_denominator P v) ->
        let r2 := Geometry.ProjectPoint2 P v in
        let r3 :=
          Geometry.ProjectPoint3 P (mkVector3 (v2_0 v) (v2_1 v) szero) in
        IEEE.same_or_zeros (v2_0 r2) (v2_0 r3)
        /\ IEEE.same_or_zeros (v2_1 r2) (v2_1 r3)).
Proof.
  split; [| split].
  - intros T ST Hadd Hmul P v.
    exact (ProjectPoint2_as_ProjectPoint3_exact Hadd Hmul P v).
  - exact ProjectPoint2_as_ProjectPoint3_double.
  - exact ProjectPoint2_as_ProjectPoint3_single.
Qed.

(** C10 fails on [double].  With an infinite element in the third column
    both denominators are [5] and the first coordinate is [1] for the 2D
    overload and NaN for the 3D overload ([inf * 0] is NaN); on a finite
    matrix the first coordinate is [-0] for the 2D overload and [+0] for the
    3D overload. *)
Lemma ProjectPoint2_differs_from_ProjectPoint3 :
  (ProjectPoint2_denominator MoreSamples.P_inf MoreSamples.v_d = 5%float
   /\ projective_depth MoreSamples.P_inf
        (mkVector3 (v2_0 MoreSamples.v_d) (v2_1 MoreSamples.v_d) 0%float)
      = 5%float
   /\ Geometry.ProjectPoint2 MoreSamples.P_inf MoreSamples.v_d
      = mkVector2 1%float 1%float
   /\ Geometry.ProjectPoint3 MoreSamples.P_inf
        (mkVector3 (v2_0 MoreSamples.v_d) (v2_1 MoreSamples.v_d) 0%float)
      = mkVector2 nan 1%float
   /\ Geometry.ProjectPoint2 MoreSamples.P_inf MoreSamples.v_d
      <> Geometry.ProjectPoint3 MoreSamples.P_inf
           (mkVector3 (v2_0 MoreSamples.v_d) (v2_1 MoreSamples.v_d)
              0%float))
  /\ (ProjectPoint2_denominator MoreSamples.P_zero MoreSamples.v_zero
      = 5%float
      /\ Geometry.ProjectPoint2 MoreSamples.P_zero MoreSamples.v_zero
         = mkVector2 (-0)%float 0x1.999999999999ap-3%float
      /\ Geometry.ProjectPoint3 MoreSamples.P_zero
           (mkVector3 (v2_0 MoreSamples.v_zero) (v2_1 MoreSamples.v_zero)
              0%float)
         = mkVector2 0%float 0x1.999999999999ap-3%float
      /\ Geometry.ProjectPoint2 MoreSamples.P_zero MoreSamples.v_zero
         <> Geometry.ProjectPoint3 MoreSamples.P_zero
              (mkVector3 (v2_0 MoreSamples.v_zero)
                 (v2_1 MoreSamples.v_zero) 0%float)).
Proof.
  split.
  - repeat split; try (vm_compute; reflexivity).
    intros H. apply (f_equal (fun r => Prim2SF (v2_0 r))) in H.
    vm_compute in H. discriminate H.
  - repeat split; try (vm_compute; reflexivity).
    intros H. apply (f_equal (fun r => Prim2SF (v2_0 r))) in H.
    vm_compute in H. discriminate H.
Qed.

Lemma ProjectPoint2_as_ProjectPoint3_witness :
  ((forall x : Qc, sadd x szero = x)
   /\ (forall x : Qc, smul x szero = szero)
   /\ Geometry.ProjectPoint2 Samples.P_q Samples.to_q
      = Geometry.ProjectPoint3 Samples.P_q
          (mkVector3 (v2_0 Samples.to_q) (v2_1 Samples.to_q) szero))
  /\ (IEEE.finite_f (v4_2 (m34_0 MoreSamples.P_d))
      /\ IEEE.finite_f (v4_2 (m34_1 MoreSamples.P_d))
      /\ IEEE.finite_f (v4_2 (m34_2 MoreSamples.P_d))
      /\ ~ IEEE.is_zero_f
             (ProjectPoint2_denominator MoreSamples.P_d MoreSamples.v_d)
      /\ IEEE.same_or_zeros_f
           (v2_0 (Geometry.ProjectPoint2 MoreSamples.P_d MoreSamples.v_d))
           (v2_0 (Geometry.ProjectPoint3 MoreSamples.P_d
                    (mkVector3 (v2_0 MoreSamples.v_d)
                       (v2_1 MoreSamples.v_d) szero))))
  /\ (IEEE.finite_sf (v4_2 (m34_0 MoreSamples.P_s))
      /\ IEEE.finite_sf (v4_2 (m34_1 MoreSamples.P_s))
      /\ IEEE.finite_sf (v4_2 (m34_2 MoreSamples.P_s))
      /\ ~ IEEE.is_zero_sf
             (ProjectPoint2_denominator MoreSamples.P_s MoreSamples.v_s)
      /\ IEEE.same_or_zeros
           (v2_0 (Geometry.ProjectPoint2 MoreSamples.P_s MoreSamples.v_s))
           (v2_0 (Geometry.ProjectPoint3 MoreSamples.P_s
                    (mkVector3 (v2_0 MoreSamples.v_s)
                       (v2_1 MoreSamples.v_s) szero)))).
Proof.
  split; [| split].
  - split; [exact Qc_sadd_0_r |]. split; [exact Qc_smul_0_r |].
    exact (proj1 ProjectPoint2_as_ProjectPoint3 Qc Scalar_Qc Qc_sadd_0_r
             Qc_smul_0_r Samples.P_q Samples.to_q).
  - assert (F0 : IEEE.finite_f (v4_2 (m34_0 MoreSamples.P_d)))
      by (vm_compute; exact I).
    assert (F1 : IEEE.finite_f (v4_2 (m34_1 MoreSamples.P_d)))
      by (vm_compute; exact I).
    assert (F2 : IEEE.finite_f (v4_2 (m34_2 MoreSamples.P_d)))
      by (vm_compute; exact I).
    assert (Hd : ~ IEEE.is_zero_f
                     (ProjectPoint2_denominator MoreSamples.P_d
                        MoreSamples.v_d)).
    { intros [s H]. vm_compute in H. discriminate H. }
    repeat (split; [assumption |]).
    exact (proj1 (proj1 (proj2 ProjectPoint2_as_ProjectPoint3)
                    MoreSamples.P_d MoreSamples.v_d F0 F1 F2 Hd)).
  - assert (F : IEEE.finite_sf single_one) by exact I.
    assert (Hd : ~ IEEE.is_zero_sf
                     (ProjectPoint2_denominator MoreSamples.P_s
                        MoreSamples.v_s)).
    { intros [s H]. vm_compute in H. discriminate H. }
    repeat (split; [assumption |]).
    exact (proj1 (proj2 (proj2 ProjectPoint2_as_ProjectPoint3)
                    MoreSamples.P_s MoreSamples.v_s F F F Hd)).
Defined.

(** ** N-view triangulation: the sign scan and the input checks *)

Section TriangulationChecks.
Context {T : Type} {ST : Scalar T}.
Variable gesvd : list (Vector4 T) -> Z * Matrix44 T.
Variable levenbergMarquardt :
  list (Matrix34 T) -> Vector3 T -> list T -> T * Vector3 T.

Lemma sign_scan_cons (P : Matrix34 T) (rest : list (Matrix34 T))
    (vec : Vector4 T) :
  Calibration.sign_scan (P :: rest) vec
  = if negative_depth vec P then ublas.neg4 vec
    else Calibration.sign_scan rest vec.
Proof. reflexivity. Qed.

(** The scan returns its argument or the negated argument. *)
Lemma sign_scan_cases (Ps : list (Matrix34 T)) (vec : Vector4 T) :
  Calibration.sign_scan Ps vec = vec
  \/ Calibration.sign_scan Ps vec = ublas.neg4 vec.
Proof.
  induction Ps as [|P rest IH]; [left; reflexivity |].
  rewrite sign_scan_cons.
  destruct (negative_depth vec P); [right; reflexivity | exact IH].
Qed.

(** The successful path of the iterator-range [get3DPositionImpl]. *)
Lemma get3DPositionImpl_range_ok (Ps : list (Matrix34 T))
    (pts : list (Vector2 T)) :
  2 <= length Ps ->
  fst (gesvd (Calibration.build_system Ps pts)) = 0%Z ->
  Calibration.get3DPositionImpl_range gesvd Ps pts
  = inr (ublas.subrange03
           (ublas.div_assign_last
              (Calibration.sign_scan Ps (last_row_range gesvd Ps pts)))).
Proof.
  intros Hn Hinfo. unfold Calibration.get3DPositionImpl_range, last_row_range.
  destruct (Nat.ltb_spec (length Ps) 2) as [Hlt | _]; [lia |].
  destruct (gesvd (Calibration.build_system Ps pts)) as [info Vt].
  simpl in *. subst info. reflexivity.
Qed.

(** What a returned point is. *)
Lemma get3DPositionImpl_range_inr (Ps : list (Matrix34 T))
    (pts : list (Vector2 T)) (X : Vector3 T) :
  Calibration.get3DPositionImpl_range gesvd Ps pts = inr X ->
  X = ublas.subrange03
        (ublas.div_assign_last
           (Calibration.sign_scan Ps (last_row_range gesvd Ps pts))).
Proof.
  unfold Calibration.get3DPositionImpl_range, last_row_range.
  destruct (length Ps <? 2)%nat; [discriminate |].
  destruct (gesvd (Calibration.build_system Ps pts)) as [info Vt].
  destruct (negb (info =? 0)%Z); [discriminate |].
  intros H. injection H as <-. reflexivity.
Qed.



Lemma get3DPositionImpl_range_too_few (Ps : list (Matrix34 T))
    (pts : list (Vector2 T)) :
  length Ps < 2 ->
  Calibration.get3DPositionImpl_range gesvd Ps pts
  = UBITRACK_THROW Calibration.msg_too_few.
Proof.
  intros Hn. unfold Calibration.get3DPositionImpl_range.
  destruct (Nat.ltb_spec (length Ps) 2) as [_ | Hge]; [reflexivity | lia].
Qed.

Lemma get3DPositionImpl_range_enough (Ps : list (Matrix34 T))
    (pts : list (Vector2 T)) :
  2 <= length Ps ->
  Calibration.get3DPositionImpl_range gesvd Ps pts
  <> UBITRACK_THROW Calibration.msg_too_few.
Proof.
  intros Hn. unfold Calibration.get3DPositionImpl_range.
  destruct (Nat.ltb_spec (length Ps) 2) as [Hlt | _]; [lia |].
  destruct (gesvd (Calibration.build_system Ps pts)) as [info Vt].
  destruct (negb (info =? 0)%Z); discriminate.
Qed.

(** C6: with fewer than two views the N-view triangulation throws, whatever
    the SVD and the optimiser would compute: the range implementation throws
    its "at least 2 matrices" exception exactly when [n < 2], and the public
    function throws that exception, or the size-mismatch one when the two
    vectors differ in length.  With two or more views the call is never
    rejected for this reason. *)
Theorem get3DPosition_requires_two_views (P : list (Matrix34 T))
    (points : list (Vector2 T)) (flag : N) :
  (Calibration.get3DPositionImpl_range gesvd P points
   = UBITRACK_THROW Calibration.msg_too_few
   <-> length P < 2)
  /\ (length P < 2 ->
      Calibration.get3DPosition_vector gesvd levenbergMarquardt P points flag
      = UBITRACK_THROW
          (if (length P =? length points)%nat then Calibration.msg_too_few
           else Calibration.msg_not_equal))
  /\ (2 <= length P ->
      Calibration.get3DPosition_vector gesvd levenbergMarquardt P points flag
      <> UBITRACK_THROW Calibration.msg_too_few).
Proof.
  split; [split | split].
  - intros H. destruct (Nat.lt_ge_cases (length P) 2) as [Hlt | Hge]; auto.
    exfalso. exact (get3DPositionImpl_range_enough P points Hge H).
  - apply get3DPositionImpl_range_too_few.
  - intros Hn. unfold Calibration.get3DPosition_vector.
    destruct (length P =? length points)%nat; simpl; [| reflexivity].
    rewrite (get3DPositionImpl_range_too_few P points Hn). reflexivity.
  - intros Hn. unfold Calibration.get3DPosition_vector.
    destruct (length P =? length points)%nat; simpl; [| discriminate].
    pose proof (get3DPositionImpl_range_enough P points Hn) as Hne.
    destruct (Calibration.get3DPositionImpl_range gesvd P points) as [e | X].
    + simpl. exact Hne.
    + simpl. destruct (0 <? flag)%N; discriminate.
Qed.

(** C9: both vector entry points throw when the number of projection
    matrices differs from the number of image points, before triangulating:
    the outcome does not depend on the SVD or on the optimiser. *)
Theorem get3DPosition_sizes_must_agree (P : list (Matrix34 T))
    (points : list (Vector2 T)) (flag : N) (pResidual : bool) :
  length P <> length points ->
  Calibration.get3DPosition_vector gesvd levenbergMarquardt P points flag
  = UBITRACK_THROW Calibration.msg_not_equal
  /\ Calibration.get3DPositionWithResidual gesvd levenbergMarquardt P points
       flag pResidual
     = UBITRACK_THROW Calibration.msg_not_equal.
Proof.
  intros Hne. unfold Calibration.get3DPosition_vector,
    Calibration.get3DPositionWithResidual.
  apply Nat.eqb_neq in Hne. rewrite Hne. split; reflexivity.
Qed.
End TriangulationChecks.


Lemma get3DPosition_requires_two_views_witness :
  length [Behind.Pa] < 2
  /\ Calibration.get3DPosition_vector Behind.gesvd_sample
       Behind.levenbergMarquardt_sample [Behind.Pa] [Behind.xa] 1%N
     = UBITRACK_THROW Calibration.msg_too_few.
Proof.
  assert (H : length [Behind.Pa] < 2) by (simpl; lia).
  split; [exact H |].
  exact (proj1 (proj2 (get3DPosition_requires_two_views Behind.gesvd_sample
                         Behind.levenbergMarquardt_sample [Behind.Pa]
                         [Behind.xa] 1%N)) H).
Defined.

Lemma get3DPosition_sizes_must_agree_witness :
  length [Behind.Pa; Behind.Pb] <> length [Behind.xa]
  /\ Calibration.get3DPosition_vector Behind.gesvd_sample
       Behind.levenbergMarquardt_sample [Behind.Pa; Behind.Pb] [Behind.xa]
       0%N
     = UBITRACK_THROW Calibration.msg_not_equal
  /\ Calibration.get3DPositionWithResidual Behind.gesvd_sample
       Behind.levenbergMarquardt_sample [Behind.Pa; Behind.Pb] [Behind.xa]
       0%N true
     = UBITRACK_THROW Calibration.msg_not_equal.
Proof.
  assert (H : length [Behind.Pa; Behind.Pb] <> length [Behind.xa])
    by (simpl; lia).
  split; [exact H |].
  exact (get3DPosition_sizes_must_agree Behind.gesvd_sample
           Behind.levenbergMarquardt_sample [Behind.Pa; Behind.Pb]
           [Behind.xa] 0%N true H).
Defined.

(** ** The ToolTip RANSAC wrapper *)

(** C8: [estimatePosition3D_6D] returns [true] exactly when the engine
    reports more than zero inliers, and in either case [pw] and [pm] are the
    two halves of the engine's result vector. *)
Theorem estimatePosition3D_6D_result (T Pose RansacParameter : Type)
    (ransac : list Pose -> Vector6 T -> RansacParameter -> N * Vector6 T)
    (indeterminate : Vector6 T) (poses : list Pose)
    (params : RansacParameter) :
  let '(ok, pw, pm) :=
    ToolTip.estimatePosition3D_6D ransac indeterminate poses params in
  let '(inlier, resultVector) := ransac poses indeterminate params in
  (ok = true <-> (0 < inlier)%N)
  /\ pw = mkVector3 (v6_0 resultVector) (v6_1 resultVector)
            (v6_2 resultVector)
  /\ pm = mkVector3 (v6_3 resultVector) (v6_4 resultVector)
            (v6_5 resultVector).
Proof.
  unfold ToolTip.estimatePosition3D_6D.
  destruct (ransac poses indeterminate params) as [inlier resultVector].
  split; [apply N.ltb_lt | split; reflexivity].
Qed.

(** When the engine found no model and left its result vector untouched,
    the caller receives [false] and the indeterminate contents. *)
Lemma estimatePosition3D_6D_no_model (T Pose RansacParameter : Type)
    (ransac : list Pose -> Vector6 T -> RansacParameter -> N * Vector6 T)
    (indeterminate : Vector6 T) (poses : list Pose)
    (params : RansacParameter) :
  ransac poses indeterminate params = (0%N, indeterminate) ->
  ToolTip.estimatePosition3D_6D ransac indeterminate poses params
  = (false,
     mkVector3 (v6_0 indeterminate) (v6_1 indeterminate) (v6_2 indeterminate),
     mkVector3 (v6_3 indeterminate) (v6_4 indeterminate) (v6_5 indeterminate)).
Proof.
  intros H. unfold ToolTip.estimatePosition3D_6D. rewrite H. reflexivity.
Qed.

(** ** The reconstruction pipeline *)

Section ListFacts.
Context {A : Type}.

Lemma at_in_range (v : list A) (i : nat) (d : A) :
  i < length v -> at_ v i = inr (nth i v d).
Proof.
  intros Hi. unfold at_.
  rewrite (nth_error_nth' v d Hi). reflexivity.
Qed.

Lemma at_some (v : list A) (i : nat) (a : A) :
  nth_error v i = Some a -> at_ v i = inr a.
Proof. intros H. unfold at_. rewrite H. reflexivity. Qed.

Lemma at_out_of_range (v : list A) (i : nat) :
  length v <= i -> at_ v i = inl out_of_range.
Proof.
  intros Hi. unfold at_.
  apply nth_error_None in Hi. rewrite Hi. reflexivity.
Qed.

Lemma nth_error_middle (l1 l2 : list A) (x : A) :
  nth_error (l1 ++ x :: l2) (length l1) = Some x.
Proof. induction l1 as [|y l1 IH]; simpl; auto. Qed.

Lemma set_nth_middle (l1 l2 : list A) (x y : A) :
  Calibration.set_nth (l1 ++ x :: l2) (length l1) y = l1 ++ y :: l2.
Proof. induction l1 as [|z l1 IH]; simpl; [| rewrite IH]; reflexivity. Qed.

Lemma set_nth_at (l1 l2 : list A) (x y : A) (i : nat) :
  i = length l1 ->
  Calibration.set_nth (l1 ++ x :: l2) i y = l1 ++ y :: l2.
Proof. intros ->. apply set_nth_middle. Qed.

Lemma firstn_snoc (l : list A) (i : nat) (x : A) :
  nth_error l i = Some x -> firstn (S i) l = firstn i l ++ [x].
Proof.
  revert i. induction l as [|y l IH]; intros [|i] H; simpl in *;
    try discriminate.
  - injection H as ->. reflexivity.
  - rewrite (IH i H). reflexivity.
Qed.

Lemma nth_error_in_range (l : list A) (i : nat) :
  i < length l -> exists x, nth_error l i = Some x.
Proof.
  intros Hi. destruct (nth_error l i) as [x|] eqn:E; [eauto |].
  apply nth_error_None in E. lia.
Qed.
End ListFacts.

Section Pipeline.
Context {T : Type} {ST : Scalar T}.
Variable gesvd : list (Vector4 T) -> Z * Matrix44 T.
Variable munkres : list (list T) -> list nat.
Variable indeterminate : T.
Variables (p1 p2 : list (Vector2 T)) (P1 P2 : Matrix34 T) (fM : Matrix33 T).

Lemma partial_row_0 (a : Vector2 T) :
  partial_row indeterminate p2 fM a 0 = repeat indeterminate (length p2).
Proof. unfold partial_row. simpl. rewrite Nat.sub_0_r. reflexivity. Qed.

Lemma partial_row_full (a : Vector2 T) :
  partial_row indeterminate p2 fM a (length p2) = cost_row p2 fM a.
Proof.
  unfold partial_row, cost_row.
  rewrite firstn_all, Nat.sub_diag. simpl. apply app_nil_r.
Qed.

Lemma partial_row_step (a b : Vector2 T) (col : nat) :
  nth_error p2 col = Some b ->
  Calibration.set_nth (partial_row indeterminate p2 fM a col) col
    (Calibration.pointToPointDist a b fM)
  = partial_row indeterminate p2 fM a (S col).
Proof.
  intros Hb. unfold partial_row.
  assert (Hlt : col < length p2) by (apply nth_error_Some; congruence).
  assert (Hlen : length (map (fun b0 => Calibration.pointToPointDist a b0 fM)
                           (firstn col p2)) = col).
  { rewrite length_map, length_firstn. lia. }
  replace (length p2 - col) with (S (length p2 - S col)) by lia.
  simpl repeat.
  rewrite set_nth_at by (symmetry; exact Hlen).
  rewrite firstn_snoc with (x := b) by exact Hb.
  rewrite map_app, <- app_assoc. reflexivity.
Qed.

(** The inner loop of lines 244-247 on row [row]. *)
Lemma inner_loop (a : Vector2 T) (pre post : list (list T))
    (row k col : nat) :
  row = length pre ->
  nth_error p1 row = Some a ->
  col + k = length p2 ->
  for_each (seq col k)
    (fun col matrix =>
       a <- at_ p1 row ;;
       b <- at_ p2 col ;;
       ret (Calibration.set_elem matrix row col
              (Calibration.pointToPointDist a b fM)))
    (pre ++ partial_row indeterminate p2 fM a col :: post)
  = inr (pre ++ cost_row p2 fM a :: post).
Proof.
  intros -> Ha.
  set (body := fun (col : nat) (matrix : list (list T)) => _).
  assert (Hstep : forall c b, nth_error p2 c = Some b ->
            body c (pre ++ partial_row indeterminate p2 fM a c :: post)
            = inr (pre ++ partial_row indeterminate p2 fM a (S c) :: post)).
  { intros c b Hb. unfold body.
    rewrite at_some with (a := a) by exact Ha.
    rewrite at_some with (a := b) by exact Hb.
    cbn [bind ret Monad_Result Monad_either].
    unfold Calibration.set_elem. rewrite nth_error_middle, set_nth_middle.
    rewrite partial_row_step with (b := b) by exact Hb. reflexivity. }
  clearbody body.
  revert col. induction k as [|k IH]; intros col Hk.
  - simpl. rewrite Nat.add_0_r in Hk. subst col.
    rewrite partial_row_full. reflexivity.
  - destruct (nth_error_in_range p2 col) as [b Hb]; [lia |].
    cbn [seq for_each]. rewrite (Hstep col b Hb).
    cbn [bind ret Monad_Result Monad_either].
    apply IH. lia.
Qed.

(** The outer loop of lines 242-248 from row [row] on. *)
Lemma outer_loop (k row : nat) :
  row + k = length p1 ->
  for_each (seq row k)
    (fun row matrix =>
       for_each (seq 0 (length p2))
         (fun col matrix =>
            a <- at_ p1 row ;;
            b <- at_ p2 col ;;
            ret (Calibration.set_elem matrix row col
                   (Calibration.pointToPointDist a b fM)))
         matrix)
    (map (cost_row p2 fM) (firstn row p1)
     ++ repeat (repeat indeterminate (length p2)) k)
  = inr (cost_matrix_spec p1 p2 fM).
Proof.
  set (body := fun (row : nat) (matrix : list (list T)) => _).
  assert (Hstep : forall r a post, nth_error p1 r = Some a ->
            body r (map (cost_row p2 fM) (firstn r p1)
                    ++ repeat indeterminate (length p2) :: post)
            = inr (map (cost_row p2 fM) (firstn (S r) p1) ++ post)).
  { intros r a post Ha. unfold body. rewrite <- (partial_row_0 a).
    assert (Hr : r < length p1) by (apply nth_error_Some; congruence).
    rewrite inner_loop with (a := a); try assumption; try reflexivity.
    - rewrite firstn_snoc with (x := a), map_app, <- app_assoc by exact Ha.
      reflexivity.
    - rewrite length_map, length_firstn. lia. }
  clearbody body.
  revert row. induction k as [|k IH]; intros row Hk.
  - simpl. rewrite Nat.add_0_r in Hk. subst row.
    rewrite firstn_all, app_nil_r. reflexivity.
  - destruct (nth_error_in_range p1 row) as [a Ha]; [lia |].
    cbn [seq for_each repeat]. rewrite (Hstep row a _ Ha).
    cbn [bind ret Monad_Result Monad_either].
    apply IH. lia.
Qed.

Lemma cost_matrix_is_spec :
  Calibration.cost_matrix indeterminate p1 p2 fM
  = inr (cost_matrix_spec p1 p2 fM).
Proof.
  unfold Calibration.cost_matrix, Calibration.new_matrix.
  exact (outer_loop (length p1) 0 eq_refl).
Qed.

Lemma cost_matrix_spec_rows :
  length (cost_matrix_spec p1 p2 fM) = length p1.
Proof. apply length_map. Qed.

Lemma cost_matrix_spec_row (row : nat) :
  row < length p1 ->
  nth row (cost_matrix_spec p1 p2 fM) []
  = cost_row p2 fM (point_at indeterminate p1 row).
Proof.
  intros Hrow. unfold cost_matrix_spec, point_at.
  rewrite nth_indep
    with (d' := cost_row p2 fM (mkVector2 indeterminate indeterminate))
    by (rewrite length_map; exact Hrow).
  apply map_nth.
Qed.

Lemma cost_matrix_spec_entry (row col : nat) :
  row < length p1 -> col < length p2 ->
  nth col (nth row (cost_matrix_spec p1 p2 fM) []) indeterminate
  = Calibration.pointToPointDist (point_at indeterminate p1 row)
      (point_at indeterminate p2 col) fM.
Proof.
  intros Hrow Hcol. rewrite cost_matrix_spec_row by exact Hrow.
  unfold cost_row, point_at.
  rewrite nth_indep with
    (d' := Calibration.pointToPointDist
             (nth row p1 (mkVector2 indeterminate indeterminate))
             (mkVector2 indeterminate indeterminate) fM)
    by (rewrite length_map; exact Hcol).
  exact (map_nth (fun b => Calibration.pointToPointDist
                             (nth row p1 (mkVector2 indeterminate indeterminate))
                             b fM) p2 _ col).
Qed.

(** One turn of the loop of lines 256-262 on a row the match list covers. *)
Lemma result_loop_step (matchList : list nat) (i : nat)
    (acc : list (Vector3 T)) :
  i < length p1 -> i < length matchList ->
  (j <- at_ matchList i ;;
   if (j <? length p2)%nat
   then
     a <- at_ p1 i ;;
     b <- at_ p2 j ;;
     ret (acc ++ [Calibration.get3DPosition gesvd P1 P2 a b])
   else ret acc)
  = inr (if matched_row p2 matchList i
         then acc ++ [triangulate_row gesvd indeterminate p1 p2 P1 P2
                        matchList i]
         else acc).
Proof.
  intros Hi Hm. unfold matched_row, triangulate_row, point_at.
  rewrite at_in_range with (d := 0) by exact Hm.
  cbn [bind ret Monad_Result Monad_either].
  destruct (Nat.ltb_spec (nth i matchList 0) (length p2)) as [Hj | Hj];
    [| reflexivity].
  rewrite at_in_range with (d := mkVector2 indeterminate indeterminate)
    by exact Hi.
  rewrite at_in_range with (d := mkVector2 indeterminate indeterminate)
    by exact Hj.
  reflexivity.
Qed.

(** The loop of lines 256-262 from row [i] on, with the rows matched so far
    in [acc]. *)
Lemma result_loop (matchList : list nat) (k i : nat)
    (acc : list (Vector3 T)) :
  i + k = length p1 ->
  length p1 <= length matchList ->
  for_each (seq i k)
    (fun i list =>
       j <- at_ matchList i ;;
       if (j <? length p2)%nat
       then
         a <- at_ p1 i ;;
         b <- at_ p2 j ;;
         ret (list ++ [Calibration.get3DPosition gesvd P1 P2 a b])
       else ret list)
    acc
  = inr (acc ++ map (triangulate_row gesvd indeterminate p1 p2 P1 P2
                       matchList)
                  (filter (matched_row p2 matchList) (seq i k))).
Proof.
  intros Hk Hlen.
  revert i acc Hk. induction k as [|k IH]; intros i acc Hk.
  - simpl. rewrite app_nil_r. reflexivity.
  - cbn [seq for_each filter].
    rewrite result_loop_step by lia.
    cbn [bind ret Monad_Result Monad_either].
    rewrite IH by lia.
    destruct (matched_row p2 matchList i); simpl;
      [rewrite <- app_assoc |]; reflexivity.
Qed.

(** When the row match list is shorter than [p1], [matchList.at( i )]
    throws at the first row it does not cover. *)
Lemma result_loop_short (matchList : list nat) (k i : nat)
    (acc : list (Vector3 T)) :
  i + k = length p1 ->
  i <= length matchList < length p1 ->
  for_each (seq i k)
    (fun i list =>
       j <- at_ matchList i ;;
       if (j <? length p2)%nat
       then
         a <- at_ p1 i ;;
         b <- at_ p2 j ;;
         ret (list ++ [Calibration.get3DPosition gesvd P1 P2 a b])
       else ret list)
    acc
  = inl out_of_range.
Proof.
  intros Hk Hlen.
  revert i acc Hk Hlen. induction k as [|k IH]; intros i acc Hk Hlen.
  - lia.
  - cbn [seq for_each].
    destruct (Nat.eq_dec i (length matchList)) as [-> | Hne].
    + rewrite at_out_of_range by lia. reflexivity.
    + rewrite result_loop_step by lia.
      cbn [bind ret Monad_Result Monad_either].
      apply IH; lia.
Qed.

Lemma reconstruct3DPoints_short_match_list :
  length (munkres (cost_matrix_spec p1 p2 fM)) < length p1 ->
  Calibration.reconstruct3DPoints gesvd munkres indeterminate p1 p2 P1 P2 fM
  = inl out_of_range.
Proof.
  intros Hlen.
  unfold Calibration.reconstruct3DPoints, Calibration.reconstruct3DPointsImpl.
  rewrite cost_matrix_is_spec. cbn [bind ret Monad_Result Monad_either].
  apply result_loop_short; lia.
Qed.

(** C2: [reconstruct3DPoints] builds the [p1.size()] by [p2.size()] matrix
    whose entry [(row, col)] is [pointToPointDist( p1[row], p2[col], fM )],
    hands it to the Munkres solver, and returns, in increasing row order, one
    point [get3DPosition( P1, P2, p1[i], p2[match(i)] )] for each row [i]
    whose matched column is below [p2.size()], and nothing for the other
    rows.  ([matchList.at( i )] needs the row match list to cover the rows.) *)
Theorem reconstruct3DPoints_matched_rows :
  exists matrix : list (list T),
    Calibration.cost_matrix indeterminate p1 p2 fM = inr matrix
    /\ length matrix = length p1
    /\ (forall row, row < length p1 ->
          length (nth row matrix []) = length p2)
    /\ (forall row col, row < length p1 -> col < length p2 ->
          nth col (nth row matrix []) indeterminate
          = Calibration.pointToPointDist (point_at indeterminate p1 row)
              (point_at indeterminate p2 col) fM)
    /\ (let matchList := munkres matrix in
        length p1 <= length matchList ->
        Calibration.reconstruct3DPoints gesvd munkres indeterminate p1 p2
          P1 P2 fM
        = inr (map (fun i =>
                      Calibration.get3DPosition gesvd P1 P2
                        (point_at indeterminate p1 i)
                        (point_at indeterminate p2 (nth i matchList 0)))
                 (filter (fun i => (nth i matchList 0 <? length p2)%nat)
                    (seq 0 (length p1))))).
Proof.
  exists (cost_matrix_spec p1 p2 fM). split; [apply cost_matrix_is_spec |].
  split; [apply cost_matrix_spec_rows |].
  split.
  { intros row Hrow. rewrite cost_matrix_spec_row by exact Hrow.
    apply length_map. }
  split; [apply cost_matrix_spec_entry |].
  intros matchList Hlen.
  unfold Calibration.reconstruct3DPoints, Calibration.reconstruct3DPointsImpl.
  rewrite cost_matrix_is_spec. cbn [bind ret Monad_Result Monad_either].
  fold matchList.
  exact (result_loop matchList (length p1) 0 [] eq_refl Hlen).
Qed.
End Pipeline.

Lemma reconstruct3DPoints_matched_rows_witness :
  length PipelineSample.p1 <= length (PipelineSample.munkres_sample [])
  /\ Calibration.reconstruct3DPoints Behind.gesvd_sample
       PipelineSample.munkres_sample szero PipelineSample.p1
       PipelineSample.p2 Behind.Pa Behind.Pb Samples.F_q
     = inr [Calibration.get3DPosition Behind.gesvd_sample Behind.Pa
              Behind.Pb Behind.xa Behind.xb].
Proof.
  split; [simpl; lia |].
  destruct (reconstruct3DPoints_matched_rows Behind.gesvd_sample
              PipelineSample.munkres_sample szero PipelineSample.p1
              PipelineSample.p2 Behind.Pa Behind.Pb Samples.F_q)
    as (matrix & _ & _ & _ & _ & Hres).
  rewrite Hres by (simpl; lia). reflexivity.
Defined.

(** ** Projective depth of the triangulated point *)

Section ReturnedPoint.
Context {T : Type} {ST : Scalar T}.
Local Open Scope scalar_scope.

(** Division does not see a common change of sign: so it is on IEEE
    numbers, and in a field where [x / 0 = 0]. *)
Hypothesis sdiv_sneg_sneg : forall a b : T, - a / - b = a / b.

Lemma dehomogenise_neg4 (v : Vector4 T) :
  ublas.subrange03 (ublas.div_assign_last (ublas.neg4 v)) = dehomogenise v.
Proof.
  unfold ublas.subrange03, ublas.div_assign_last, ublas.neg4, dehomogenise.
  simpl. rewrite !sdiv_sneg_sneg. reflexivity.
Qed.

(** The sign scan does not change the point that is returned. *)
Lemma dehomogenise_sign_scan (Ps : list (Matrix34 T)) (v : Vector4 T) :
  ublas.subrange03 (ublas.div_assign_last (Calibration.sign_scan Ps v))
  = dehomogenise v.
Proof.
  destruct (sign_scan_cases Ps v) as [-> | ->].
  - reflexivity.
  - apply dehomogenise_neg4.
Qed.

Lemma get3DPositionImpl_range_point
    (gesvd : list (Vector4 T) -> Z * Matrix44 T)
    (Ps : list (Matrix34 T)) (pts : list (Vector2 T)) (X : Vector3 T) :
  Calibration.get3DPositionImpl_range gesvd Ps pts = inr X ->
  X = dehomogenise (last_row_range gesvd Ps pts).
Proof.
  intros H. apply get3DPositionImpl_range_inr in H.
  rewrite dehomogenise_sign_scan in H. exact H.
Qed.
End ReturnedPoint.

Section ExactField.
Context {T : Type} {ST : Scalar T}.
Local Open Scope scalar_scope.

(** [T] with its operators is a field: arithmetic is exact. *)
Hypothesis scalar_field :
  field_theory 0 1 sadd smul ssub sneg sdiv (fun x => 1 / x) (@eq T).

Add Field scalar_field_tac : scalar_field.

Lemma projective_depth_dehomogenise (P : Matrix34 T) (v : Vector4 T) :
  v4_3 v <> 0 ->
  projective_depth P (dehomogenise v)
  = Calibration.third_row_depth P v / v4_3 v.
Proof.
  intros Hv.
  unfold projective_depth, dehomogenise, Calibration.third_row_depth. simpl.
  field. exact Hv.
Qed.

(** A null-space solution on the line [a v2 + b v3 = 0], [v0 = v1 = 0]
    dehomogenises to [(0, 0, -b/a)], whatever its norm and sign. *)
Lemma dehomogenise_null_line (v : Vector4 T) (a b : T) :
  v4_0 v = 0 -> v4_1 v = 0 -> a * v4_2 v + b * v4_3 v = 0 ->
  a <> 0 -> v4_3 v <> 0 ->
  dehomogenise v = mkVector3 0 0 (- (b / a)).
Proof.
  intros H0 H1 H Ha H3. unfold dehomogenise. rewrite H0, H1.
  assert (H2 : v4_2 v = - (b / a) * v4_3 v).
  { replace (v4_2 v) with ((a * v4_2 v + b * v4_3 v) / a - b * v4_3 v / a)
      by (field; exact Ha).
    rewrite H. field. exact Ha. }
  rewrite H2. f_equal; field; auto.
Qed.
End ExactField.

(** What a returned point is: the dehomogenised last row [v] of [Vt] as the
    SVD returned it, for either overload and with or without the negation
    of the sign scan (wherever division does not see a common change of
    sign, as on IEEE numbers); and in exact arithmetic, for [v3 <> 0], its
    projective depth for a camera [P] is [(P row 3 . v) / v3]. *)
Theorem get3DPosition_projective_depth :
  (forall (T : Type) (ST : Scalar T),
     (forall a b : T, sdiv (sneg a) (sneg b) = sdiv a b) ->
     forall gesvd : list (Vector4 T) -> Z * Matrix44 T,
       (forall P1 P2 x x_,
          Calibration.get3DPosition gesvd P1 P2 x x_
          = dehomogenise (last_row_two_view gesvd P1 P2 x x_))
       /\ (forall Ps pts X,
             Calibration.get3DPositionImpl_range gesvd Ps pts = inr X ->
             X = dehomogenise (last_row_range gesvd Ps pts)))
  /\ (forall (T : Type) (ST : Scalar T),
        field_theory szero sone sadd smul ssub sneg sdiv
          (fun x => sdiv sone x) (@eq T) ->
        forall (P : Matrix34 T) (v : Vector4 T),
          v4_3 v <> szero ->
          projective_depth P (dehomogenise v)
          = sdiv (Calibration.third_row_depth P v) (v4_3 v)).
Proof.
  split.
  - intros T ST Hdiv gesvd. split.
    + intros P1 P2 x x_. reflexivity.
    + intros Ps pts X. apply get3DPositionImpl_range_point, Hdiv.
  - intros T ST Hfield P v. apply projective_depth_dehomogenise, Hfield.
Qed.

(** ** The field [Qc] *)

Lemma Qc_scalar_field :
  field_theory (szero (T := Qc)) sone sadd smul ssub sneg sdiv
    (fun x => sdiv sone x) (@eq Qc).
Proof.
  constructor.
  - exact Qcrt.
  - exact Q_apart_0_1.
  - intros p q. simpl. unfold Qcdiv. ring.
  - intros p Hp. simpl. unfold Qcdiv. rewrite Qcmult_1_l.
    apply Qcmult_inv_l, Hp.
Qed.

Lemma Qc_sdiv_sneg_sneg (a b : Qc) :
  sdiv (sneg a) (sneg b) = sdiv a b.
Proof.
  simpl. destruct (Qc_eq_dec b 0%Qc) as [-> | Hb].
  - unfold Qcdiv. replace (/ - 0)%Qc with 0%Qc by qc_closed.
    replace (/ 0)%Qc with 0%Qc by qc_closed. ring.
  - field. split; [exact Hb |]. intros H. apply Hb.
    replace b with (- - b)%Qc by ring. rewrite H. ring.
Qed.

(** ** A point behind both cameras *)

Lemma Behind_images :
  Geometry.ProjectPoint3 Behind.Pa Behind.X = Behind.xa
  /\ Geometry.ProjectPoint3 Behind.Pb Behind.X = Behind.xb.
Proof.
  split; unfold Geometry.ProjectPoint3, Behind.xa, Behind.xb; simpl;
    f_equal; qc_closed.
Qed.

Lemma Behind_system :
  Calibration.build_system [Behind.Pa; Behind.Pb] [Behind.xa; Behind.xb]
  = [ mkVector4 0 1 0 0; mkVector4 (Qcopp 1) 0 0 0; mkVector4 0 0 0 0;
      mkVector4 0 1 0 0;
      mkVector4 (Qcopp 1) 0 (Samples.qz 4) (Samples.qz 3);
      mkVector4 0 (- Samples.qz 4) 0 0 ]%Qc.
Proof.
  unfold Calibration.build_system, ublas.prod33_34, ublas.row_prod34.
  simpl. repeat (f_equal; try qc_closed).
Qed.

Lemma Behind_two_view_system :
  Calibration.two_view_system Behind.Pa Behind.Pb Behind.xa Behind.xb
  = [ mkVector4 (Qcopp 1) 0 0 0; mkVector4 0 (Qcopp 1) 0 0;
      mkVector4 (Qcopp 1) 0 (Samples.qz 4) (Samples.qz 3);
      mkVector4 0 (Qcopp 1) 0 0 ]%Qc.
Proof.
  unfold Calibration.two_view_system, ublas.minus4, ublas.scale4.
  simpl. repeat (f_equal; try qc_closed).
Qed.

Lemma qz4_nonzero : Samples.qz 4 <> 0%Qc.
Proof.
  intros H. apply (f_equal (fun q : Qc => Qnum (this q))) in H.
  vm_compute in H. discriminate H.
Qed.

(** Every unit vector with [-v0 = 0], [v1 = 0] (or [-v1 = 0]) and
    [-v0 + 4 v2 + 3 v3 = 0] dehomogenises to [X]. *)
Lemma Behind_solution (v : Vector4 Qc) (r1 : Vector4 Qc) :
  Behind.dot4 (mkVector4 (Qcopp 1) 0 0 0)%Qc v = 0%Qc ->
  (r1 = mkVector4 0 1 0 0 \/ r1 = mkVector4 0 (Qcopp 1) 0 0)%Qc ->
  Behind.dot4 r1 v = 0%Qc ->
  Behind.dot4 (mkVector4 (Qcopp 1) 0 (Samples.qz 4) (Samples.qz 3))%Qc v
  = 0%Qc ->
  Behind.dot4 v v = 1%Qc ->
  v4_3 v <> 0%Qc /\ dehomogenise v = Behind.X.
Proof.
  unfold Behind.dot4. cbn [v4_0 v4_1 v4_2 v4_3]. intros Ha Hr Hb Hc Hu.
  assert (H0 : v4_0 v = 0%Qc).
  { replace (v4_0 v)
      with (- (Qcopp 1 * v4_0 v + 0 * v4_1 v + 0 * v4_2 v + 0 * v4_3 v))%Qc
      by ring.
    rewrite Ha. ring. }
  assert (H1 : v4_1 v = 0%Qc).
  { destruct Hr as [-> | ->]; cbn [v4_0 v4_1 v4_2 v4_3] in Hb.
    - rewrite <- Hb. ring.
    - replace (v4_1 v)
        with (- (0 * v4_0 v + Qcopp 1 * v4_1 v + 0 * v4_2 v + 0 * v4_3 v))%Qc
        by ring.
      rewrite Hb. ring. }
  rewrite H0, H1 in *.
  assert (Hline : (Samples.qz 4 * v4_2 v + Samples.qz 3 * v4_3 v = 0)%Qc).
  { rewrite <- Hc. ring. }
  assert (H3 : v4_3 v <> 0%Qc).
  { intros H3. rewrite H3 in *.
    assert (H2 : v4_2 v = 0%Qc).
    { apply Qcmult_integral_l with (x := Samples.qz 4);
        [exact qz4_nonzero | rewrite <- Hline; ring]. }
    rewrite H2 in Hu. apply Q_apart_0_1. rewrite <- Hu. ring. }
  split; [exact H3 |].
  apply (dehomogenise_null_line Qc_scalar_field v
           (Samples.qz 4) (Samples.qz 3)); assumption || exact qz4_nonzero.
Qed.

(** C1: the code returns a point behind the cameras.  The measurements
    [xa], [xb] are the exact images of [X = (0, 0, -3/4)] in the cameras
    [Pa], [Pb]; with any SVD that solves the stacked system, of either sign,
    the N-view function (which negates the solution in lines 152-161 and
    divides the sign out again in line 162) and the two-view function
    (which checks no sign) return [X], whose projective depth is negative
    for both cameras; and each system has such a solution. *)
Lemma get3DPosition_returns_point_behind_cameras :
  (forall gesvd levenbergMarquardt,
     Behind.svd_solves gesvd
       (Calibration.build_system [Behind.Pa; Behind.Pb]
          [Behind.xa; Behind.xb]) ->
     Calibration.get3DPosition_vector gesvd levenbergMarquardt
       [Behind.Pa; Behind.Pb] [Behind.xa; Behind.xb] 0%N
     = inr Behind.X)
  /\ (forall gesvd,
        Behind.svd_solves gesvd
          (Calibration.two_view_system Behind.Pa Behind.Pb Behind.xa
             Behind.xb) ->
        Calibration.get3DPosition gesvd Behind.Pa Behind.Pb Behind.xa
          Behind.xb
        = Behind.X)
  /\ sltb (projective_depth Behind.Pa Behind.X) szero = true
  /\ sltb (projective_depth Behind.Pb Behind.X) szero = true
  /\ Behind.svd_solves Behind.gesvd_sample
       (Calibration.build_system [Behind.Pa; Behind.Pb]
          [Behind.xa; Behind.xb])
  /\ Behind.svd_solves Behind.gesvd_sample
       (Calibration.two_view_system Behind.Pa Behind.Pb Behind.xa
          Behind.xb).
Proof.
  split; [| split; [| split; [| split; [| split]]]].
  - intros gesvd lm [Hinfo [Hnull Hunit]].
    unfold Calibration.get3DPosition_vector.
    change (negb (length [Behind.Pa; Behind.Pb]
                  =? length [Behind.xa; Behind.xb])%nat) with false.
    cbv iota.
    rewrite get3DPositionImpl_range_ok by (exact Hinfo || (simpl; lia)).
    cbn [bind ret Monad_Result Monad_either].
    change (0 <? 0)%N with false. cbv iota. f_equal.
    rewrite dehomogenise_sign_scan by exact Qc_sdiv_sneg_sneg.
    unfold last_row_range.
    rewrite Behind_system in Hnull |- *.
    set (v := m44_3 (snd (gesvd _))) in *.
    inversion Hnull as [|r0 l0 Hr0 Hl0]; subst.
    inversion Hl0 as [|r1 l1 Hr1 Hl1]; subst.
    inversion Hl1 as [|r2 l2 Hr2 Hl2]; subst.
    inversion Hl2 as [|r3 l3 Hr3 Hl3]; subst.
    inversion Hl3 as [|r4 l4 Hr4 Hl4]; subst.
    assert (Hsol : v4_3 v <> 0%Qc /\ dehomogenise v = Behind.X).
    { apply Behind_solution with (r1 := mkVector4 0%Qc 1%Qc 0%Qc 0%Qc);
        solve [assumption | left; reflexivity]. }
    exact (proj2 Hsol).
  - intros gesvd [Hinfo [Hnull Hunit]].
    rewrite Behind_two_view_system in Hnull.
    unfold Calibration.get3DPosition, Calibration.get3DPositionImpl.
    rewrite Behind_two_view_system.
    set (v := m44_3 (snd (gesvd _))) in *.
    inversion Hnull as [|r0 l0 Hr0 Hl0]; subst.
    inversion Hl0 as [|r1 l1 Hr1 Hl1]; subst.
    inversion Hl1 as [|r2 l2 Hr2 Hl2]; subst.
    assert (Hsol : v4_3 v <> 0%Qc /\ dehomogenise v = Behind.X).
    { apply Behind_solution with
        (r1 := mkVector4 0%Qc (Qcopp 1%Qc) 0%Qc 0%Qc);
        solve [assumption | right; reflexivity]. }
    exact (proj2 Hsol).
  - vm_compute. reflexivity.
  - vm_compute. reflexivity.
  - split; [reflexivity |]. rewrite Behind_system. split.
    + repeat constructor; qc_closed.
    + qc_closed.
  - split; [reflexivity |]. rewrite Behind_two_view_system. split.
    + repeat constructor; qc_closed.
    + qc_closed.
Qed.

Lemma v_unit_last_nonzero : v4_3 Behind.v_unit <> 0%Qc.
Proof.
  intros H. apply (f_equal (fun q : Qc => Qnum (this q))) in H.
  vm_compute in H. discriminate H.
Qed.

Lemma Behind_sample_call :
  Calibration.get3DPositionImpl_range Behind.gesvd_sample
    [Behind.Pa; Behind.Pb] [Behind.xa; Behind.xb]
  = inr Behind.X.
Proof.
  rewrite get3DPositionImpl_range_ok by (reflexivity || (simpl; lia)).
  f_equal.
  rewrite dehomogenise_sign_scan by exact Qc_sdiv_sneg_sneg.
  change (last_row_range Behind.gesvd_sample _ _) with Behind.v_unit.
  unfold dehomogenise, Behind.X, Behind.v_unit. simpl.
  f_equal; qc_closed.
Qed.

Lemma get3DPosition_projective_depth_witness :
  (forall a b : Qc, sdiv (sneg a) (sneg b) = sdiv a b)
  /\ Calibration.get3DPositionImpl_range Behind.gesvd_sample
       [Behind.Pa; Behind.Pb] [Behind.xa; Behind.xb]
     = inr Behind.X
  /\ v4_3 Behind.v_unit <> szero
  /\ Behind.X = dehomogenise Behind.v_unit
  /\ (forall P, projective_depth P (dehomogenise Behind.v_unit)
                = sdiv (Calibration.third_row_depth P Behind.v_unit)
                    (v4_3 Behind.v_unit)).
Proof.
  split; [exact Qc_sdiv_sneg_sneg |].
  split; [exact Behind_sample_call |].
  split; [exact v_unit_last_nonzero |].
  split.
  - exact (proj2 (proj1 get3DPosition_projective_depth Qc Scalar_Qc
                    Qc_sdiv_sneg_sneg Behind.gesvd_sample)
             [Behind.Pa; Behind.Pb] [Behind.xa; Behind.xb] Behind.X
             Behind_sample_call).
  - intros P.
    exact (proj2 get3DPosition_projective_depth Qc Scalar_Qc Qc_scalar_field
             P Behind.v_unit v_unit_last_nonzero).
Defined.

(** ** The same on [double] *)

(** On [double] the N-view result is the dehomogenised last row of [Vt]
    for every SVD result, zero or not: the sign scan is never visible. *)
Lemma get3DPositionImpl_range_point_double
    (gesvd : list (Vector4 float) -> Z * Matrix44 float)
    (Ps : list (Matrix34 float)) (pts : list (Vector2 float))
    (X : Vector3 float) :
  Calibration.get3DPositionImpl_range gesvd Ps pts = inr X ->
  X = dehomogenise (last_row_range gesvd Ps pts).
Proof.
  apply get3DPositionImpl_range_point. exact double_div_opp_opp.
Qed.

(** With either sign of the SVD solution the [double] code returns a point
    with [z = 0.6 / -0.8], of negative projective depth for both cameras. *)
Example get3DPosition_behind_cameras_double :
  let z := (BehindDouble.c06 / - BehindDouble.c08)%float in
  Calibration.get3DPosition_vector BehindDouble.gesvd_plus
    BehindDouble.levenbergMarquardt_sample
    [BehindDouble.Pa; BehindDouble.Pb] [BehindDouble.xa; BehindDouble.xb] 0%N
  = inr (mkVector3 (-0)%float (-0)%float z)
  /\ Calibration.get3DPosition_vector BehindDouble.gesvd_minus
       BehindDouble.levenbergMarquardt_sample
       [BehindDouble.Pa; BehindDouble.Pb] [BehindDouble.xa; BehindDouble.xb]
       0%N
     = inr (mkVector3 0%float 0%float z)
  /\ Calibration.get3DPosition BehindDouble.gesvd_plus BehindDouble.Pa
       BehindDouble.Pb BehindDouble.xa BehindDouble.xb
     = mkVector3 (-0)%float (-0)%float z
  /\ PrimFloat.ltb z 0%float = true
  /\ projective_depth BehindDouble.Pa (mkVector3 0%float 0%float z) = z
  /\ projective_depth BehindDouble.Pb (mkVector3 0%float 0%float z) = z.
Proof. repeat split; vm_compute; reflexivity. Qed.

(** * Further properties *)

(** ** ProjectPoint: the overloads *)

(** X1: The 3D overload is the 4D overload at the homogeneous coordinate [1]:
    wherever [x * 1 = x], as in exact arithmetic, and for every [double]. *)
Theorem ProjectPoint4_of_homogeneous :
  (forall (T : Type) (ST : Scalar T),
     (forall x : T, smul x sone = x) ->
     forall (P : Matrix34 T) (v : Vector3 T),
       Geometry.ProjectPoint4 P (homogeneous v) = Geometry.ProjectPoint3 P v)
  /\ (forall (P : Matrix34 float) (v : Vector3 float),
        Geometry.ProjectPoint4 P (homogeneous v)
        = Geometry.ProjectPoint3 P v).
Proof.
  split.
  - intros T ST H1 P v.
    unfold Geometry.ProjectPoint4, Geometry.ProjectPoint3, homogeneous.
    cbn [v4_0 v4_1 v4_2 v4_3]. rewrite !H1. reflexivity.
  - intros P v.
    unfold Geometry.ProjectPoint4, Geometry.ProjectPoint3, homogeneous.
    cbn [v4_0 v4_1 v4_2 v4_3 sone smul Scalar_double].
    rewrite !double_mul_one. reflexivity.
Qed.

Lemma ProjectPoint4_of_homogeneous_witness :
  (forall x : Qc, smul x sone = x)
  /\ Geometry.ProjectPoint4 Samples.P_q (homogeneous Behind.X)
     = Geometry.ProjectPoint3 Samples.P_q Behind.X.
Proof.
  split; [exact Qc_smul_1_r |].
  exact (proj1 ProjectPoint4_of_homogeneous Qc Scalar_Qc Qc_smul_1_r
           Samples.P_q Behind.X).
Defined.

(** X2: The 2D overload on a 3x4 matrix is, in every arithmetic, the 3x3
    overload on the matrix without its third column; so, in exact
    arithmetic, a camera maps the points of the plane [z = 0] as that 3x3
    matrix maps their first two coordinates. *)
Theorem ProjectPoint2_skips_third_column (T : Type) (ST : Scalar T)
    (P : Matrix34 T) (v : Vector2 T) :
  Geometry.ProjectPoint P v = Geometry.ProjectPoint (drop_column2 P) v
  /\ ((forall x : T, sadd x szero = x) ->
      (forall x : T, smul x szero = szero) ->
      Geometry.ProjectPoint P (mkVector3 (v2_0 v) (v2_1 v) szero)
      = Geometry.ProjectPoint (drop_column2 P) v).
Proof.
  split; [reflexivity |].
  intros Hadd Hmul.
  unfold Geometry.ProjectPoint, Geometry.ProjectPoint_34_3,
    Geometry.ProjectPoint_33_2, Geometry.ProjectPoint3,
    Geometry.ProjectPoint2_33, drop_column2.
  cbn [v3_0 v3_1 v3_2 m33_0 m33_1 m33_2].
  rewrite !Hmul, !Hadd. reflexivity.
Qed.

Lemma ProjectPoint2_skips_third_column_witness :
  (forall x : Qc, sadd x szero = x)
  /\ (forall x : Qc, smul x szero = szero)
  /\ Geometry.ProjectPoint Samples.P_q
       (mkVector3 (v2_0 Samples.to_q) (v2_1 Samples.to_q) szero)
     = Geometry.ProjectPoint (drop_column2 Samples.P_q) Samples.to_q.
Proof.
  split; [exact Qc_sadd_0_r |]. split; [exact Qc_smul_0_r |].
  exact (proj2 (ProjectPoint2_skips_third_column Qc Scalar_Qc Samples.P_q
                  Samples.to_q) Qc_sadd_0_r Qc_smul_0_r).
Defined.

(** ** project_points *)

Section TransformFacts.
Context {A B C : Type}.
Variable binary_op : A -> B -> C.
Variable b : B.

Lemma transform_back_inserter (range1 : list A) :
  forall (first2 : nat -> B) (c : list C),
    (forall i, first2 i = b) ->
    std.transform range1 first2 (std.back_inserter c) binary_op
    = Some (std.back_inserter (c ++ map (fun a => binary_op a b) range1)).
Proof.
  induction range1 as [|a rest IH]; intros first2 c Hb.
  - cbn [std.transform map]. rewrite app_nil_r. reflexivity.
  - cbn [std.transform map].
    unfold std.assign_next at 1, std.OutputIterator_back_insert at 1.
    cbn [std.container]. rewrite IH by (intros i; apply Hb).
    rewrite Hb, <- app_assoc. reflexivity.
Qed.

(** Writing [range1] through an iterator at [pos] that has room for it. *)
Lemma transform_vector_iterator (range1 : list A) :
  forall (first2 : nat -> B) (pre post : list C),
    (forall i, first2 i = b) ->
    length range1 <= length post ->
    std.transform range1 first2
      (std.mk_vector_iterator (pre ++ post) (length pre)) binary_op
    = Some (std.mk_vector_iterator
              (pre ++ map (fun a => binary_op a b) range1
               ++ skipn (length range1) post)
              (length pre + length range1)).
Proof.
  induction range1 as [|a rest IH]; intros first2 pre post Hb Hlen.
  - cbn [std.transform map length skipn app]. rewrite Nat.add_0_r.
    reflexivity.
  - destruct post as [|c post]; [cbn [length] in Hlen; lia |].
    cbn [length] in Hlen.
    cbn [std.transform].
    unfold std.assign_next at 1, std.OutputIterator_vector at 1.
    cbn [std.storage std.position].
    replace (length pre <? length (pre ++ c :: post)) with true
      by (symmetry; apply Nat.ltb_lt; rewrite length_app; cbn [length]; lia).
    rewrite firstn_app, firstn_all, Nat.sub_diag. cbn [firstn].
    rewrite app_nil_r.
    replace (skipn (S (length pre)) (pre ++ c :: post)) with post.
    2:{ rewrite skipn_app, skipn_all2 by lia.
        replace (S (length pre) - length pre) with 1 by lia. reflexivity. }
    rewrite Hb.
    replace (pre ++ binary_op a b :: post)
      with ((pre ++ [binary_op a b]) ++ post)
      by (rewrite <- app_assoc; reflexivity).
    replace (S (length pre)) with (length (pre ++ [binary_op a b]))
      by (rewrite length_app; cbn [length]; lia).
    rewrite IH by (solve [intros i; apply Hb | lia]).
    rewrite length_app. cbn [length map skipn app].
    rewrite <- app_assoc. cbn [app].
    f_equal. f_equal. lia.
Qed.

(** Writing more elements than the vector has left runs over its end. *)
Lemma transform_vector_overrun (range1 : list A) :
  forall (first2 : nat -> B) (pre post : list C),
    (forall i, first2 i = b) ->
    length post < length range1 ->
    std.transform range1 first2
      (std.mk_vector_iterator (pre ++ post) (length pre)) binary_op
    = None.
Proof.
  induction range1 as [|a rest IH]; intros first2 pre post Hb Hlen.
  - cbn [length] in Hlen. lia.
  - cbn [length] in Hlen. cbn [std.transform].
    unfold std.assign_next at 1, std.OutputIterator_vector at 1.
    cbn [std.storage std.position].
    destruct post as [|c post].
    + rewrite app_nil_r, Nat.ltb_irrefl. reflexivity.
    + cbn [length] in Hlen.
      replace (length pre <? length (pre ++ c :: post)) with true
        by (symmetry; apply Nat.ltb_lt; rewrite length_app; cbn [length];
            lia).
      rewrite firstn_app, firstn_all, Nat.sub_diag. cbn [firstn].
      rewrite app_nil_r.
      replace (skipn (S (length pre)) (pre ++ c :: post)) with post.
      2:{ rewrite skipn_app, skipn_all2 by lia.
          replace (S (length pre) - length pre) with 1 by lia. reflexivity. }
      replace (pre ++ binary_op a (first2 0) :: post)
        with ((pre ++ [binary_op a (first2 0)]) ++ post)
        by (rewrite <- app_assoc; reflexivity).
      replace (S (length pre))
        with (length (pre ++ [binary_op a (first2 0)]))
        by (rewrite length_app; cbn [length]; lia).
      apply IH; [intros i; apply Hb | lia].
Qed.
End TransformFacts.

Section ProjectPointsFacts.
Context {T : Type} {ST : Scalar T}.
Context {M V : Type} {overload : Geometry.ProjectPoint_overload (T := T) M V}.
Variable identity_begin : M -> nat -> M.
Variable projection : M.

(** The identity container hands out the matrix it was built from. *)
Hypothesis identity_begin_projection :
  forall i, identity_begin projection i = projection.

(** X3: With a [std::back_inserter] as output, [project_points] appends the
    projection of each input point, in input order, to the container, and
    leaves what the container held before in place. *)
Theorem project_points_back_inserter (range : list V)
    (c : list (Vector2 T)) :
  Geometry.project_points identity_begin projection range
    (std.back_inserter c)
  = Some (std.back_inserter
            (c ++ map (Geometry.ProjectPoint projection) range)).
Proof.
  unfold Geometry.project_points.
  rewrite (transform_back_inserter _ projection)
    by exact identity_begin_projection.
  reflexivity.
Qed.

(** X4: With [c.begin()] as output, [project_points] overwrites the first
    [n] elements of [c] with the projections of the [n] input points and
    leaves the others and the size as they were; when [c] has fewer than
    [n] elements it writes past the end of [c]. *)
Theorem project_points_begin (range : list V) (c : list (Vector2 T)) :
  Geometry.project_points identity_begin projection range (std.begin c)
  = if length range <=? length c
    then Some (std.mk_vector_iterator
                 (map (Geometry.ProjectPoint projection) range
                  ++ skipn (length range) c)
                 (length range))
    else None.
Proof.
  unfold Geometry.project_points, std.begin.
  destruct (Nat.leb_spec (length range) (length c)) as [Hle | Hlt].
  - exact (transform_vector_iterator _ projection range
             (identity_begin projection) [] c identity_begin_projection Hle).
  - exact (transform_vector_overrun _ projection range
             (identity_begin projection) [] c identity_begin_projection Hlt).
Qed.
End ProjectPointsFacts.

Lemma project_points_back_inserter_witness :
  (forall i : nat, (fun (m : Matrix34 Qc) (_ : nat) => m) Samples.P_q i
                   = Samples.P_q)
  /\ Geometry.project_points (fun m _ => m) Samples.P_q
       [Behind.X; Behind.X] (std.back_inserter [Behind.xa])
     = Some (std.back_inserter
               [Behind.xa; Geometry.ProjectPoint3 Samples.P_q Behind.X;
                Geometry.ProjectPoint3 Samples.P_q Behind.X]).
Proof.
  split; [intros i; reflexivity |].
  exact (project_points_back_inserter (fun m _ => m) Samples.P_q
           (fun i => eq_refl) [Behind.X; Behind.X] [Behind.xa]).
Defined.

Lemma project_points_begin_witness :
  (forall i : nat, (fun (m : Matrix34 Qc) (_ : nat) => m) Samples.P_q i
                   = Samples.P_q)
  /\ Geometry.project_points (fun m _ => m) Samples.P_q
       [Behind.X] (std.begin [Behind.xa; Behind.xb])
     = Some (std.mk_vector_iterator
               [Geometry.ProjectPoint3 Samples.P_q Behind.X; Behind.xb] 1)
  /\ Geometry.project_points (fun m _ => m) Samples.P_q
       [Behind.X; Behind.X] (std.begin [Behind.xa])
     = None.
Proof.
  split; [intros i; reflexivity |]. split.
  - exact (project_points_begin (fun m _ => m) Samples.P_q
             (fun i => eq_refl) [Behind.X] [Behind.xa; Behind.xb]).
  - exact (project_points_begin (fun m _ => m) Samples.P_q
             (fun i => eq_refl) [Behind.X; Behind.X] [Behind.xa]).
Defined.

(** ** Exact arithmetic: homogeneity and composition of the projection *)

Section ExactProjection.
Context {T : Type} {ST : Scalar T}.
Local Open Scope scalar_scope.

Hypothesis scalar_field :
  field_theory 0 1 sadd smul ssub sneg sdiv (fun x => 1 / x) (@eq T).

Add Field scalar_field_projection : scalar_field.

Lemma scaled_quotient (s a b : T) :
  s <> 0 -> b <> 0 -> (s * a) / (s * b) = a / b.
Proof. intros Hs Hb. field. split; assumption. Qed.

Lemma product_nonzero (a b : T) : a <> 0 -> b <> 0 -> a * b <> 0.
Proof.
  intros Ha Hb H. apply Ha.
  replace a with (a * b / b) by (field; exact Hb).
  rewrite H. field. exact Hb.
Qed.

Lemma sone_nonzero : (1 : T) <> 0.
Proof. exact (F_1_neq_0 scalar_field). Qed.

(** X5: Homogeneous coordinates: the projection does not change when the
    4-vector is multiplied by [s <> 0] (where the denominator is not zero). *)
Theorem ProjectPoint4_scale_invariant (P : Matrix34 T) (v : Vector4 T)
    (s : T) :
  s <> 0 -> Calibration.third_row_depth P v <> 0 ->
  Geometry.ProjectPoint4 P (ublas.scale4 s v) = Geometry.ProjectPoint4 P v.
Proof.
  intros Hs Hd.
  unfold Geometry.ProjectPoint4, ublas.scale4, Calibration.third_row_depth
    in *.
  cbn [v4_0 v4_1 v4_2 v4_3].
  assert (Hrow : forall a b c d : T,
             a * (s * v4_0 v) + b * (s * v4_1 v) + c * (s * v4_2 v)
             + d * (s * v4_3 v)
             = s * (a * v4_0 v + b * v4_1 v + c * v4_2 v + d * v4_3 v))
    by (intros; ring).
  rewrite !Hrow. rewrite !scaled_quotient by assumption. reflexivity.
Qed.

(** X6: A projection matrix is homogeneous as well: [s * P] projects as [P]. *)
Theorem ProjectPoint3_matrix_scale_invariant (P : Matrix34 T)
    (X : Vector3 T) (s : T) :
  s <> 0 -> projective_depth P X <> 0 ->
  Geometry.ProjectPoint3 (scale34 s P) X = Geometry.ProjectPoint3 P X.
Proof.
  intros Hs Hd.
  unfold Geometry.ProjectPoint3, scale34, ublas.scale4, projective_depth
    in *.
  cbn [v4_0 v4_1 v4_2 v4_3 m34_0 m34_1 m34_2].
  assert (Hrow : forall a b c d : T,
             s * a * v3_0 X + s * b * v3_1 X + s * c * v3_2 X + s * d
             = s * (a * v3_0 X + b * v3_1 X + c * v3_2 X + d))
    by (intros; ring).
  rewrite !Hrow. rewrite !scaled_quotient by assumption. reflexivity.
Qed.

(** X7: Projecting with [prod( K, P )] is projecting with [P] and mapping the
    image point with the 3x3 matrix [K]. *)
Theorem ProjectPoint3_prod (K : Matrix33 T) (P : Matrix34 T)
    (X : Vector3 T) :
  projective_depth P X <> 0 ->
  projective_depth (ublas.prod33_34 K P) X <> 0 ->
  Geometry.ProjectPoint3 (ublas.prod33_34 K P) X
  = Geometry.ProjectPoint2_33 K (Geometry.ProjectPoint3 P X).
Proof.
  intros Hd Hk.
  unfold Geometry.ProjectPoint3, Geometry.ProjectPoint2_33, projective_depth,
    ublas.prod33_34, ublas.row_prod34, ublas.row_prod3, ublas.col34_0,
    ublas.col34_1, ublas.col34_2, ublas.col34_3 in *.
  cbn [v4_0 v4_1 v4_2 v4_3 m34_0 m34_1 m34_2 v3_0 v3_1 v3_2 v2_0 v2_1] in *.
  set (e1 := v4_0 (m34_0 P) * v3_0 X + v4_1 (m34_0 P) * v3_1 X
             + v4_2 (m34_0 P) * v3_2 X + v4_3 (m34_0 P)) in *.
  set (e2 := v4_0 (m34_1 P) * v3_0 X + v4_1 (m34_1 P) * v3_1 X
             + v4_2 (m34_1 P) * v3_2 X + v4_3 (m34_1 P)) in *.
  set (e3 := v4_0 (m34_2 P) * v3_0 X + v4_1 (m34_2 P) * v3_1 X
             + v4_2 (m34_2 P) * v3_2 X + v4_3 (m34_2 P)) in *.
  assert (Hrow : forall r : Vector3 T,
             (0 + v3_0 r * v4_0 (m34_0 P) + v3_1 r * v4_0 (m34_1 P)
              + v3_2 r * v4_0 (m34_2 P)) * v3_0 X
             + (0 + v3_0 r * v4_1 (m34_0 P) + v3_1 r * v4_1 (m34_1 P)
                + v3_2 r * v4_1 (m34_2 P)) * v3_1 X
             + (0 + v3_0 r * v4_2 (m34_0 P) + v3_1 r * v4_2 (m34_1 P)
                + v3_2 r * v4_2 (m34_2 P)) * v3_2 X
             + (0 + v3_0 r * v4_3 (m34_0 P) + v3_1 r * v4_3 (m34_1 P)
                + v3_2 r * v4_3 (m34_2 P))
             = v3_0 r * e1 + v3_1 r * e2 + v3_2 r * e3)
    by (intros r; unfold e1, e2, e3; ring).
  rewrite !Hrow in *.
  clearbody e1 e2 e3.
  assert (Hden : v3_0 (m33_2 K) * (e1 / e3) + v3_1 (m33_2 K) * (e2 / e3)
                 + v3_2 (m33_2 K)
                 = (v3_0 (m33_2 K) * e1 + v3_1 (m33_2 K) * e2
                    + v3_2 (m33_2 K) * e3) / e3)
    by (field; exact Hd).
  assert (Hden_nz : v3_0 (m33_2 K) * (e1 / e3) + v3_1 (m33_2 K) * (e2 / e3)
                    + v3_2 (m33_2 K) <> 0).
  { rewrite Hden. intros H. apply Hk.
    replace (v3_0 (m33_2 K) * e1 + v3_1 (m33_2 K) * e2
             + v3_2 (m33_2 K) * e3)
      with ((v3_0 (m33_2 K) * e1 + v3_1 (m33_2 K) * e2
             + v3_2 (m33_2 K) * e3) / e3 * e3) by (field; exact Hd).
    rewrite H. ring. }
  set (d := v3_0 (m33_2 K) * (e1 / e3) + v3_1 (m33_2 K) * (e2 / e3)
            + v3_2 (m33_2 K)) in *.
  f_equal.
  - replace (v3_0 (m33_0 K) * e1 + v3_1 (m33_0 K) * e2
             + v3_2 (m33_0 K) * e3)
      with ((v3_0 (m33_0 K) * (e1 / e3) + v3_1 (m33_0 K) * (e2 / e3)
             + v3_2 (m33_0 K)) * e3) by (field; exact Hd).
    replace (v3_0 (m33_2 K) * e1 + v3_1 (m33_2 K) * e2
             + v3_2 (m33_2 K) * e3) with (d * e3)
      by (rewrite Hden; field; exact Hd).
    field. split; assumption.
  - replace (v3_0 (m33_1 K) * e1 + v3_1 (m33_1 K) * e2
             + v3_2 (m33_1 K) * e3)
      with ((v3_0 (m33_1 K) * (e1 / e3) + v3_1 (m33_1 K) * (e2 / e3)
             + v3_2 (m33_1 K)) * e3) by (field; exact Hd).
    replace (v3_0 (m33_2 K) * e1 + v3_1 (m33_2 K) * e2
             + v3_2 (m33_2 K) * e3) with (d * e3)
      by (rewrite Hden; field; exact Hd).
    field. split; assumption.
Qed.
End ExactProjection.

(** ** Exact arithmetic: the epipolar distance *)

Section ExactEpipolar.
Context {T : Type} {ST : Scalar T}.
Local Open Scope scalar_scope.

Hypothesis scalar_field :
  field_theory 0 1 sadd smul ssub sneg sdiv (fun x => 1 / x) (@eq T).

Add Field scalar_field_epipolar : scalar_field.

Lemma field_sadd_0_l (x : T) : 0 + x = x.
Proof. ring. Qed.

Lemma field_smul_1_r (x : T) : x * 1 = x.
Proof. ring. Qed.

Lemma Evaluate_as_line (F : Matrix33 T) (from to : Vector2 T) :
  Algorithm.EvaluateFundamentalMatrix F from to
  = line_term (epipolar_line F from) to * line_term (epipolar_line F from) to
    / line_norm2 (epipolar_line F from).
Proof. reflexivity. Qed.

Lemma epipolar_line_scale33 (s : T) (F : Matrix33 T) (from : Vector2 T) :
  epipolar_line (scale33 s F) from = scale3 s (epipolar_line F from).
Proof.
  unfold epipolar_line, scale33, scale3.
  cbn [v3_0 v3_1 v3_2 m33_0 m33_1 m33_2]. f_equal; ring.
Qed.

Lemma Evaluate_scale33 (s : T) (F : Matrix33 T) (from to : Vector2 T) :
  s <> 0 -> line_norm2 (epipolar_line F from) <> 0 ->
  Algorithm.EvaluateFundamentalMatrix (scale33 s F) from to
  = Algorithm.EvaluateFundamentalMatrix F from to.
Proof.
  intros Hs Hn. rewrite !Evaluate_as_line, epipolar_line_scale33.
  set (l := epipolar_line F from) in *.
  unfold line_term, line_norm2, scale3 in *.
  cbn [v3_0 v3_1 v3_2].
  set (t := v3_0 l * v2_0 to + v3_1 l * v2_1 to + v3_2 l).
  set (n := v3_0 l * v3_0 l + v3_1 l * v3_1 l) in *.
  replace (s * v3_0 l * v2_0 to + s * v3_1 l * v2_1 to + s * v3_2 l)
    with (s * t) by (unfold t; ring).
  replace (s * v3_0 l * (s * v3_0 l) + s * v3_1 l * (s * v3_1 l))
    with (s * s * n) by (unfold n; ring).
  clearbody t n. field. split; assumption.
Qed.

(** X8: A fundamental matrix is defined up to a factor: both evaluators return
    the same distance for [s * F], [s <> 0], as for [F] (where the epipolar
    line is a line: [a^2 + b^2 <> 0]). *)
Theorem pointToPointDist_scale_invariant (s : T) (F : Matrix33 T)
    (from to : Vector2 T) :
  s <> 0 -> line_norm2 (epipolar_line F from) <> 0 ->
  Calibration.pointToPointDist from to (scale33 s F)
  = Calibration.pointToPointDist from to F
  /\ Algorithm.EvaluateFundamentalMatrix (scale33 s F) from to
     = Algorithm.EvaluateFundamentalMatrix F from to.
Proof.
  intros Hs Hn.
  rewrite !(pointToPointDist_Evaluate_exact field_sadd_0_l field_smul_1_r).
  split; apply Evaluate_scale33; assumption.
Qed.

(** X9: The distance is zero for the points of the epipolar line and for no
    other point (where the epipolar line is a line). *)
Theorem EvaluateFundamentalMatrix_zero (F : Matrix33 T)
    (from to : Vector2 T) :
  line_norm2 (epipolar_line F from) <> 0 ->
  (line_term (epipolar_line F from) to = 0 ->
   Algorithm.EvaluateFundamentalMatrix F from to = 0)
  /\ (line_term (epipolar_line F from) to <> 0 ->
      Algorithm.EvaluateFundamentalMatrix F from to <> 0).
Proof.
  intros Hn. rewrite Evaluate_as_line.
  set (t := line_term (epipolar_line F from) to).
  set (n := line_norm2 (epipolar_line F from)) in *.
  clearbody t n. split.
  - intros ->. field. exact Hn.
  - intros Ht H. apply (F_1_neq_0 scalar_field).
    replace 1 with (t * t / n * (n / (t * t)))
      by (field; repeat split; assumption).
    rewrite H. field. exact Ht.
Qed.
Lemma prod33_scale3 (s : T) (F : Matrix33 T) (from : Vector3 T) :
  ublas.prod33 F (scale3 s from) = scale3 s (ublas.prod33 F from).
Proof.
  unfold ublas.prod33, ublas.row_prod3, scale3.
  cbn [v3_0 v3_1 v3_2]. f_equal; ring.
Qed.

(** X10: The 3-vector overload of [pointToPointDist] takes [from] as a
    homogeneous point and [to] as a point of the image: the result does not
    change when [from] is multiplied by [s <> 0] (where the epipolar line is
    a line), and the third element of [to] is never read. *)
Theorem pointToPointDist3_homogeneity (F : Matrix33 T) (from to : Vector3 T) :
  (forall s, s <> 0 -> line_norm2 (ublas.prod33 F from) <> 0 ->
     Calibration.pointToPointDist3 (scale3 s from) to F
     = Calibration.pointToPointDist3 from to F)
  /\ (forall w,
        Calibration.pointToPointDist3 from (mkVector3 (v3_0 to) (v3_1 to) w)
          F
        = Calibration.pointToPointDist3 from to F).
Proof.
  split; [| reflexivity].
  intros s Hs Hn.
  unfold Calibration.pointToPointDist3, Calibration.pointToPointDistImp.
  rewrite prod33_scale3.
  set (l := ublas.prod33 F from) in *.
  unfold line_norm2, scale3 in *. cbn [v3_0 v3_1 v3_2].
  set (t := v3_0 l * v3_0 to + v3_1 l * v3_1 to + v3_2 l).
  set (n := v3_0 l * v3_0 l + v3_1 l * v3_1 l) in *.
  replace (s * v3_0 l * v3_0 to + s * v3_1 l * v3_1 to + s * v3_2 l)
    with (s * t) by (unfold t; ring).
  replace (s * v3_0 l * (s * v3_0 l) + s * v3_1 l * (s * v3_1 l))
    with (s * s * n) by (unfold n; ring).
  clearbody t n. field. split; assumption.
Qed.
End ExactEpipolar.

(** ** IEEE numbers: the sign of the epipolar distance *)

Section Signs.
Variables prec emax : Z.

(** Rounding keeps the sign it is given. *)
Lemma binary_round_aux_sign (s : bool) (m e : Z) (l : location) :
  has_sign_sf s (binary_round_aux prec emax s m e l).
Proof.
  unfold binary_round_aux.
  destruct (shr_fexp prec emax m e l) as [mrs' e'].
  destruct (shr_fexp prec emax _ e' loc_Exact) as [mrs'' e''].
  destruct (shr_m mrs'') as [|p|p]; cbn [has_sign_sf]; try reflexivity.
  destruct (e'' <=? emax - prec)%Z; reflexivity.
Qed.

Lemma binary_round_sign (s : bool) (m : positive) (e : Z) :
  has_sign_sf s (binary_round prec emax s m e).
Proof.
  unfold binary_round.
  destruct (shl_align m e _) as [mz ez]. apply binary_round_aux_sign.
Qed.

Lemma has_sign_not_negative (a : spec_float) :
  has_sign_sf false a -> not_negative_sf a.
Proof. destruct a; exact (fun H => H). Qed.

(** A square has a clear sign bit (or is NaN). *)
Lemma SFmul_self_not_negative (a : spec_float) :
  not_negative_sf (SFmul prec emax a a).
Proof.
  destruct a as [s | s | | s m e]; cbn [SFmul not_negative_sf].
  - apply xorb_nilpotent.
  - apply xorb_nilpotent.
  - exact I.
  - apply has_sign_not_negative. rewrite xorb_nilpotent.
    apply binary_round_aux_sign.
Qed.

Lemma SFadd_not_negative (a b : spec_float) :
  not_negative_sf a -> not_negative_sf b ->
  not_negative_sf (SFadd prec emax a b).
Proof.
  destruct a as [sa | sa | | sa ma ea]; destruct b as [sb | sb | | sb mb eb];
    cbn [not_negative_sf]; intros Ha Hb; subst;
    try exact I; try reflexivity.
  cbn [SFadd cond_Zopp]. apply has_sign_not_negative.
  cbn [Z.add binary_normalize]. apply binary_round_sign.
Qed.

Lemma SFdiv_not_negative (a b : spec_float) :
  not_negative_sf a -> not_negative_sf b ->
  not_negative_sf (SFdiv prec emax a b).
Proof.
  destruct a as [sa | sa | | sa ma ea]; destruct b as [sb | sb | | sb mb eb];
    cbn [not_negative_sf]; intros Ha Hb; subst;
    try exact I; try reflexivity.
  cbn [SFdiv]. apply has_sign_not_negative.
  destruct (SFdiv_core_binary prec emax (Z.pos ma) ea (Z.pos mb) eb)
    as [[mz ez] lz].
  apply binary_round_aux_sign.
Qed.

(** [(t * t) / (a * a + b * b)] has a clear sign bit (or is NaN). *)
Lemma quotient_of_squares_not_negative (t a b : spec_float) :
  not_negative_sf
    (SFdiv prec emax (SFmul prec emax t t)
       (SFadd prec emax (SFmul prec emax a a) (SFmul prec emax b b))).
Proof.
  apply SFdiv_not_negative; [| apply SFadd_not_negative];
    apply SFmul_self_not_negative.
Qed.
End Signs.

(** A number with a clear sign bit, and NaN, do not compare below zero. *)
Lemma not_negative_not_below_zero (a : spec_float) :
  not_negative_sf a -> SFltb a (S754_zero false) = false.
Proof.
  destruct a as [s | s | | s m e]; cbn [not_negative_sf]; intros H; subst;
    reflexivity.
Qed.

(** X11: Neither evaluator ever returns a negative number: on [double] and on
    [float], for all inputs, the result has a clear sign bit or is NaN, and
    [result < 0] is false. *)
Theorem pointToPointDist_never_negative :
  (forall (from to : Vector2 float) (F : Matrix33 float),
     not_negative_sf (Prim2SF (Calibration.pointToPointDist from to F))
     /\ sltb (Calibration.pointToPointDist from to F) szero = false
     /\ not_negative_sf
          (Prim2SF (Algorithm.EvaluateFundamentalMatrix F from to))
     /\ sltb (Algorithm.EvaluateFundamentalMatrix F from to) szero = false)
  /\ (forall (from to : Vector2 spec_float) (F : Matrix33 spec_float),
        not_negative_sf (Calibration.pointToPointDist from to F)
        /\ sltb (Calibration.pointToPointDist from to F) szero = false
        /\ not_negative_sf (Algorithm.EvaluateFundamentalMatrix F from to)
        /\ sltb (Algorithm.EvaluateFundamentalMatrix F from to) szero
           = false).
Proof.
  split.
  - intros from to F.
    assert (HP : not_negative_sf
                   (Prim2SF (Calibration.pointToPointDist from to F))).
    { unfold Calibration.pointToPointDist, Calibration.pointToPointDistImp.
      cbn [sdiv smul sadd Scalar_double].
      rewrite div_spec, add_spec, !mul_spec.
      apply quotient_of_squares_not_negative. }
    assert (HE : not_negative_sf
                   (Prim2SF (Algorithm.EvaluateFundamentalMatrix F from to))).
    { unfold Algorithm.EvaluateFundamentalMatrix.
      cbn [sdiv smul sadd Scalar_double].
      rewrite div_spec, add_spec, !mul_spec.
      apply quotient_of_squares_not_negative. }
    cbn [sltb szero Scalar_double]. rewrite !ltb_spec, Prim2SF_zero.
    repeat split;
      solve [assumption | apply not_negative_not_below_zero; assumption].
  - intros from to F.
    assert (HP : not_negative_sf (Calibration.pointToPointDist from to F))
      by apply quotient_of_squares_not_negative.
    assert (HE : not_negative_sf
                   (Algorithm.EvaluateFundamentalMatrix F from to))
      by apply quotient_of_squares_not_negative.
    repeat split;
      solve [assumption | apply not_negative_not_below_zero; assumption].
Qed.

(** ** N-view triangulation: the outcomes of the entry points *)

Section EntryPoints.
Context {T : Type} {ST : Scalar T}.
Variable gesvd : list (Vector4 T) -> Z * Matrix44 T.
Variable levenbergMarquardt :
  list (Matrix34 T) -> Vector3 T -> list T -> T * Vector3 T.

Lemma get3DPositionImpl_range_svd_failed (Ps : list (Matrix34 T))
    (pts : list (Vector2 T)) :
  2 <= length Ps ->
  fst (gesvd (Calibration.build_system Ps pts)) <> 0%Z ->
  Calibration.get3DPositionImpl_range gesvd Ps pts
  = UBITRACK_THROW Calibration.msg_svd_failed.
Proof.
  intros Hn Hinfo. unfold Calibration.get3DPositionImpl_range.
  destruct (Nat.ltb_spec (length Ps) 2) as [Hlt | _]; [lia |].
  destruct (gesvd (Calibration.build_system Ps pts)) as [info Vt].
  cbn [fst] in Hinfo.
  destruct (Z.eqb_spec info 0) as [-> | _]; [contradiction | reflexivity].
Qed.

Lemma get3DPositionImpl_range_returns (Ps : list (Matrix34 T))
    (pts : list (Vector2 T)) :
  (exists X, Calibration.get3DPositionImpl_range gesvd Ps pts = inr X)
  <-> 2 <= length Ps
      /\ fst (gesvd (Calibration.build_system Ps pts)) = 0%Z.
Proof.
  split.
  - intros [X HX].
    destruct (Nat.lt_ge_cases (length Ps) 2) as [Hlt | Hge].
    { rewrite get3DPositionImpl_range_too_few in HX by exact Hlt.
      discriminate HX. }
    split; [exact Hge |].
    destruct (Z.eq_dec (fst (gesvd (Calibration.build_system Ps pts))) 0)
      as [H0 | Hne]; [exact H0 |].
    rewrite get3DPositionImpl_range_svd_failed in HX by assumption.
    discriminate HX.
  - intros [Hge H0]. eexists.
    apply get3DPositionImpl_range_ok; assumption.
Qed.

(** X12: When the sizes agree and there are at least two views, a non-zero
    [info] of [gesvd] makes both vector entry points throw "SVD for point
    reconstruction failed.", whatever the flag. *)
Theorem get3DPosition_svd_failure (P : list (Matrix34 T))
    (points : list (Vector2 T)) (flag : N) (pResidual : bool) :
  length P = length points -> 2 <= length P ->
  fst (gesvd (Calibration.build_system P points)) <> 0%Z ->
  Calibration.get3DPosition_vector gesvd levenbergMarquardt P points flag
  = UBITRACK_THROW Calibration.msg_svd_failed
  /\ Calibration.get3DPositionWithResidual gesvd levenbergMarquardt P points
       flag pResidual
     = UBITRACK_THROW Calibration.msg_svd_failed.
Proof.
  intros Hsize Hn Hinfo.
  unfold Calibration.get3DPosition_vector,
    Calibration.get3DPositionWithResidual.
  rewrite Hsize, Nat.eqb_refl. cbn [negb].
  rewrite get3DPositionImpl_range_svd_failed by assumption.
  split; reflexivity.
Qed.

(** X13: [get3DPosition( P, points, flag )] returns a point exactly when the two
    vectors have the same size, of at least two, and [gesvd] reports
    success; in every other case it throws. *)
Theorem get3DPosition_vector_returns_iff (P : list (Matrix34 T))
    (points : list (Vector2 T)) (flag : N) :
  (exists X,
     Calibration.get3DPosition_vector gesvd levenbergMarquardt P points flag
     = inr X)
  <-> length P = length points /\ 2 <= length P
      /\ fst (gesvd (Calibration.build_system P points)) = 0%Z.
Proof.
  unfold Calibration.get3DPosition_vector.
  destruct (Nat.eqb_spec (length P) (length points)) as [Hsize | Hsize];
    cbn [negb].
  - rewrite <- get3DPositionImpl_range_returns.
    destruct (Calibration.get3DPositionImpl_range gesvd P points)
      as [e | X0]; cbn [bind ret Monad_Result Monad_either].
    + split.
      * intros [X HX]. discriminate HX.
      * intros [_ [X HX]]. discriminate HX.
    + split.
      * intros _. split; [exact Hsize | eexists; reflexivity].
      * intros _. destruct (0 <? flag)%N; eexists; reflexivity.
  - split.
    + intros [X HX]. discriminate HX.
    + intros [H _]. contradiction.
Qed.

(** X14: With [flag = 0] the optimiser is not consulted, and every [flag > 0]
    gives the same result: the optimiser's parameters, started from the
    linear solution. *)
Theorem get3DPosition_flag (P : list (Matrix34 T))
    (points : list (Vector2 T)) :
  (forall levenbergMarquardt',
     Calibration.get3DPosition_vector gesvd levenbergMarquardt P points 0%N
     = Calibration.get3DPosition_vector gesvd levenbergMarquardt' P points
         0%N)
  /\ (forall flag flag', (0 < flag)%N -> (0 < flag')%N ->
        Calibration.get3DPosition_vector gesvd levenbergMarquardt P points
          flag
        = Calibration.get3DPosition_vector gesvd levenbergMarquardt P points
            flag')
  /\ (forall flag X,
        (0 < flag)%N -> length P = length points ->
        Calibration.get3DPositionImpl_range gesvd P points = inr X ->
        Calibration.get3DPosition_vector gesvd levenbergMarquardt P points
          flag
        = inr (snd (levenbergMarquardt P X
                      (flat_map (fun p => [v2_0 p; v2_1 p]) points)))).
Proof.
  split; [| split].
  - intros lm'. reflexivity.
  - intros flag flag' Hf Hf'. unfold Calibration.get3DPosition_vector.
    apply N.ltb_lt in Hf, Hf'. rewrite Hf, Hf'. reflexivity.
  - intros flag X Hf Hsize HX. unfold Calibration.get3DPosition_vector.
    rewrite Hsize, Nat.eqb_refl. cbn [negb]. rewrite HX.
    cbn [bind ret Monad_Result Monad_either].
    apply N.ltb_lt in Hf. rewrite Hf.
    unfold Calibration.optimize3DPositionImpl.
    rewrite Hsize, firstn_all. reflexivity.
Qed.

(** X15: [get3DPositionWithResidual] returns the point [get3DPosition] returns
    (and throws what it throws); it stores a residual exactly when it
    returns, [flag > 0] and [pResidual] is not null. *)
Theorem get3DPositionWithResidual_point (P : list (Matrix34 T))
    (points : list (Vector2 T)) (flag : N) (pResidual : bool) :
  returned_point
    (Calibration.get3DPositionWithResidual gesvd levenbergMarquardt P points
       flag pResidual)
  = Calibration.get3DPosition_vector gesvd levenbergMarquardt P points flag
  /\ (forall X residual,
        Calibration.get3DPositionWithResidual gesvd levenbergMarquardt P
          points flag pResidual
        = inr (X, residual) ->
        (residual <> None <-> (0 < flag)%N /\ pResidual = true)).
Proof.
  unfold Calibration.get3DPositionWithResidual,
    Calibration.get3DPosition_vector.
  destruct (negb (length P =? length points)).
  { split; [reflexivity | intros X r H; discriminate H]. }
  destruct (Calibration.get3DPositionImpl_range gesvd P points) as [e | X0];
    cbn [bind ret Monad_Result Monad_either].
  { split; [reflexivity | intros X r H; discriminate H]. }
  destruct (N.ltb_spec 0 flag) as [Hf | Hf].
  - destruct (Calibration.optimize3DPositionImpl levenbergMarquardt P points
                X0) as [res par].
    cbn [snd returned_point]. split; [reflexivity |].
    intros X r H. injection H as _ <-.
    destruct pResidual; split.
    + intros _. split; [exact Hf | reflexivity].
    + intros _. discriminate.
    + intros H. contradiction.
    + intros [_ H]. discriminate H.
  - cbn [returned_point]. split; [reflexivity |].
    intros X r H. injection H as _ <-. split.
    + intros H. contradiction.
    + intros [H _]. lia.
Qed.
End EntryPoints.

(** ** Exact arithmetic: the linear systems of the triangulation *)

Section ExactTriangulation.
Context {T : Type} {ST : Scalar T}.
Local Open Scope scalar_scope.

Hypothesis scalar_field :
  field_theory 0 1 sadd smul ssub sneg sdiv (fun x => 1 / x) (@eq T).

Add Field scalar_field_triangulation : scalar_field.

Lemma inner4_homogeneous (r : Vector4 T) (X : Vector3 T) :
  inner4 r (homogeneous X) = projective_row r X.
Proof.
  unfold inner4, homogeneous, projective_row.
  cbn [v4_0 v4_1 v4_2 v4_3]. ring.
Qed.

Lemma ProjectPoint3_rows (P : Matrix34 T) (X : Vector3 T) :
  Geometry.ProjectPoint3 P X
  = mkVector2 (projective_row (m34_0 P) X / projective_row (m34_2 P) X)
              (projective_row (m34_1 P) X / projective_row (m34_2 P) X).
Proof. reflexivity. Qed.

(** A row [x * P_2 - P_i] of the two-view system. *)
Lemma inner4_two_view_row (x : T) (r2 ri v : Vector4 T) :
  inner4 (ublas.minus4 (ublas.scale4 x r2) ri) v
  = x * inner4 r2 v - inner4 ri v.
Proof.
  unfold inner4, ublas.minus4, ublas.scale4.
  cbn [v4_0 v4_1 v4_2 v4_3]. ring.
Qed.

(** The three rows of a block [prod( skew, P )] of the N-view system. *)
Lemma inner4_skew_row0 (pt : Vector2 T) (P : Matrix34 T) (v : Vector4 T) :
  inner4 (m34_0 (ublas.prod33_34 (Calibration.skew pt) P)) v
  = inner4 (m34_1 P) v - v2_1 pt * inner4 (m34_2 P) v.
Proof.
  unfold inner4, ublas.prod33_34, ublas.row_prod34, ublas.row_prod3,
    Calibration.skew, ublas.col34_0, ublas.col34_1, ublas.col34_2,
    ublas.col34_3.
  cbn [v4_0 v4_1 v4_2 v4_3 v3_0 v3_1 v3_2 m34_0 m33_0]. ring.
Qed.

Lemma inner4_skew_row1 (pt : Vector2 T) (P : Matrix34 T) (v : Vector4 T) :
  inner4 (m34_1 (ublas.prod33_34 (Calibration.skew pt) P)) v
  = v2_0 pt * inner4 (m34_2 P) v - inner4 (m34_0 P) v.
Proof.
  unfold inner4, ublas.prod33_34, ublas.row_prod34, ublas.row_prod3,
    Calibration.skew, ublas.col34_0, ublas.col34_1, ublas.col34_2,
    ublas.col34_3.
  cbn [v4_0 v4_1 v4_2 v4_3 v3_0 v3_1 v3_2 m34_1 m33_1]. ring.
Qed.

Lemma inner4_skew_row2 (pt : Vector2 T) (P : Matrix34 T) (v : Vector4 T) :
  inner4 (m34_2 (ublas.prod33_34 (Calibration.skew pt) P)) v
  = v2_1 pt * inner4 (m34_0 P) v - v2_0 pt * inner4 (m34_1 P) v.
Proof.
  unfold inner4, ublas.prod33_34, ublas.row_prod34, ublas.row_prod3,
    Calibration.skew, ublas.col34_0, ublas.col34_1, ublas.col34_2,
    ublas.col34_3.
  cbn [v4_0 v4_1 v4_2 v4_3 v3_0 v3_1 v3_2 m34_2 m33_2]. ring.
Qed.

Lemma sub_zero_iff (a b : T) : a - b = 0 <-> a = b.
Proof.
  split; intros H.
  - replace a with (a - b + b) by ring. rewrite H. ring.
  - rewrite H. ring.
Qed.

(** X16: For two views the N-view system and the system of the two-view
    overload have the same solutions. *)
Theorem systems_have_the_same_solutions (P1 P2 : Matrix34 T)
    (x x_ : Vector2 T) (v : Vector4 T) :
  null_vector (Calibration.build_system [P1; P2] [x; x_]) v
  <-> null_vector (Calibration.two_view_system P1 P2 x x_) v.
Proof.
  unfold null_vector, Calibration.two_view_system.
  change (Calibration.build_system [P1; P2] [x; x_])
    with [ m34_0 (ublas.prod33_34 (Calibration.skew x) P1);
           m34_1 (ublas.prod33_34 (Calibration.skew x) P1);
           m34_2 (ublas.prod33_34 (Calibration.skew x) P1);
           m34_0 (ublas.prod33_34 (Calibration.skew x_) P2);
           m34_1 (ublas.prod33_34 (Calibration.skew x_) P2);
           m34_2 (ublas.prod33_34 (Calibration.skew x_) P2) ].
  rewrite !Forall_cons_iff.
  rewrite !inner4_two_view_row, !inner4_skew_row0, !inner4_skew_row1,
    !inner4_skew_row2.
  rewrite !sub_zero_iff.
  split.
  - intros (Ha0 & Ha1 & _ & Hb0 & Hb1 & _ & _).
    repeat split; solve [assumption | symmetry; assumption | constructor].
  - intros (Ha0 & Ha1 & Hb0 & Hb1 & _).
    repeat split;
      solve [assumption | symmetry; assumption | constructor
            | rewrite <- ?Ha0, <- ?Ha1, <- ?Hb0, <- ?Hb1; ring].
Qed.

Lemma two_view_rows_on_projection (P : Matrix34 T) (X : Vector3 T) :
  projective_depth P X <> 0 ->
  inner4 (ublas.minus4
            (ublas.scale4 (v2_0 (Geometry.ProjectPoint3 P X)) (m34_2 P))
            (m34_0 P)) (homogeneous X) = 0
  /\ inner4 (ublas.minus4
               (ublas.scale4 (v2_1 (Geometry.ProjectPoint3 P X)) (m34_2 P))
               (m34_1 P)) (homogeneous X) = 0.
Proof.
  intros Hd. change (projective_row (m34_2 P) X <> 0) in Hd.
  rewrite !inner4_two_view_row, !inner4_homogeneous, ProjectPoint3_rows.
  cbn [v2_0 v2_1]. split; field; exact Hd.
Qed.

Lemma skew_rows_on_projection (P : Matrix34 T) (X : Vector3 T) :
  projective_depth P X <> 0 ->
  let block :=
    ublas.prod33_34 (Calibration.skew (Geometry.ProjectPoint3 P X)) P in
  inner4 (m34_0 block) (homogeneous X) = 0
  /\ inner4 (m34_1 block) (homogeneous X) = 0
  /\ inner4 (m34_2 block) (homogeneous X) = 0.
Proof.
  intros Hd block. change (projective_row (m34_2 P) X <> 0) in Hd.
  unfold block.
  rewrite inner4_skew_row0, inner4_skew_row1, inner4_skew_row2,
    !inner4_homogeneous, ProjectPoint3_rows.
  cbn [v2_0 v2_1]. repeat split; field; exact Hd.
Qed.

Lemma build_system_on_projections (X : Vector3 T) (Ps : list (Matrix34 T)) :
  Forall (fun P => projective_depth P X <> 0) Ps ->
  null_vector
    (Calibration.build_system Ps
       (map (fun P => Geometry.ProjectPoint3 P X) Ps))
    (homogeneous X).
Proof.
  induction 1 as [|P Ps HP _ IH]; cbn [map Calibration.build_system].
  - constructor.
  - destruct (skew_rows_on_projection P X HP) as (H0 & H1 & H2).
    repeat (constructor; [assumption |]). exact IH.
Qed.

Lemma two_view_system_on_projections (X : Vector3 T) (P1 P2 : Matrix34 T) :
  projective_depth P1 X <> 0 -> projective_depth P2 X <> 0 ->
  null_vector
    (Calibration.two_view_system P1 P2 (Geometry.ProjectPoint3 P1 X)
       (Geometry.ProjectPoint3 P2 X))
    (homogeneous X).
Proof.
  intros H1 H2.
  destruct (two_view_rows_on_projection P1 X H1) as [Ha Hb].
  destruct (two_view_rows_on_projection P2 X H2) as [Hc Hd].
  repeat constructor; assumption.
Qed.

(** X17: The systems are built so that the point that was projected solves
    them: for image points that are the exact projections of [X] (at
    non-zero depth), [(X; 1)] is a solution of the N-view system and of the
    two-view system. *)
Theorem projected_point_solves_the_systems (X : Vector3 T)
    (Ps : list (Matrix34 T)) :
  Forall (fun P => projective_depth P X <> 0) Ps ->
  null_vector
    (Calibration.build_system Ps
       (map (fun P => Geometry.ProjectPoint3 P X) Ps))
    (homogeneous X)
  /\ (forall P1 P2, In P1 Ps -> In P2 Ps ->
        null_vector
          (Calibration.two_view_system P1 P2 (Geometry.ProjectPoint3 P1 X)
             (Geometry.ProjectPoint3 P2 X))
          (homogeneous X)).
Proof.
  intros H. split.
  - apply build_system_on_projections, H.
  - intros P1 P2 H1 H2. rewrite Forall_forall in H.
    apply two_view_system_on_projections; apply H; assumption.
Qed.

Lemma build_system_length (Ps : list (Matrix34 T)) :
  forall pts : list (Vector2 T),
    length Ps = length pts ->
    length (Calibration.build_system Ps pts) = (3 * length Ps)%nat.
Proof.
  induction Ps as [|P Ps IH]; intros [|pt pts] Hlen;
    cbn [length] in Hlen; try discriminate Hlen; [reflexivity |].
  cbn [Calibration.build_system length].
  rewrite IH by (injection Hlen as Hlen; exact Hlen). lia.
Qed.

(** X28: For [n] matrices and [n] points the N-view system has [3 n] rows,
    as the matrix [A( n * 3, 4 )] is declared; and in each block the third
    row depends on the other two, [x * row0 + y * row1 + row2 = 0]: a view
    contributes at most two independent equations. *)
Theorem build_system_blocks (Ps : list (Matrix34 T))
    (pts : list (Vector2 T)) :
  (length Ps = length pts ->
   length (Calibration.build_system Ps pts) = (3 * length Ps)%nat)
  /\ (forall (P : Matrix34 T) (pt : Vector2 T) (v : Vector4 T),
        let block := ublas.prod33_34 (Calibration.skew pt) P in
        v2_0 pt * inner4 (m34_0 block) v + v2_1 pt * inner4 (m34_1 block) v
        + inner4 (m34_2 block) v = 0).
Proof.
  split; [apply build_system_length |].
  intros P pt v block. unfold block.
  rewrite inner4_skew_row0, inner4_skew_row1, inner4_skew_row2. ring.
Qed.

Lemma homogeneous_nonzero (X : Vector3 T) : homogeneous X <> zero4.
Proof.
  intros H. apply (f_equal (fun v => v4_3 v)) in H.
  exact (F_1_neq_0 scalar_field H).
Qed.

(** A non-zero multiple of [(X; 1)] is dehomogenised to [X], with or
    without a change of sign. *)
Lemma dehomogenise_multiple (X : Vector3 T) (v : Vector4 T) (s : T) :
  v = ublas.scale4 s (homogeneous X) -> v <> zero4 ->
  dehomogenise v = X
  /\ ublas.subrange03 (ublas.div_assign_last (ublas.neg4 v)) = X
  /\ ublas.subrange03 (ublas.div_assign_last v) = X.
Proof.
  intros -> Hnz.
  assert (Hs : s <> 0).
  { intros ->. apply Hnz. unfold ublas.scale4, zero4, homogeneous.
    cbn [v4_0 v4_1 v4_2 v4_3]. f_equal; ring. }
  assert (Hns : - s <> 0).
  { intros H. apply Hs. replace s with (- - s) by ring. rewrite H. ring. }
  destruct X as [X0 X1 X2].
  unfold dehomogenise, ublas.subrange03, ublas.div_assign_last, ublas.neg4,
    ublas.scale4, homogeneous.
  cbn [v4_0 v4_1 v4_2 v4_3 v3_0 v3_1 v3_2].
  repeat split; f_equal; field; assumption.
Qed.

(** X18: Round trip for two views: when the image points are the exact
    projections of [X], the system has no other solutions than one line,
    and the last row of [Vt] is a non-zero solution, [get3DPosition]
    returns [X]. *)
Theorem get3DPosition_round_trip
    (gesvd : list (Vector4 T) -> Z * Matrix44 T)
    (P1 P2 : Matrix34 T) (X : Vector3 T) :
  projective_depth P1 X <> 0 -> projective_depth P2 X <> 0 ->
  let x := Geometry.ProjectPoint3 P1 X in
  let x_ := Geometry.ProjectPoint3 P2 X in
  null_space_is_a_line (Calibration.two_view_system P1 P2 x x_) ->
  null_vector (Calibration.two_view_system P1 P2 x x_)
    (last_row_two_view gesvd P1 P2 x x_) ->
  last_row_two_view gesvd P1 P2 x x_ <> zero4 ->
  Calibration.get3DPosition gesvd P1 P2 x x_ = X.
Proof.
  intros H1 H2 x x_ Hline Hnull Hnz.
  destruct (Hline _ (homogeneous X) Hnull
              (two_view_system_on_projections X P1 P2 H1 H2)
              (homogeneous_nonzero X)) as [s Hs].
  exact (proj1 (dehomogenise_multiple X _ s Hs Hnz)).
Qed.

(** X19: Round trip for N views, with [flag = 0]: when the image points are
    the exact projections of [X], [gesvd] reports success, the system has no
    other solutions than one line, and the last row of [Vt] is a non-zero
    solution, [get3DPosition( P, points, 0 )] returns [X], whichever sign
    the solution has. *)
Theorem get3DPosition_vector_round_trip
    (gesvd : list (Vector4 T) -> Z * Matrix44 T)
    (levenbergMarquardt :
       list (Matrix34 T) -> Vector3 T -> list T -> T * Vector3 T)
    (Ps : list (Matrix34 T)) (X : Vector3 T) :
  2 <= length Ps ->
  Forall (fun P => projective_depth P X <> 0) Ps ->
  let pts := map (fun P => Geometry.ProjectPoint3 P X) Ps in
  fst (gesvd (Calibration.build_system Ps pts)) = 0%Z ->
  null_space_is_a_line (Calibration.build_system Ps pts) ->
  null_vector (Calibration.build_system Ps pts)
    (last_row_range gesvd Ps pts) ->
  last_row_range gesvd Ps pts <> zero4 ->
  Calibration.get3DPosition_vector gesvd levenbergMarquardt Ps pts 0%N
  = inr X.
Proof.
  intros Hn Hd pts Hinfo Hline Hnull Hnz.
  destruct (Hline _ (homogeneous X) Hnull
              (build_system_on_projections X Ps Hd)
              (homogeneous_nonzero X)) as [s Hs].
  destruct (dehomogenise_multiple X _ s Hs Hnz) as (_ & Hneg & Hpos).
  unfold Calibration.get3DPosition_vector.
  unfold pts at 1. rewrite length_map, Nat.eqb_refl. cbn [negb].
  rewrite get3DPositionImpl_range_ok by assumption.
  cbn [bind ret Monad_Result Monad_either].
  change (0 <? 0)%N with false. cbv iota. f_equal.
  destruct (sign_scan_cases Ps (last_row_range gesvd Ps pts)) as [-> | ->];
    assumption.
Qed.
End ExactTriangulation.

(** ** The reconstruction pipeline: exceptions and the size of the result *)

Section PipelineOutcomes.
Context {T : Type} {ST : Scalar T}.
Variable gesvd : list (Vector4 T) -> Z * Matrix44 T.
Variable munkres : list (list T) -> list nat.
Variable indeterminate : T.
Variables (p1 p2 : list (Vector2 T)) (P1 P2 : Matrix34 T) (fM : Matrix33 T).

Lemma reconstruct3DPoints_covered :
  length p1 <= length (munkres (cost_matrix_spec p1 p2 fM)) ->
  Calibration.reconstruct3DPoints gesvd munkres indeterminate p1 p2 P1 P2 fM
  = inr (map (triangulate_row gesvd indeterminate p1 p2 P1 P2
                (munkres (cost_matrix_spec p1 p2 fM)))
           (filter (matched_row p2 (munkres (cost_matrix_spec p1 p2 fM)))
              (seq 0 (length p1)))).
Proof.
  intros Hlen.
  unfold Calibration.reconstruct3DPoints, Calibration.reconstruct3DPointsImpl.
  rewrite cost_matrix_is_spec. cbn [bind ret Monad_Result Monad_either].
  exact (result_loop gesvd indeterminate p1 p2 P1 P2 _ (length p1) 0 []
           eq_refl Hlen).
Qed.

Lemma reconstruct3DPoints_uncovered :
  length (munkres (cost_matrix_spec p1 p2 fM)) < length p1 ->
  Calibration.reconstruct3DPoints gesvd munkres indeterminate p1 p2 P1 P2 fM
  = inl out_of_range.
Proof.
  intros Hlen.
  unfold Calibration.reconstruct3DPoints, Calibration.reconstruct3DPointsImpl.
  rewrite cost_matrix_is_spec. cbn [bind ret Monad_Result Monad_either].
  apply (result_loop_short gesvd indeterminate); lia.
Qed.

(** X20: The loops that fill the cost matrix never throw; [reconstruct3DPoints]
    throws exactly when the row match list of the solver is shorter than
    [p1], and then [std::out_of_range] from [matchList.at( i )]: it throws
    nothing else.  With an empty [p1] it returns the empty list. *)
Theorem reconstruct3DPoints_throws_iff :
  Calibration.cost_matrix indeterminate p1 p2 fM
  = inr (cost_matrix_spec p1 p2 fM)
  /\ (Calibration.reconstruct3DPoints gesvd munkres indeterminate p1 p2 P1 P2
        fM
      = inl out_of_range
      <-> length (munkres (cost_matrix_spec p1 p2 fM)) < length p1)
  /\ (forall e,
        Calibration.reconstruct3DPoints gesvd munkres indeterminate p1 p2 P1
          P2 fM
        = inl e ->
        e = out_of_range)
  /\ (p1 = [] ->
      Calibration.reconstruct3DPoints gesvd munkres indeterminate p1 p2 P1 P2
        fM
      = inr []).
Proof.
  split; [apply cost_matrix_is_spec |].
  destruct (Nat.lt_ge_cases (length (munkres (cost_matrix_spec p1 p2 fM)))
              (length p1)) as [Hlt | Hge].
  - rewrite reconstruct3DPoints_uncovered by exact Hlt.
    split; [split; auto |]. split.
    + intros e He. injection He as <-. reflexivity.
    + intros Hp. rewrite Hp in Hlt. cbn [length] in Hlt. lia.
  - rewrite reconstruct3DPoints_covered by exact Hge.
    split; [split; [discriminate | intros Hlt; exfalso; lia] |]. split.
    + intros e He. discriminate He.
    + intros Hp. rewrite Hp. reflexivity.
Qed.

Lemma filter_none {A : Type} (f : A -> bool) (l : list A) :
  (forall a, f a = false) -> filter f l = [].
Proof.
  intros Hf. induction l as [|a l IH]; [reflexivity |].
  cbn [filter]. rewrite Hf. exact IH.
Qed.

Lemma filter_length_bound {A : Type} (f : A -> bool) (l : list A) :
  length (filter f l) <= length l.
Proof.
  induction l as [|a l IH]; [apply Nat.le_refl |].
  cbn [filter]. destruct (f a); cbn [length]; lia.
Qed.

(** X21: A returned list has one point for each row of [p1] whose match is a
    column of the matrix: never more points than [p1] has, and none when
    [p2] is empty. *)
Theorem reconstruct3DPoints_size (list : list (Vector3 T)) :
  Calibration.reconstruct3DPoints gesvd munkres indeterminate p1 p2 P1 P2 fM
  = inr list ->
  length list
  = length (filter (matched_row p2 (munkres (cost_matrix_spec p1 p2 fM)))
              (seq 0 (length p1)))
  /\ length list <= length p1
  /\ (p2 = [] -> list = []).
Proof.
  intros H.
  destruct (Nat.lt_ge_cases (length (munkres (cost_matrix_spec p1 p2 fM)))
              (length p1)) as [Hlt | Hge].
  { rewrite reconstruct3DPoints_uncovered in H by exact Hlt. discriminate H. }
  rewrite reconstruct3DPoints_covered in H by exact Hge.
  injection H as <-. rewrite length_map.
  split; [reflexivity |]. split.
  - etransitivity; [apply filter_length_bound |].
    rewrite length_seq. apply Nat.le_refl.
  - intros Hp2. rewrite filter_none; [reflexivity |].
    intros i. unfold matched_row. rewrite Hp2. apply Nat.ltb_ge.
    cbn [length]. lia.
Qed.
End PipelineOutcomes.

(** ** The ToolTip RANSAC functor *)

Section RansacFunctorFacts.
Context {T : Type} {ST : Scalar T}.
Variable Pose : Type.
Variable estimatePosition3D_6D_tip :
  Vector3 T -> list Pose -> Vector3 T -> bool * Vector3 T * Vector3 T.
Variable pose_times : Pose -> Vector3 T -> Vector3 T.
Variable norm_2 : Vector3 T -> T.
Variables indeterminate_pw indeterminate_pm : Vector3 T.

(** X23: The three functions agree on the layout of the 6-vector: for the
    vector the estimator writes for [pw] and [pm], the evaluator returns
    [norm_2( pw - p * pm )], and [estimatePosition3D_6D], given that vector
    by the engine, hands back [pw] and [pm]. *)
Theorem Ransac_layout (resultVector : Vector6 T) (poses : list Pose)
    (pw pm : Vector3 T) :
  estimatePosition3D_6D_tip indeterminate_pw poses indeterminate_pm
  = (true, pw, pm) ->
  let toolTip :=
    snd (ToolTip.Estimator estimatePosition3D_6D_tip indeterminate_pw
           indeterminate_pm resultVector poses) in
  (forall p : Pose,
     ToolTip.Evaluator pose_times norm_2 toolTip p
     = norm_2 (ToolTip.minus3 pw (pose_times p pm)))
  /\ (forall (RansacParameter : Type)
        (ransac : list Pose -> Vector6 T -> RansacParameter -> N * Vector6 T)
        (indeterminate : Vector6 T) (params : RansacParameter) (inlier : N),
        ransac poses indeterminate params = (inlier, toolTip) ->
        ToolTip.estimatePosition3D_6D ransac indeterminate poses params
        = ((0 <? inlier)%N, pw, pm)).
Proof.
  intros Hest toolTip. unfold toolTip, ToolTip.Estimator. rewrite Hest.
  cbn [negb snd]. destruct pw as [w0 w1 w2]. destruct pm as [m0 m1 m2].
  split.
  - intros p. reflexivity.
  - intros RP ransac ind params inlier Hr.
    unfold ToolTip.estimatePosition3D_6D. rewrite Hr. reflexivity.
Qed.
End RansacFunctorFacts.

(** ** The storage traits *)

(** X24: For every type argument exactly one of [has_fixed_storage] and
    [has_dynamic_storage] is true; the storage is fixed exactly for the
    vectors [Vector< T, N >] with [N <> 0], and [vector_traits] has a member
    [size] exactly for them, equal to [N]. *)
Theorem storage_traits (VType : Math.type_argument) :
  Math.has_dynamic_storage VType = negb (Math.has_fixed_storage VType)
  /\ (Math.has_fixed_storage VType = true
      <-> exists T N, VType = Math.Vector T N /\ N <> 0)
  /\ (forall N, Math.vector_traits_size VType = Some N
                <-> (exists T, VType = Math.Vector T N) /\ N <> 0).
Proof.
  destruct VType as [T [|n] |]; cbn; split; try reflexivity; split.
  - split; [discriminate |]. intros (T' & N & H & HN).
    injection H as _ <-. contradiction.
  - intros N. split; [discriminate |]. intros [[T' H] HN].
    injection H as _ <-. contradiction.
  - split; [| reflexivity]. intros _. exists T, (S n).
    split; [reflexivity | discriminate].
  - intros N. split.
    + intros H. injection H as <-. split; [exists T; reflexivity |].
      discriminate.
    + intros [[T' H] _]. injection H as _ ->. reflexivity.
  - split; [discriminate |]. intros (T' & N & H & _). discriminate H.
  - intros N. split; [discriminate |]. intros [[T' H] _]. discriminate H.
Qed.

(** ** The correspondences of the projection test *)

(** X25: The 2D point the test computes for a random 3D point, with
    [ublas::prod] and a division by the third element, is the point
    [ProjectPoint] computes (in exact arithmetic). *)
Theorem correspondence_is_ProjectPoint (T : Type) (ST : Scalar T)
    (Ptest : Matrix34 T) (r0 r1 r2 : T) :
  (forall x : T, sadd szero x = x) -> (forall x : T, smul x sone = x) ->
  ProjectionTest.correspondence Ptest r0 r1 r2
  = (mkVector3 r0 r1 r2,
     Geometry.ProjectPoint Ptest (mkVector3 r0 r1 r2)).
Proof.
  intros H0 H1.
  unfold ProjectionTest.correspondence, ProjectionTest.prod34,
    ProjectionTest.row_prod4, Geometry.ProjectPoint,
    Geometry.ProjectPoint_34_3, Geometry.ProjectPoint3.
  cbn [v4_0 v4_1 v4_2 v4_3 v3_0 v3_1 v3_2].
  rewrite !H0, !H1. reflexivity.
Qed.

(** ** The two-view overload and the status of the SVD *)

Section SvdStatus.
Context {T : Type} {ST : Scalar T}.
Variables gesvd gesvd' : list (Vector4 T) -> Z * Matrix44 T.

(** Two SVD routines that return the same [Vt], whatever their [info]. *)
Hypothesis same_Vt : forall A, snd (gesvd A) = snd (gesvd' A).

Lemma get3DPosition_same_Vt (P1 P2 : Matrix34 T) (x x_ : Vector2 T) :
  Calibration.get3DPosition gesvd P1 P2 x x_
  = Calibration.get3DPosition gesvd' P1 P2 x x_.
Proof.
  unfold Calibration.get3DPosition, Calibration.get3DPositionImpl.
  rewrite same_Vt. reflexivity.
Qed.

(** X26: The two-view [get3DPosition] does not look at the [info] code of
    [gesvd]: it returns the quotient of the elements of [Vt] also when the
    SVD failed, and so does [reconstruct3DPoints], which is built on it. *)
Theorem two_view_ignores_svd_status :
  (forall P1 P2 x x_,
     Calibration.get3DPosition gesvd P1 P2 x x_
     = Calibration.get3DPosition gesvd' P1 P2 x x_)
  /\ (forall munkres indeterminate p1 p2 P1 P2 fM,
        Calibration.reconstruct3DPoints gesvd munkres indeterminate p1 p2 P1
          P2 fM
        = Calibration.reconstruct3DPoints gesvd' munkres indeterminate p1 p2
            P1 P2 fM).
Proof.
  split; [exact get3DPosition_same_Vt |].
  intros munkres indeterminate p1 p2 P1 P2 fM.
  destruct (Nat.lt_ge_cases (length (munkres (cost_matrix_spec p1 p2 fM)))
              (length p1)) as [Hlt | Hge].
  - rewrite !reconstruct3DPoints_uncovered by exact Hlt. reflexivity.
  - rewrite !reconstruct3DPoints_covered by exact Hge. f_equal.
    apply map_ext. intros i. apply get3DPosition_same_Vt.
Qed.
End SvdStatus.

Lemma two_view_ignores_svd_status_witness :
  (forall A, snd (Behind.gesvd_sample A) = snd (MoreSamples.gesvd_failed A))
  /\ fst (MoreSamples.gesvd_failed
            (Calibration.two_view_system Behind.Pa Behind.Pb Behind.xa
               Behind.xb)) = 1%Z
  /\ Calibration.get3DPosition Behind.gesvd_sample Behind.Pa Behind.Pb
       Behind.xa Behind.xb
     = Calibration.get3DPosition MoreSamples.gesvd_failed Behind.Pa Behind.Pb
         Behind.xa Behind.xb.
Proof.
  split; [intros A; reflexivity |]. split; [reflexivity |].
  exact (proj1 (@two_view_ignores_svd_status Qc Scalar_Qc
                  Behind.gesvd_sample MoreSamples.gesvd_failed
                  (fun A => eq_refl))
           Behind.Pa Behind.Pb Behind.xa Behind.xb).
Defined.

(** ** The further properties at concrete inputs *)

Lemma Behind_null_components (v r1 : Vector4 Qc) :
  inner4 (mkVector4 (Qcopp 1) 0 0 0)%Qc v = 0%Qc ->
  (r1 = mkVector4 0 1 0 0 \/ r1 = mkVector4 0 (Qcopp 1) 0 0)%Qc ->
  inner4 r1 v = 0%Qc ->
  inner4 (mkVector4 (Qcopp 1) 0 (Samples.qz 4) (Samples.qz 3))%Qc v = 0%Qc ->
  v4_0 v = 0%Qc /\ v4_1 v = 0%Qc
  /\ (Samples.qz 4 * v4_2 v + Samples.qz 3 * v4_3 v = 0)%Qc.
Proof.
  unfold inner4. cbn [v4_0 v4_1 v4_2 v4_3 smul sadd Scalar_Qc].
  intros Ha Hr Hb Hc.
  assert (H0 : v4_0 v = 0%Qc).
  { replace (v4_0 v)
      with (- (Qcopp 1 * v4_0 v + 0 * v4_1 v + 0 * v4_2 v + 0 * v4_3 v))%Qc
      by ring.
    rewrite Ha. ring. }
  assert (H1 : v4_1 v = 0%Qc).
  { destruct Hr as [-> | ->]; cbn [v4_0 v4_1 v4_2 v4_3] in Hb.
    - rewrite <- Hb. ring.
    - replace (v4_1 v)
        with (- (0 * v4_0 v + Qcopp 1 * v4_1 v + 0 * v4_2 v + 0 * v4_3 v))%Qc
        by ring.
      rewrite Hb. ring. }
  split; [exact H0 |]. split; [exact H1 |].
  rewrite <- Hc, H0. ring.
Qed.

Lemma Behind_proportional (u w : Vector4 Qc) :
  v4_0 u = 0%Qc -> v4_1 u = 0%Qc ->
  (Samples.qz 4 * v4_2 u + Samples.qz 3 * v4_3 u = 0)%Qc ->
  v4_0 w = 0%Qc -> v4_1 w = 0%Qc ->
  (Samples.qz 4 * v4_2 w + Samples.qz 3 * v4_3 w = 0)%Qc ->
  w <> zero4 ->
  exists s, u = ublas.scale4 s w.
Proof.
  destruct u as [u0 u1 u2 u3]. destruct w as [w0 w1 w2 w3].
  cbn [v4_0 v4_1 v4_2 v4_3]. intros -> -> Hu -> -> Hw Hnz.
  assert (Hu2 : u2 = (- (Samples.qz 3 / Samples.qz 4) * u3)%Qc).
  { replace u2
      with ((Samples.qz 4 * u2 + Samples.qz 3 * u3) / Samples.qz 4
            - Samples.qz 3 * u3 / Samples.qz 4)%Qc
      by (field; exact qz4_nonzero).
    rewrite Hu. field. exact qz4_nonzero. }
  assert (Hw2 : w2 = (- (Samples.qz 3 / Samples.qz 4) * w3)%Qc).
  { replace w2
      with ((Samples.qz 4 * w2 + Samples.qz 3 * w3) / Samples.qz 4
            - Samples.qz 3 * w3 / Samples.qz 4)%Qc
      by (field; exact qz4_nonzero).
    rewrite Hw. field. exact qz4_nonzero. }
  assert (Hw3 : w3 <> 0%Qc).
  { intros H3. apply Hnz. rewrite Hw2, H3. unfold zero4.
    cbn [szero Scalar_Qc]. f_equal. ring. }
  exists (u3 / w3)%Qc. unfold ublas.scale4.
  cbn [v4_0 v4_1 v4_2 v4_3 smul Scalar_Qc]. rewrite Hu2, Hw2.
  f_equal; field; solve [exact Hw3 | split; [exact qz4_nonzero | exact Hw3]].
Qed.

Lemma Behind_two_view_line :
  null_space_is_a_line
    (Calibration.two_view_system Behind.Pa Behind.Pb Behind.xa Behind.xb).
Proof.
  rewrite Behind_two_view_system. intros u w Hu Hw Hnz.
  unfold null_vector in Hu, Hw. rewrite !Forall_cons_iff in Hu, Hw.
  destruct Hu as (Ua & Ub & Uc & _). destruct Hw as (Wa & Wb & Wc & _).
  destruct (Behind_null_components u _ Ua (or_intror eq_refl) Ub Uc)
    as (U0 & U1 & U2).
  destruct (Behind_null_components w _ Wa (or_intror eq_refl) Wb Wc)
    as (W0 & W1 & W2).
  exact (Behind_proportional u w U0 U1 U2 W0 W1 W2 Hnz).
Qed.

Lemma Behind_system_line :
  null_space_is_a_line
    (Calibration.build_system [Behind.Pa; Behind.Pb] [Behind.xa; Behind.xb]).
Proof.
  rewrite Behind_system. intros u w Hu Hw Hnz.
  unfold null_vector in Hu, Hw. rewrite !Forall_cons_iff in Hu, Hw.
  destruct Hu as (Ub & Ua & _ & _ & Uc & _).
  destruct Hw as (Wb & Wa & _ & _ & Wc & _).
  destruct (Behind_null_components u _ Ua (or_introl eq_refl) Ub Uc)
    as (U0 & U1 & U2).
  destruct (Behind_null_components w _ Wa (or_introl eq_refl) Wb Wc)
    as (W0 & W1 & W2).
  exact (Behind_proportional u w U0 U1 U2 W0 W1 W2 Hnz).
Qed.

Lemma Behind_depths :
  projective_depth Behind.Pa Behind.X <> szero
  /\ projective_depth Behind.Pb Behind.X <> szero.
Proof. split; qc_apart. Qed.

Lemma v_unit_nonzero : Behind.v_unit <> zero4.
Proof.
  intros H. apply (f_equal (fun v => v4_3 v)) in H.
  exact (v_unit_last_nonzero H).
Qed.

Lemma Behind_v_unit_solves :
  null_vector
    (Calibration.two_view_system Behind.Pa Behind.Pb Behind.xa Behind.xb)
    Behind.v_unit
  /\ null_vector
       (Calibration.build_system [Behind.Pa; Behind.Pb]
          [Behind.xa; Behind.xb])
       Behind.v_unit.
Proof.
  rewrite Behind_two_view_system, Behind_system.
  split; repeat constructor; qc_closed.
Qed.

Lemma get3DPosition_round_trip_witness :
  projective_depth Behind.Pa Behind.X <> szero
  /\ projective_depth Behind.Pb Behind.X <> szero
  /\ null_space_is_a_line
       (Calibration.two_view_system Behind.Pa Behind.Pb
          (Geometry.ProjectPoint3 Behind.Pa Behind.X)
          (Geometry.ProjectPoint3 Behind.Pb Behind.X))
  /\ null_vector
       (Calibration.two_view_system Behind.Pa Behind.Pb
          (Geometry.ProjectPoint3 Behind.Pa Behind.X)
          (Geometry.ProjectPoint3 Behind.Pb Behind.X))
       Behind.v_unit
  /\ Behind.v_unit <> zero4
  /\ Calibration.get3DPosition Behind.gesvd_sample Behind.Pa Behind.Pb
       (Geometry.ProjectPoint3 Behind.Pa Behind.X)
       (Geometry.ProjectPoint3 Behind.Pb Behind.X)
     = Behind.X.
Proof.
  destruct Behind_depths as [Ha Hb].
  destruct Behind_images as [Ia Ib].
  destruct Behind_v_unit_solves as [Hnull _].
  pose proof Behind_two_view_line as Hline.
  rewrite <- Ia, <- Ib in Hnull, Hline.
  repeat (split; [assumption || exact v_unit_nonzero |]).
  exact (@get3DPosition_round_trip Qc Scalar_Qc Qc_scalar_field
           Behind.gesvd_sample Behind.Pa Behind.Pb Behind.X Ha Hb Hline
           Hnull v_unit_nonzero).
Defined.

Lemma get3DPosition_vector_round_trip_witness :
  2 <= length [Behind.Pa; Behind.Pb]
  /\ Forall (fun P => projective_depth P Behind.X <> szero)
       [Behind.Pa; Behind.Pb]
  /\ null_space_is_a_line
       (Calibration.build_system [Behind.Pa; Behind.Pb]
          (map (fun P => Geometry.ProjectPoint3 P Behind.X)
             [Behind.Pa; Behind.Pb]))
  /\ null_vector
       (Calibration.build_system [Behind.Pa; Behind.Pb]
          (map (fun P => Geometry.ProjectPoint3 P Behind.X)
             [Behind.Pa; Behind.Pb]))
       Behind.v_unit
  /\ Behind.v_unit <> zero4
  /\ Calibration.get3DPosition_vector Behind.gesvd_sample
       Behind.levenbergMarquardt_sample [Behind.Pa; Behind.Pb]
       (map (fun P => Geometry.ProjectPoint3 P Behind.X)
          [Behind.Pa; Behind.Pb]) 0%N
     = inr Behind.X.
Proof.
  destruct Behind_depths as [Ha Hb].
  destruct Behind_images as [Ia Ib].
  destruct Behind_v_unit_solves as [_ Hnull].
  pose proof Behind_system_line as Hline.
  assert (Hd : Forall (fun P => projective_depth P Behind.X <> szero)
                 [Behind.Pa; Behind.Pb])
    by (repeat constructor; assumption).
  cbn [map]. rewrite <- Ia, <- Ib in Hnull, Hline.
  split; [cbn [length]; lia |].
  repeat (split; [assumption || exact v_unit_nonzero |]).
  exact (@get3DPosition_vector_round_trip Qc Scalar_Qc Qc_scalar_field
           Behind.gesvd_sample Behind.levenbergMarquardt_sample
           [Behind.Pa; Behind.Pb] Behind.X (le_n 2) Hd eq_refl Hline Hnull
           v_unit_nonzero).
Defined.


Lemma qz2_nonzero : Samples.qz 2 <> szero.
Proof. qc_apart. Qed.

Lemma P_q_depth : projective_depth Samples.P_q Behind.X <> szero.
Proof. qc_apart. Qed.

Lemma ProjectPoint4_scale_invariant_witness :
  Samples.qz 2 <> szero
  /\ Calibration.third_row_depth Samples.P_q (homogeneous Behind.X) <> szero
  /\ Geometry.ProjectPoint4 Samples.P_q
       (ublas.scale4 (Samples.qz 2) (homogeneous Behind.X))
     = Geometry.ProjectPoint4 Samples.P_q (homogeneous Behind.X).
Proof.
  assert (Hd : Calibration.third_row_depth Samples.P_q
                 (homogeneous Behind.X) <> szero) by qc_apart.
  split; [exact qz2_nonzero |]. split; [exact Hd |].
  exact (@ProjectPoint4_scale_invariant Qc Scalar_Qc Qc_scalar_field
           Samples.P_q (homogeneous Behind.X) (Samples.qz 2) qz2_nonzero Hd).
Defined.

Lemma ProjectPoint3_matrix_scale_invariant_witness :
  Samples.qz 2 <> szero
  /\ projective_depth Samples.P_q Behind.X <> szero
  /\ Geometry.ProjectPoint3 (scale34 (Samples.qz 2) Samples.P_q) Behind.X
     = Geometry.ProjectPoint3 Samples.P_q Behind.X.
Proof.
  split; [exact qz2_nonzero |]. split; [exact P_q_depth |].
  exact (@ProjectPoint3_matrix_scale_invariant Qc Scalar_Qc Qc_scalar_field
           Samples.P_q Behind.X (Samples.qz 2) qz2_nonzero P_q_depth).
Defined.

Lemma ProjectPoint3_prod_witness :
  projective_depth Samples.P_q Behind.X <> szero
  /\ projective_depth (ublas.prod33_34 MoreSamples.K_q Samples.P_q) Behind.X
     <> szero
  /\ Geometry.ProjectPoint3 (ublas.prod33_34 MoreSamples.K_q Samples.P_q)
       Behind.X
     = Geometry.ProjectPoint2_33 MoreSamples.K_q
         (Geometry.ProjectPoint3 Samples.P_q Behind.X).
Proof.
  assert (Hk : projective_depth
                 (ublas.prod33_34 MoreSamples.K_q Samples.P_q) Behind.X
               <> szero) by qc_apart.
  split; [exact P_q_depth |]. split; [exact Hk |].
  exact (@ProjectPoint3_prod Qc Scalar_Qc Qc_scalar_field MoreSamples.K_q
           Samples.P_q Behind.X P_q_depth Hk).
Defined.

Lemma F_q_line : line_norm2 (epipolar_line Samples.F_q Samples.from_q) <> szero.
Proof. qc_apart. Qed.

Lemma pointToPointDist_scale_invariant_witness :
  Samples.qz 2 <> szero
  /\ line_norm2 (epipolar_line Samples.F_q Samples.from_q) <> szero
  /\ Calibration.pointToPointDist Samples.from_q Samples.to_q
       (scale33 (Samples.qz 2) Samples.F_q)
     = Calibration.pointToPointDist Samples.from_q Samples.to_q Samples.F_q
  /\ Algorithm.EvaluateFundamentalMatrix (scale33 (Samples.qz 2) Samples.F_q)
       Samples.from_q Samples.to_q
     = Algorithm.EvaluateFundamentalMatrix Samples.F_q Samples.from_q
         Samples.to_q.
Proof.
  split; [exact qz2_nonzero |]. split; [exact F_q_line |].
  exact (@pointToPointDist_scale_invariant Qc Scalar_Qc Qc_scalar_field
           (Samples.qz 2) Samples.F_q Samples.from_q Samples.to_q
           qz2_nonzero F_q_line).
Defined.

Lemma EvaluateFundamentalMatrix_zero_witness :
  line_norm2 (epipolar_line Samples.F_q Samples.from_q) <> szero
  /\ line_term (epipolar_line Samples.F_q Samples.from_q)
       MoreSamples.on_line_q = szero
  /\ Algorithm.EvaluateFundamentalMatrix Samples.F_q Samples.from_q
       MoreSamples.on_line_q = szero
  /\ line_term (epipolar_line Samples.F_q Samples.from_q) Samples.to_q
     <> szero
  /\ Algorithm.EvaluateFundamentalMatrix Samples.F_q Samples.from_q
       Samples.to_q <> szero.
Proof.
  assert (Hon : line_term (epipolar_line Samples.F_q Samples.from_q)
                  MoreSamples.on_line_q = szero) by qc_closed.
  assert (Hoff : line_term (epipolar_line Samples.F_q Samples.from_q)
                   Samples.to_q <> szero) by qc_apart.
  split; [exact F_q_line |]. split; [exact Hon |].
  split.
  - exact (proj1 (@EvaluateFundamentalMatrix_zero Qc Scalar_Qc
                    Qc_scalar_field Samples.F_q Samples.from_q
                    MoreSamples.on_line_q F_q_line) Hon).
  - split; [exact Hoff |].
    exact (proj2 (@EvaluateFundamentalMatrix_zero Qc Scalar_Qc
                    Qc_scalar_field Samples.F_q Samples.from_q Samples.to_q
                    F_q_line) Hoff).
Defined.

Lemma get3DPosition_svd_failure_witness :
  length [Behind.Pa; Behind.Pb] = length [Behind.xa; Behind.xb]
  /\ 2 <= length [Behind.Pa; Behind.Pb]
  /\ fst (MoreSamples.gesvd_failed
            (Calibration.build_system [Behind.Pa; Behind.Pb]
               [Behind.xa; Behind.xb])) <> 0%Z
  /\ Calibration.get3DPosition_vector MoreSamples.gesvd_failed
       Behind.levenbergMarquardt_sample [Behind.Pa; Behind.Pb]
       [Behind.xa; Behind.xb] 1%N
     = UBITRACK_THROW Calibration.msg_svd_failed
  /\ Calibration.get3DPositionWithResidual MoreSamples.gesvd_failed
       Behind.levenbergMarquardt_sample [Behind.Pa; Behind.Pb]
       [Behind.xa; Behind.xb] 1%N true
     = UBITRACK_THROW Calibration.msg_svd_failed.
Proof.
  assert (Hinfo : fst (MoreSamples.gesvd_failed
                         (Calibration.build_system [Behind.Pa; Behind.Pb]
                            [Behind.xa; Behind.xb])) <> 0%Z)
    by (cbn [fst MoreSamples.gesvd_failed]; lia).
  split; [reflexivity |]. split; [cbn [length]; lia |].
  split; [exact Hinfo |].
  exact (@get3DPosition_svd_failure Qc Scalar_Qc MoreSamples.gesvd_failed
           Behind.levenbergMarquardt_sample [Behind.Pa; Behind.Pb]
           [Behind.xa; Behind.xb] 1%N true eq_refl (le_n 2) Hinfo).
Defined.

Lemma systems_have_the_same_solutions_witness :
  null_vector
    (Calibration.build_system [Behind.Pa; Behind.Pb] [Behind.xa; Behind.xb])
    Behind.v_unit
  /\ null_vector
       (Calibration.two_view_system Behind.Pa Behind.Pb Behind.xa Behind.xb)
       Behind.v_unit.
Proof.
  assert (H : null_vector
                (Calibration.build_system [Behind.Pa; Behind.Pb]
                   [Behind.xa; Behind.xb]) Behind.v_unit)
    by exact (proj2 Behind_v_unit_solves).
  split; [exact H |].
  exact (proj1 (@systems_have_the_same_solutions Qc Scalar_Qc
                  Qc_scalar_field Behind.Pa Behind.Pb Behind.xa Behind.xb
                  Behind.v_unit) H).
Defined.

Lemma projected_point_solves_the_systems_witness :
  Forall (fun P => projective_depth P Behind.X <> szero)
    [Behind.Pa; Behind.Pb]
  /\ null_vector
       (Calibration.build_system [Behind.Pa; Behind.Pb]
          (map (fun P => Geometry.ProjectPoint3 P Behind.X)
             [Behind.Pa; Behind.Pb]))
       (homogeneous Behind.X).
Proof.
  assert (Hd : Forall (fun P => projective_depth P Behind.X <> szero)
                 [Behind.Pa; Behind.Pb])
    by (repeat constructor; apply Behind_depths).
  split; [exact Hd |].
  exact (proj1 (@projected_point_solves_the_systems Qc Scalar_Qc
                  Qc_scalar_field Behind.X [Behind.Pa; Behind.Pb] Hd)).
Defined.

Lemma reconstruct3DPoints_size_witness :
  Calibration.reconstruct3DPoints Behind.gesvd_sample
    PipelineSample.munkres_sample szero PipelineSample.p1 PipelineSample.p2
    Behind.Pa Behind.Pb Samples.F_q
  = inr [Calibration.get3DPosition Behind.gesvd_sample Behind.Pa Behind.Pb
           Behind.xa Behind.xb]
  /\ length [Calibration.get3DPosition Behind.gesvd_sample Behind.Pa
               Behind.Pb Behind.xa Behind.xb]
     <= length PipelineSample.p1.
Proof.
  assert (H : Calibration.reconstruct3DPoints Behind.gesvd_sample
                PipelineSample.munkres_sample szero PipelineSample.p1
                PipelineSample.p2 Behind.Pa Behind.Pb Samples.F_q
              = inr [Calibration.get3DPosition Behind.gesvd_sample Behind.Pa
                       Behind.Pb Behind.xa Behind.xb]).
  { rewrite reconstruct3DPoints_covered by (simpl; lia).
    reflexivity. }
  split; [exact H |].
  exact (proj1 (proj2 (@reconstruct3DPoints_size Qc Scalar_Qc
                         Behind.gesvd_sample PipelineSample.munkres_sample
                         szero PipelineSample.p1 PipelineSample.p2 Behind.Pa
                         Behind.Pb Samples.F_q _ H))).
Defined.

Lemma Ransac_layout_witness :
  MoreSamples.tip_calibration_sample Behind.X [0; 1] Behind.X
  = (true, Behind.X, MoreSamples.pm_q)
  /\ (forall p : nat,
        ToolTip.Evaluator (fun _ v => v) (@v3_0 Qc)
          (snd (ToolTip.Estimator MoreSamples.tip_calibration_sample Behind.X
                  Behind.X (mkVector6 szero szero szero szero szero szero)
                  [0; 1])) p
        = v3_0 (ToolTip.minus3 Behind.X MoreSamples.pm_q)).
Proof.
  split; [reflexivity |].
  exact (proj1 (@Ransac_layout Qc Scalar_Qc nat
                  MoreSamples.tip_calibration_sample (fun _ v => v) (@v3_0 Qc)
                  Behind.X Behind.X
                  (mkVector6 szero szero szero szero szero szero) [0; 1]
                  Behind.X MoreSamples.pm_q eq_refl)).
Defined.

Lemma correspondence_is_ProjectPoint_witness :
  (forall x : Qc, sadd szero x = x)
  /\ (forall x : Qc, smul x sone = x)
  /\ ProjectionTest.correspondence Samples.P_q szero sone sone
     = (mkVector3 szero sone sone,
        Geometry.ProjectPoint Samples.P_q (mkVector3 szero sone sone)).
Proof.
  split; [exact Qc_sadd_0_l |]. split; [exact Qc_smul_1_r |].
  exact (correspondence_is_ProjectPoint Qc Scalar_Qc Samples.P_q szero sone
           sone Qc_sadd_0_l Qc_smul_1_r).
Defined.

(** X27: On [double] the 2D overload of [ProjectPoint] and the 3D overload at
    [z = 0] agree up to the sign of a zero when the third column of the
    matrix is finite and the denominator is not zero; with an infinite
    element in the third column they differ ([inf * 0] is NaN). *)
Theorem ProjectPoint2_on_double :
  (forall (P : Matrix34 float) (v : Vector2 float),
     IEEE.finite_f (v4_2 (m34_0 P)) -> IEEE.finite_f (v4_2 (m34_1 P)) ->
     IEEE.finite_f (v4_2 (m34_2 P)) ->
     ~ IEEE.is_zero_f (ProjectPoint2_denominator P v) ->
     let r2 := Geometry.ProjectPoint2 P v in
     let r3 :=
       Geometry.ProjectPoint3 P (mkVector3 (v2_0 v) (v2_1 v) 0%float) in
     IEEE.same_or_zeros_f (v2_0 r2) (v2_0 r3)
     /\ IEEE.same_or_zeros_f (v2_1 r2) (v2_1 r3))
  /\ Geometry.ProjectPoint2 MoreSamples.P_inf MoreSamples.v_d
     <> Geometry.ProjectPoint3 MoreSamples.P_inf
          (mkVector3 (v2_0 MoreSamples.v_d) (v2_1 MoreSamples.v_d) 0%float).
Proof.
  split; [exact ProjectPoint2_as_ProjectPoint3_double |].
  intros H. apply (f_equal (fun r => Prim2SF (v2_0 r))) in H.
  vm_compute in H. discriminate H.
Qed.

Lemma ProjectPoint2_on_double_witness :
  IEEE.finite_f (v4_2 (m34_0 MoreSamples.P_d))
  /\ IEEE.finite_f (v4_2 (m34_1 MoreSamples.P_d))
  /\ IEEE.finite_f (v4_2 (m34_2 MoreSamples.P_d))
  /\ ~ IEEE.is_zero_f
         (ProjectPoint2_denominator MoreSamples.P_d MoreSamples.v_d)
  /\ IEEE.same_or_zeros_f
       (v2_0 (Geometry.ProjectPoint2 MoreSamples.P_d MoreSamples.v_d))
       (v2_0 (Geometry.ProjectPoint3 MoreSamples.P_d
                (mkVector3 (v2_0 MoreSamples.v_d) (v2_1 MoreSamples.v_d)
                   0%float))).
Proof.
  assert (F0 : IEEE.finite_f (v4_2 (m34_0 MoreSamples.P_d)))
    by (vm_compute; exact I).
  assert (F1 : IEEE.finite_f (v4_2 (m34_1 MoreSamples.P_d)))
    by (vm_compute; exact I).
  assert (F2 : IEEE.finite_f (v4_2 (m34_2 MoreSamples.P_d)))
    by (vm_compute; exact I).
  assert (Hd : ~ IEEE.is_zero_f
                   (ProjectPoint2_denominator MoreSamples.P_d
                      MoreSamples.v_d)).
  { intros [s H]. vm_compute in H. discriminate H. }
  repeat (split; [assumption |]).
  exact (proj1 (proj1 ProjectPoint2_on_double MoreSamples.P_d
                  MoreSamples.v_d F0 F1 F2 Hd)).
Defined.

Lemma pointToPointDist3_homogeneity_witness :
  Samples.qz 2 <> szero
  /\ line_norm2 (ublas.prod33 Samples.F_q (homogeneous2 Samples.from_q))
     <> szero
  /\ Calibration.pointToPointDist3
       (scale3 (Samples.qz 2) (homogeneous2 Samples.from_q))
       (homogeneous2 Samples.to_q) Samples.F_q
     = Calibration.pointToPointDist3 (homogeneous2 Samples.from_q)
         (homogeneous2 Samples.to_q) Samples.F_q.
Proof.
  assert (Hn : line_norm2
                 (ublas.prod33 Samples.F_q (homogeneous2 Samples.from_q))
               <> szero) by qc_apart.
  split; [exact qz2_nonzero |]. split; [exact Hn |].
  exact (proj1 (@pointToPointDist3_homogeneity Qc Scalar_Qc Qc_scalar_field
                  Samples.F_q (homogeneous2 Samples.from_q)
                  (homogeneous2 Samples.to_q))
           (Samples.qz 2) qz2_nonzero Hn).
Defined.

Lemma build_system_blocks_witness :
  length [Behind.Pa; Behind.Pb] = length [Behind.xa; Behind.xb]
  /\ length
       (Calibration.build_system [Behind.Pa; Behind.Pb]
          [Behind.xa; Behind.xb])
     = 6.
Proof.
  split; [reflexivity |].
  exact (proj1 (@build_system_blocks Qc Scalar_Qc Qc_scalar_field
                  [Behind.Pa; Behind.Pb] [Behind.xa; Behind.xb]) eq_refl).
Defined.
